(** * TaskFlow day planner: the scheduling engine of [PlannerController]

    A shallow embedding of the planner code of the TaskFlow task manager
    (the [TaskManager], [PlannerController] and [UIController] objects)
    and the properties of its auto-schedule, quick-schedule, drag-drop
    and resize paths; then the rest of the task store, the list view,
    and the [StorageManager], [AuthManager] and [CategoryManager]
    objects the planner sits on.

    Modelling conventions.
    - A JavaScript number is a [number]: an integer or [NaN].  Every
      number the planner handles on well-typed task records is an integer
      (minutes, hours, priority ranks); non-integer pixel arithmetic of
      the drop and resize handlers is done in [Q] and re-enters the
      integers through [Math_round].  IEEE rounding of doubles is not
      modelled.
    - A string is a [string]: a sequence of code units below 256.
    - [null], [undefined] and a missing key are [None]; the code reads
      such a field by its truthiness alone, which is written out and
      does not tell the three apart.
    - A property access on [null] raises a [TypeError]: functions that
      contain such an access return a [Result].
    - The task store ([localStorage] behind [getTasks]/[saveTasks]) is a
      [list Task] passed explicitly. *)

From Stdlib Require Import ZArith List String Ascii Bool Lia.
From Stdlib Require Import QArith Qround Lqa.
From Stdlib Require Import Permutation Sorted.
From Stdlib Require Import DecimalString DecimalZ DecimalPos DecimalFacts.
From Stdlib Require HexadecimalString HexadecimalZ.
Import ListNotations.

Local Open Scope string_scope.
Local Open Scope Z_scope.

(* ================================================================== *)
(** ** JavaScript primitives used by the planner *)
(* ================================================================== *)

Module JS.

(** Numbers: integers and [NaN]. *)
Inductive number : Type :=
| NaN
| Int (z : Z).

Definition add (a b : number) : number :=
  match a, b with
  | Int x, Int y => Int (x + y)
  | _, _ => NaN
  end.

Definition sub (a b : number) : number :=
  match a, b with
  | Int x, Int y => Int (x - y)
  | _, _ => NaN
  end.

Definition mul (a b : number) : number :=
  match a, b with
  | Int x, Int y => Int (x * y)
  | _, _ => NaN
  end.

(** Comparisons: any comparison with [NaN] is [false]. *)
Definition lt (a b : number) : bool :=
  match a, b with
  | Int x, Int y => x <? y
  | _, _ => false
  end.

Definition gt (a b : number) : bool := lt b a.

Definition le (a b : number) : bool :=
  match a, b with
  | Int x, Int y => x <=? y
  | _, _ => false
  end.

Definition ge (a b : number) : bool := le b a.

(** [x || d] on a number: [0] and [NaN] are falsy. *)
Definition num_or (a : number) (d : Z) : Z :=
  match a with
  | Int 0 => d
  | Int x => x
  | NaN => d
  end.

(** Truthiness of a possibly absent string: [null], [undefined] and the
    empty string are falsy. *)
Definition truthy (o : option string) : bool :=
  match o with
  | Some s => negb (String.eqb s "")
  | None => false
  end.

(** The property names every object inherits from [Object.prototype]:
    a lookup of one of them in an object literal that has no such key
    of its own gives the inherited member, a function or an object,
    which is truthy and is not a number. *)
Definition inherited : list string :=
  [ "constructor"; "__proto__"; "hasOwnProperty"; "isPrototypeOf";
    "propertyIsEnumerable"; "toLocaleString"; "toString"; "valueOf";
    "__defineGetter__"; "__defineSetter__"; "__lookupGetter__";
    "__lookupSetter__" ].

(** Results of code that may throw. *)
Inductive Result (A : Type) : Type :=
| Ok (a : A)
| TypeError.

Arguments Ok {A} a.
Arguments TypeError {A}.

Definition bind {A B : Type} (m : Result A) (k : A -> Result B) : Result B :=
  match m with
  | Ok a => k a
  | TypeError => TypeError
  end.

(** [Array.prototype.some] with a callback that may throw: it stops at
    the first element for which the callback returns [true]. *)
Fixpoint some {A : Type} (f : A -> Result bool) (l : list A) : Result bool :=
  match l with
  | [] => Ok false
  | x :: r =>
      bind (f x) (fun b => if b then Ok true else some f r)
  end.

(** [s.split(':')] *)
Fixpoint split_colon (s : string) : list string :=
  match s with
  | EmptyString => [EmptyString]
  | String c r =>
      if Ascii.eqb c ":"%char then EmptyString :: split_colon r
      else match split_colon r with
           | h :: t => String c h :: t
           | [] => [String c EmptyString]
           end
  end.

(** [s.replace(':', '')]: the first colon is removed. *)
Fixpoint remove_colon (s : string) : string :=
  match s with
  | EmptyString => EmptyString
  | String c r =>
      if Ascii.eqb c ":"%char then r else String c (remove_colon r)
  end.

(** [s.trim()]: the blanks it drops are the white space and line
    terminators of the language; those below 256 are tab, line feed,
    vertical tab, form feed, carriage return, space and the no-break
    space. *)
Definition is_blank (c : ascii) : bool :=
  (Ascii.eqb c " " || Ascii.eqb c "009" || Ascii.eqb c "010"
   || Ascii.eqb c "011" || Ascii.eqb c "012" || Ascii.eqb c "013"
   || Ascii.eqb c "160")%char.

Fixpoint trimStart (s : string) : string :=
  match s with
  | EmptyString => EmptyString
  | String c r => if is_blank c then trimStart r else s
  end.

Fixpoint trimEnd (s : string) : string :=
  match s with
  | EmptyString => EmptyString
  | String c r =>
      match trimEnd r with
      | EmptyString => if is_blank c then EmptyString else String c EmptyString
      | r' => String c r'
      end
  end.

Definition trim (s : string) : string := trimEnd (trimStart s).

(** The value of a string of decimal digits; the empty string is [0]. *)
Definition digits (s : string) : number :=
  match NilEmpty.uint_of_string s with
  | Some d => Int (Z.of_uint d)
  | None => NaN
  end.

Definition negate (n : number) : number :=
  match n with
  | Int z => Int (- z)
  | NaN => NaN
  end.

(** Longest prefix of decimal digits of a string, and what follows
    it. *)
Definition is_digit (c : ascii) : bool :=
  match NilEmpty.uint_of_string (String c EmptyString) with
  | Some _ => true
  | None => false
  end.

Fixpoint digit_prefix (s : string) : string :=
  match s with
  | EmptyString => EmptyString
  | String c r => if is_digit c then String c (digit_prefix r) else EmptyString
  end.

Fixpoint digit_rest (s : string) : string :=
  match s with
  | EmptyString => EmptyString
  | String c r => if is_digit c then digit_rest r else s
  end.

(** The value of the leading decimal digits, [NaN] when there is
    none. *)
Definition prefix_value (s : string) : number :=
  match digit_prefix s with
  | EmptyString => NaN
  | p => digits p
  end.

(** The value of a character as a digit of [radix], for the radices 2,
    8 and 16. *)
Definition radix_digit (radix : Z) (c : ascii) : option Z :=
  let n := Z.of_nat (nat_of_ascii c) in
  let v := if (48 <=? n) && (n <=? 57) then n - 48
           else if (97 <=? n) && (n <=? 102) then n - 87
           else if (65 <=? n) && (n <=? 70) then n - 55
           else radix in
  if v <? radix then Some v else None.

(** The value of the longest prefix of digits of [radix], after the
    digits of value [acc]; [seen] tells whether a digit was read. *)
Fixpoint radix_prefix (radix : Z) (s : string) (acc : Z) (seen : bool)
  : number :=
  match s with
  | EmptyString => if seen then Int acc else NaN
  | String c r =>
      match radix_digit radix c with
      | Some v => radix_prefix radix r (acc * radix + v) true
      | None => if seen then Int acc else NaN
      end
  end.

(** The same when the digits must reach the end of the string. *)
Fixpoint radix_value (radix : Z) (s : string) (acc : Z) (seen : bool)
  : option Z :=
  match s with
  | EmptyString => if seen then Some acc else None
  | String c r =>
      match radix_digit radix c with
      | Some v => radix_value radix r (acc * radix + v) true
      | None => None
      end
  end.

(** What [StringToNumber] makes of a string: not a numeric literal, a
    literal whose value is an integer, a literal whose value is finite
    and not an integer, or [Infinity] with a sign or without.  The
    value is the exact one of the literal; the rounding to a double is
    not modelled. *)
Inductive Literal : Type :=
| NotNumeric
| Integer (z : Z)
| Fraction
| Infinite.

Definition negateLiteral (l : Literal) : Literal :=
  match l with
  | Integer z => Integer (- z)
  | _ => l
  end.

(** [0x], [0o] and [0b] literals, which take no sign. *)
Definition NonDecimalIntegerLiteral (s : string) : option Literal :=
  match s with
  | String "0" (String p r) =>
      let radix :=
        if (Ascii.eqb p "x" || Ascii.eqb p "X")%char then Some 16
        else if (Ascii.eqb p "o" || Ascii.eqb p "O")%char then Some 8
        else if (Ascii.eqb p "b" || Ascii.eqb p "B")%char then Some 2
        else None in
      match radix with
      | Some n =>
          match radix_value n r 0 false with
          | Some v => Some (Integer v)
          | None => Some NotNumeric
          end
      | None => None
      end
  | _ => None
  end.

(** [DecimalDigits], [+ DecimalDigits] or [- DecimalDigits]. *)
Definition SignedInteger (s : string) : option Z :=
  let unsigned r :=
    match r with
    | EmptyString => None
    | _ => match NilEmpty.uint_of_string r with
           | Some d => Some (Z.of_uint d)
           | None => None
           end
    end in
  match s with
  | String "+" r => unsigned r
  | String "-" r => option_map Z.opp (unsigned r)
  | _ => unsigned s
  end.

(** The exponent an [ExponentPart] that ends the literal stands for;
    none is exponent [0]. *)
Definition ExponentPart (s : string) : option Z :=
  match s with
  | EmptyString => Some 0
  | String c r =>
      if (Ascii.eqb c "e" || Ascii.eqb c "E")%char then SignedInteger r
      else None
  end.

(** [m * 10 ^ k] *)
Definition scaled (m k : Z) : Literal :=
  if 0 <=? k then Integer (m * 10 ^ k)
  else if m mod 10 ^ (- k) =? 0 then Integer (m / 10 ^ (- k))
       else Fraction.

(** [Infinity], or digits with an optional fraction and an optional
    exponent, at least one digit before or after the point. *)
Definition StrUnsignedDecimalLiteral (s : string) : Literal :=
  if String.eqb s "Infinity" then Infinite
  else
    let whole := digit_prefix s in
    let '(fraction, exponent) :=
      match digit_rest s with
      | String "." r => (digit_prefix r, digit_rest r)
      | r => (EmptyString, r)
      end in
    match (whole ++ fraction)%string with
    | EmptyString => NotNumeric
    | mantissa =>
        match ExponentPart exponent, digits mantissa with
        | Some e, Int m =>
            scaled m (e - Z.of_nat (String.length fraction))
        | _, _ => NotNumeric
        end
    end.

(** [StringToNumber]: blanks around the literal are dropped and the
    empty string is [0]. *)
Definition StringToNumber (s : string) : Literal :=
  match trim s with
  | EmptyString => Integer 0
  | t =>
      match NonDecimalIntegerLiteral t with
      | Some l => l
      | None =>
          match t with
          | String "+" r => StrUnsignedDecimalLiteral r
          | String "-" r => negateLiteral (StrUnsignedDecimalLiteral r)
          | _ => StrUnsignedDecimalLiteral t
          end
      end
  end.

(** [Number(s)] on a string.  The numbers of the model are the
    integers: a literal whose value is not one, a fraction or
    [Infinity], has no number here, and [Number] gives [NaN] for it;
    [exact] tells these strings from the others. *)
Definition Number (s : string) : number :=
  match StringToNumber s with
  | Integer z => Int z
  | _ => NaN
  end.

(** The string is one on which [Number] above is the number the
    language gives: not a literal, or a literal whose value is an
    integer below [2 ^ 46] in size, so that the minutes computed from
    it are exact in a double. *)
Definition exact (s : string) : bool :=
  match StringToNumber s with
  | NotNumeric => true
  | Integer z => Z.abs z <=? 2 ^ 46
  | Fraction | Infinite => false
  end.

(** [parseInt(s)]: leading blanks are skipped, a sign is read, then
    [0x] or [0X] when it is there, and the leading digits, hexadecimal
    after the prefix and decimal otherwise, give the value. *)
Definition parseInt (s : string) : number :=
  let unsigned t :=
    match t with
    | String "0" (String p r) =>
        if (Ascii.eqb p "x" || Ascii.eqb p "X")%char
        then radix_prefix 16 r 0 false
        else prefix_value t
    | _ => prefix_value t
    end in
  match trimStart s with
  | String "+" r => unsigned r
  | String "-" r => negate (unsigned r)
  | t => unsigned t
  end.

(** [n.toString()] of an integer. *)
Definition toString (n : Z) : string := NilZero.string_of_int (Z.to_int n).

(** [s.padStart(2, '0')] *)
Definition padStart2 (s : string) : string :=
  match s with
  | EmptyString => "00"
  | String c EmptyString => String "0"%char s
  | _ => s
  end.

(** [Math.round]: the nearest integer, halves rounded up. *)
Definition Math_round (q : Q) : Z := Qfloor (q + (1 # 2))%Q.

(** Array destructuring [[a, b] = arr.map(Number)]: a missing element is
    [undefined], which every arithmetic operation turns into [NaN]. *)
Definition first_two (l : list string) : number * number :=
  match l with
  | [] => (NaN, NaN)
  | [a] => (Number a, NaN)
  | a :: b :: _ => (Number a, Number b)
  end.

(** [const [h, m] = s.split(':').map(Number)] *)
Definition hour_minute (s : string) : number * number :=
  first_two (split_colon s).

(** The two fields [hour_minute] reads are [exact]. *)
Definition exact_clock (s : string) : bool :=
  match split_colon s with
  | [] => true
  | [a] => exact a
  | a :: b :: _ => exact a && exact b
  end.

(** The same on a property that may be [null]: [null.split] throws. *)
Definition split_time (o : option string) : Result (number * number) :=
  match o with
  | Some s => Ok (hour_minute s)
  | None => TypeError
  end.

(** [`${h.toString().padStart(2, '0')}:${m.toString().padStart(2, '0')}`] *)
Definition format_time (h m : Z) : string :=
  (padStart2 (toString h) ++ ":" ++ padStart2 (toString m))%string.

(** Stable sort with a comparator, as [Array.prototype.sort] is
    specified: an element goes before the first element it does not
    compare greater than, so equal elements keep their order. *)
Section Sort.
Context {A : Type}.

Fixpoint insert (cmp : A -> A -> Z) (x : A) (l : list A) : list A :=
  match l with
  | [] => [x]
  | y :: r => if cmp x y <=? 0 then x :: l else y :: insert cmp x r
  end.

Fixpoint sort (cmp : A -> A -> Z) (l : list A) : list A :=
  match l with
  | [] => []
  | x :: r => insert cmp x (sort cmp r)
  end.

(** The same with a comparator that may throw and may return [NaN],
    which the sort reads as [0].  With [NaN] keys the comparator is
    not a consistent order and the order an engine produces is its
    own; the proofs use only that the result is a rearrangement. *)
Definition sign_of (v : number) : Z :=
  match v with
  | NaN => 0
  | Int z => z
  end.

Fixpoint insertM (cmp : A -> A -> Result number) (x : A) (l : list A)
  : Result (list A) :=
  match l with
  | [] => Ok [x]
  | y :: r =>
      bind (cmp x y) (fun v =>
        if sign_of v <=? 0 then Ok (x :: l)
        else bind (insertM cmp x r) (fun r' => Ok (y :: r')))
  end.

Fixpoint sortM (cmp : A -> A -> Result number) (l : list A)
  : Result (list A) :=
  match l with
  | [] => Ok []
  | x :: r => bind (sortM cmp r) (insertM cmp x)
  end.

(** [arr.forEach] with a body that threads a state and may throw. *)
Fixpoint forEach {S : Type} (body : S -> A -> Result S) (l : list A)
  (st : S) : Result S :=
  match l with
  | [] => Ok st
  | x :: r => bind (body st x) (forEach body r)
  end.
End Sort.

End JS.

Import JS.

(* ================================================================== *)
(** ** TaskManager: task records and the store *)
(* ================================================================== *)

Module TaskManager.

Record Subtask : Type := mkSubtask {
  text : string;
  st_completed : bool
}.

(** A task record as [createTask] builds it.  [plannedStartTime] is
    [None] when the record has no such key, as a new task, and when the
    key holds [null], as a task taken off the timeline. *)
Record Task : Type := mkTask {
  id : string;
  title : string;
  description : string;
  priority : string;
  categoryId : option string;
  dueDate : option string;
  preferredTime : option string;
  plannedStartTime : option string;
  plannedDuration : option Z;
  color : string;
  subtasks : list Subtask;
  completed : bool;
  createdAt : string;
  order : Z
}.

(** The object passed to [updateTask]: the keys it carries. *)
Record Updates : Type := mkUpdates {
  u_title : option string;
  u_description : option string;
  u_priority : option string;
  u_categoryId : option (option string);
  u_dueDate : option (option string);
  u_preferredTime : option (option string);
  u_plannedStartTime : option (option string);
  u_plannedDuration : option Z;
  u_color : option string;
  u_subtasks : option (list Subtask)
}.

Definition no_updates : Updates :=
  mkUpdates None None None None None None None None None None.

Definition over {A : Type} (u : option A) (old : A) : A :=
  match u with
  | Some v => v
  | None => old
  end.

(** [{ ...task, ...updates }] *)
Definition merge (t : Task) (u : Updates) : Task :=
  mkTask (id t)
         (over (u_title u) (title t))
         (over (u_description u) (description t))
         (over (u_priority u) (priority t))
         (over (u_categoryId u) (categoryId t))
         (over (u_dueDate u) (dueDate t))
         (over (u_preferredTime u) (preferredTime t))
         (over (u_plannedStartTime u) (plannedStartTime t))
         (match u_plannedDuration u with
          | Some d => Some d
          | None => plannedDuration t
          end)
         (over (u_color u) (color t))
         (over (u_subtasks u) (subtasks t))
         (completed t)
         (createdAt t)
         (order t).

(** [tasks.findIndex(t => t.id === taskId)] *)
Fixpoint findIndex (taskId : string) (tasks : list Task) : option nat :=
  match tasks with
  | [] => None
  | t :: r =>
      if String.eqb (id t) taskId then Some O
      else option_map S (findIndex taskId r)
  end.

(** [tasks.find(t => t.id === taskId)] *)
Definition findTask (taskId : string) (tasks : list Task) : option Task :=
  find (fun t => String.eqb (id t) taskId) tasks.

(** [tasks[index] = v] for an index inside the array. *)
Fixpoint assign (tasks : list Task) (index : nat) (v : Task) : list Task :=
  match tasks, index with
  | [], _ => []
  | _ :: r, O => v :: r
  | t :: r, S i => t :: assign r i v
  end.

(** [updateTask(taskId, updates)]: the store after the call (the
    planner ignores the returned record). *)
Definition updateTask (taskId : string) (updates : Updates)
  (tasks : list Task) : list Task :=
  match findIndex taskId tasks with
  | None => tasks
  | Some index =>
      match nth_error tasks index with
      | Some t => assign tasks index (merge t updates)
      | None => tasks
      end
  end.

(** The form data [createTask] receives. *)
Record TaskData : Type := mkTaskData {
  d_title : string;
  d_description : string;
  d_priority : string;
  d_categoryId : option string;
  d_dueDate : option string;
  d_preferredTime : option string;
  d_plannedDuration : Z;
  d_color : string;
  d_subtasks : list Subtask
}.

Definition str_or (s : string) (d : string) : string :=
  if String.eqb s "" then d else s.

Definition opt_or_null (o : option string) : option string :=
  if truthy o then o else None.

Definition bump_order (t : Task) : Task :=
  mkTask (id t) (title t) (description t) (priority t) (categoryId t)
         (dueDate t) (preferredTime t) (plannedStartTime t)
         (plannedDuration t) (color t) (subtasks t) (completed t)
         (createdAt t) (order t + 1).

(** [createTask(taskData)]; [newId] is [generateId()] and [now] the
    creation time stamp. *)
Definition createTask (newId now : string) (taskData : TaskData)
  (tasks : list Task) : list Task :=
  let newTask :=
    mkTask newId
           (trim (d_title taskData))
           (str_or (trim (d_description taskData)) "")
           (str_or (d_priority taskData) "medium")
           (opt_or_null (d_categoryId taskData))
           (opt_or_null (d_dueDate taskData))
           (opt_or_null (d_preferredTime taskData))
           None
           (Some (num_or (Int (d_plannedDuration taskData)) 30))
           (str_or (d_color taskData) "#6366f1")
           (d_subtasks taskData)
           false
           now
           0 in
  newTask :: map bump_order tasks.

(** The same form data passed to [updateTask]. *)
Definition updates_of (taskData : TaskData) : Updates :=
  mkUpdates (Some (d_title taskData))
            (Some (d_description taskData))
            (Some (d_priority taskData))
            (Some (d_categoryId taskData))
            (Some (d_dueDate taskData))
            (Some (d_preferredTime taskData))
            None
            (Some (d_plannedDuration taskData))
            (Some (d_color taskData))
            (Some (d_subtasks taskData)).

(** *** The other operations of the store *)

(** [deleteTask(taskId)] *)
Definition deleteTask (taskId : string) (tasks : list Task) : list Task :=
  filter (fun t => negb (String.eqb (id t) taskId)) tasks.

(** The record [tasks.find(t => t.id === taskId)] found, changed in
    place by [change], in the array that is saved; the store is as it
    was when no record is found. *)
Definition mutateTask (taskId : string) (change : Task -> Task)
  (tasks : list Task) : list Task :=
  match findIndex taskId tasks with
  | None => tasks
  | Some index =>
      match nth_error tasks index with
      | Some t => assign tasks index (change t)
      | None => tasks
      end
  end.

(** [task.completed = !task.completed;
     task.subtasks.forEach(st => st.completed = task.completed)] *)
Definition toggled (t : Task) : Task :=
  mkTask (id t) (title t) (description t) (priority t) (categoryId t)
         (dueDate t) (preferredTime t) (plannedStartTime t)
         (plannedDuration t) (color t)
         (map (fun st => mkSubtask (text st) (negb (completed t)))
              (subtasks t))
         (negb (completed t)) (createdAt t) (order t).

(** [toggleComplete(taskId)] *)
Definition toggleComplete (taskId : string) (tasks : list Task)
  : list Task :=
  mutateTask taskId toggled tasks.

(** [subtasks[index].completed = !subtasks[index].completed] *)
Fixpoint flipAt (index : nat) (subs : list Subtask) : list Subtask :=
  match subs, index with
  | [], _ => []
  | st :: r, O => mkSubtask (text st) (negb (st_completed st)) :: r
  | st :: r, S i => st :: flipAt i r
  end.

Definition withSubtasks (t : Task) (subs : list Subtask) : Task :=
  mkTask (id t) (title t) (description t) (priority t) (categoryId t)
         (dueDate t) (preferredTime t) (plannedStartTime t)
         (plannedDuration t) (color t) subs (completed t) (createdAt t)
         (order t).

(** [toggleSubtask(taskId, subtaskIndex)]; the index is the result of
    [parseInt].  Nothing is saved when the task or the subtask is not
    found. *)
Definition toggleSubtask (taskId : string) (subtaskIndex : number)
  (tasks : list Task) : list Task :=
  match subtaskIndex with
  | NaN => tasks
  | Int z =>
      if z <? 0 then tasks
      else
        mutateTask taskId
          (fun t =>
             match nth_error (subtasks t) (Z.to_nat z) with
             | Some _ => withSubtasks t (flipAt (Z.to_nat z) (subtasks t))
             | None => t
             end)
          tasks
  end.

(** The copy [duplicateTask] builds of [original]. *)
Definition duplicateOf (newId now : string) (original : Task) : Task :=
  mkTask newId
         (title original ++ " (copy)")%string
         (description original) (priority original) (categoryId original)
         (dueDate original) (preferredTime original)
         (plannedStartTime original) (plannedDuration original)
         (color original)
         (map (fun st => mkSubtask (text st) false) (subtasks original))
         false now 0.

(** [duplicateTask(taskId)]; [newId] is [generateId()]. *)
Definition duplicateTask (newId now taskId : string) (tasks : list Task)
  : list Task :=
  match findTask taskId tasks with
  | None => tasks
  | Some original => duplicateOf newId now original :: map bump_order tasks
  end.

Definition withOrder (t : Task) (o : Z) : Task :=
  mkTask (id t) (title t) (description t) (priority t) (categoryId t)
         (dueDate t) (preferredTime t) (plannedStartTime t)
         (plannedDuration t) (color t) (subtasks t) (completed t)
         (createdAt t) o.

(** [new Map(tasks.map(t => [t.id, t])).get(taskId)]: a later record of
    the same id replaces an earlier one. *)
Fixpoint mapGet (taskId : string) (tasks : list Task) : option Task :=
  match tasks with
  | [] => None
  | t :: r =>
      match mapGet taskId r with
      | Some t' => Some t'
      | None => if String.eqb (id t) taskId then Some t else None
      end
  end.

(** The index a record of id [taskId] holds after
    [taskIds.map((id, index) => { task.order = index; ... })]: every
    position of the id writes the same object, the last one stays. *)
Fixpoint lastIndex (taskId : string) (taskIds : list string) (from : Z)
  : option Z :=
  match taskIds with
  | [] => None
  | i :: r =>
      match lastIndex taskId r (from + 1) with
      | Some k => Some k
      | None => if String.eqb i taskId then Some from else None
      end
  end.

(** [reorderTasks(taskIds)]: the records named by [taskIds], in that
    order and with their index as [order], then the records it does not
    name. *)
Definition reorderTasks (taskIds : list string) (tasks : list Task)
  : list Task :=
  let reordered :=
    flat_map
      (fun i =>
         match mapGet i tasks, lastIndex i taskIds 0 with
         | Some task, Some index => [withOrder task index]
         | _, _ => []
         end)
      taskIds in
  (reordered
   ++ filter (fun task => negb (existsb (String.eqb (id task)) taskIds))
             tasks)%list.

(** [clearCompleted()]: the store and the number of records removed. *)
Definition clearCompleted (tasks : list Task) : list Task * Z :=
  let active := filter (fun t => negb (completed t)) tasks in
  (active, Z.of_nat (List.length tasks) - Z.of_nat (List.length active)).

Record Stats : Type := mkStats {
  total : Z;
  s_completed : Z;
  high : Z;
  medium : Z;
  low : Z
}.

Definition count (p : Task -> bool) (tasks : list Task) : Z :=
  Z.of_nat (List.length (filter p tasks)).

(** [getStats()] *)
Definition getStats (tasks : list Task) : Stats :=
  mkStats (Z.of_nat (List.length tasks))
          (count (fun t => completed t) tasks)
          (count (fun t => String.eqb (priority t) "high"
                           && negb (completed t)) tasks)
          (count (fun t => String.eqb (priority t) "medium"
                           && negb (completed t)) tasks)
          (count (fun t => String.eqb (priority t) "low"
                           && negb (completed t)) tasks).

(** [s.includes(q)] *)
Fixpoint includes (s q : string) : bool :=
  String.prefix q s
  || match s with
     | EmptyString => false
     | String _ r => includes r q
     end.

Inductive SortMode : Type :=
| ByPriority
| ByDueDate
| ByCreated
| Alphabetical
| Custom.

(** [this.currentSort] as the [switch] of [sortTasks] reads it. *)
Definition sortMode (currentSort : string) : SortMode :=
  if String.eqb currentSort "priority" then ByPriority
  else if String.eqb currentSort "dueDate" then ByDueDate
  else if String.eqb currentSort "created" then ByCreated
  else if String.eqb currentSort "alphabetical" then Alphabetical
  else Custom.

(** The library functions of the list view, which the code takes from
    the host: [String.prototype.toLowerCase],
    [String.prototype.localeCompare] and the time value of
    [new Date(s)] ([NaN] for an invalid date). *)
Section ListView.
Variable toLowerCase : string -> string.
Variable localeCompare : string -> string -> Z.
Variable dateValue : string -> number.

(** [priorityOrder[p]] for [{ high: 0, medium: 1, low: 2 }]; any other
    key gives a value whose difference is [NaN]. *)
Definition listPriority (p : string) : number :=
  if String.eqb p "high" then Int 0
  else if String.eqb p "medium" then Int 1
  else if String.eqb p "low" then Int 2
  else NaN.

(** The comparator of each sort mode. *)
Definition comparator (mode : SortMode) (a b : Task) : number :=
  match mode with
  | ByPriority => sub (listPriority (priority a)) (listPriority (priority b))
  | ByDueDate =>
      match dueDate a, dueDate b with
      | Some da, Some db =>
          if negb (truthy (dueDate a)) then Int 1
          else if negb (truthy (dueDate b)) then Int (-1)
          else sub (dateValue da) (dateValue db)
      | None, _ => Int 1
      | Some _, None =>
          if negb (truthy (dueDate a)) then Int 1 else Int (-1)
      end
  | ByCreated => sub (dateValue (createdAt b)) (dateValue (createdAt a))
  | Alphabetical => Int (localeCompare (title a) (title b))
  | Custom => Int (num_or (Int (order a)) 0 - num_or (Int (order b)) 0)
  end.

(** [sortTasks(tasks)] *)
Definition sortTasks (currentSort : string) (tasks : list Task)
  : list Task :=
  sort (fun a b => sign_of (comparator (sortMode currentSort) a b)) tasks.

(** The status test of [getFilteredTasks]; [today] is
    [new Date().toISOString().split('T')[0]]. *)
Definition statusFilter (filter today : string) (t : Task) : bool :=
  if String.eqb filter "active" then negb (completed t)
  else if String.eqb filter "completed" then completed t
  else if String.eqb filter "high" then String.eqb (priority t) "high"
  else if String.eqb filter "medium" then String.eqb (priority t) "medium"
  else if String.eqb filter "low" then String.eqb (priority t) "low"
  else if String.eqb filter "today" then
    match dueDate t with
    | Some d => String.eqb d today
    | None => false
    end
  else if String.eqb filter "overdue" then
    match dueDate t with
    | Some d => truthy (dueDate t) && String.ltb d today
                && negb (completed t)
    | None => false
    end
  else true.

Definition searchFilter (searchQuery : string) (t : Task) : bool :=
  if String.eqb searchQuery "" then true
  else
    let query := toLowerCase searchQuery in
    includes (toLowerCase (title t)) query
    || (negb (String.eqb (description t) "")
        && includes (toLowerCase (description t)) query).

Definition categoryTest (categoryFilter : option string) (t : Task)
  : bool :=
  match categoryFilter with
  | Some c =>
      if truthy categoryFilter then
        match categoryId t with
        | Some c' => String.eqb c' c
        | None => false
        end
      else true
  | None => true
  end.

(** [getFilteredTasks(filter, searchQuery, categoryFilter)] *)
Definition getFilteredTasks (currentSort today filter searchQuery : string)
  (categoryFilter : option string) (tasks : list Task) : list Task :=
  sortTasks currentSort
    (List.filter (statusFilter filter today)
       (List.filter (categoryTest categoryFilter)
          (List.filter (searchFilter searchQuery) tasks))).

End ListView.

End TaskManager.

Import TaskManager.

(* ================================================================== *)
(** ** PlannerController *)
(* ================================================================== *)

Module PlannerController.

Definition timeSlotHeight : Z := 60.
Definition startHour : Z := 0.
Definition endHour : Z := 24.

(** [task.plannedDuration || 30] *)
Definition durationOf (t : Task) : Z :=
  match plannedDuration t with
  | Some d => num_or (Int d) 30
  | None => 30
  end.

(** [hours * 60 + minutes] *)
Definition toMinutes (hm : number * number) : number :=
  add (mul (fst hm) (Int 60)) (snd hm).

(** The callback of the overlap checks,
    [s => { const [sH, sM] = s.plannedStartTime.split(':').map(Number);
            const sStart = sH * 60 + sM;
            const sEnd = sStart + (s.plannedDuration || 30);
            return (myStart < sEnd && myEnd > sStart); }] *)
Definition occupies (myStart myEnd : number) (s : Task) : Result bool :=
  bind (split_time (plannedStartTime s)) (fun hm =>
    let sStart := toMinutes hm in
    let sEnd := add sStart (Int (durationOf s)) in
    Ok (lt myStart sEnd && gt myEnd sStart)).

(** *** renderTasks: the partition shown by the planner *)

Definition relevant (today : string) (t : Task) : bool :=
  match dueDate t with
  | Some d => String.eqb d today || negb (truthy (dueDate t))
  | None => true
  end.

Record Partition : Type := mkPartition {
  p_unscheduled : list Task;
  p_scheduled : list Task;
  p_completed : list Task
}.

Definition renderTasks (today : string) (allTasks : list Task) : Partition :=
  let relevantTasks := filter (relevant today) allTasks in
  fold_left
    (fun p task =>
       if completed task then
         mkPartition (p_unscheduled p)
                     (if truthy (plannedStartTime task)
                      then p_scheduled p ++ [task] else p_scheduled p)
                     (p_completed p ++ [task])
       else if truthy (plannedStartTime task) then
         mkPartition (p_unscheduled p) (p_scheduled p ++ [task])
                     (p_completed p)
       else
         mkPartition (p_unscheduled p ++ [task]) (p_scheduled p)
                     (p_completed p))
    relevantTasks (mkPartition [] [] []).

(** *** autoScheduleTasks *)

(** What [priorityOrder[p] || 0] evaluates to: a number, or the member
    of [Object.prototype] that the name [p] reaches. *)
Inductive Rank : Type :=
| Known (z : Z)
| Member (key : string).

(** [priorityOrder[p] || 0] for
    [priorityOrder = { 'high': 3, 'medium': 2, 'low': 1 }]. *)
Definition priorityOrder (p : string) : Rank :=
  if String.eqb p "high" then Known 3
  else if String.eqb p "medium" then Known 2
  else if String.eqb p "low" then Known 1
  else if existsb (String.eqb p) inherited then Member p
  else Known 0.

(** [pA !== pB]: two members are the same object when they are reached
    by the same name. *)
Definition differ (a b : Rank) : bool :=
  match a, b with
  | Known x, Known y => negb (x =? y)
  | Member k, Member k' => negb (String.eqb k k')
  | _, _ => true
  end.

(** [pB - pA]: a member is not a number. *)
Definition minus (a b : Rank) : number :=
  match a, b with
  | Known x, Known y => Int (x - y)
  | _, _ => NaN
  end.

Definition sortFn (a b : Task) : number :=
  let pA := priorityOrder (priority a) in
  let pB := priorityOrder (priority b) in
  if differ pA pB then minus pB pA
  else Int (durationOf b - durationOf a).

(** [parseInt(a.plannedStartTime.replace(':', ''))] *)
Definition clockKey (t : Task) : Result number :=
  match plannedStartTime t with
  | Some s => Ok (parseInt (remove_colon s))
  | None => TypeError
  end.

Definition byClock (a b : Task) : Result number :=
  bind (clockKey a) (fun timeA =>
  bind (clockKey b) (fun timeB => Ok (sub timeA timeB))).

Definition workStartMins : Z := 8 * 60.
Definition workEndMins : Z := 20 * 60.

#[global] Arguments workStartMins : simpl never.
#[global] Arguments workEndMins : simpl never.

Definition unscheduledOf (tasks : list Task) : list Task :=
  filter (fun t => negb (truthy (plannedStartTime t)) && negb (completed t))
         tasks.

Definition scheduledOf (tasks : list Task) : list Task :=
  filter (fun t => truthy (plannedStartTime t) && negb (completed t)) tasks.

(** [[...withPreference, ...withoutPreference]] *)
Definition sortedUnscheduled (unscheduled : list Task) : list Task :=
  let withPreference := filter (fun t => truthy (preferredTime t)) unscheduled in
  let withoutPreference :=
    filter (fun t => negb (truthy (preferredTime t))) unscheduled in
  withPreference
  ++ sort (fun a b => sign_of (sortFn a b)) withoutPreference.

(** Strategy A: the preferred time, when the task has one. *)
Definition tryPreferred (scheduled : list Task) (task : Task) (duration : Z)
  : Result (option string) :=
  match preferredTime task with
  | Some p =>
      if truthy (preferredTime task) then
        let pStart := toMinutes (hour_minute p) in
        let pEnd := add pStart (Int duration) in
        bind (some (occupies pStart pEnd) scheduled) (fun overlaps =>
          if negb overlaps && ge pStart (Int workStartMins)
             && le pEnd (Int workEndMins)
          then Ok (Some p) else Ok None)
      else Ok None
  | None => Ok None
  end.

(** Strategy B: [for (let time = workStartMins;
    time <= workEndMins - duration; time += 15)], leaving at the first
    free slot.  [fuel] bounds the number of iterations. *)
Fixpoint scanFrom (fuel : nat) (scheduled : list Task) (duration time : Z)
  : Result (option string) :=
  match fuel with
  | O => Ok None
  | S fuel' =>
      if time <=? workEndMins - duration then
        bind (some (occupies (Int time) (Int (time + duration))) scheduled)
          (fun overlaps =>
             if negb overlaps then
               let h := time / 60 in
               let m := Z.rem time 60 in
               Ok (Some (format_time h m))
             else scanFrom fuel' scheduled duration (time + 15))
      else Ok None
  end.

(** Iterations of the scan loop when no slot is free. *)
Definition scanSteps (duration : Z) : nat :=
  Z.to_nat ((workEndMins - duration - workStartMins) / 15 + 1).

Definition slotScan (scheduled : list Task) (duration : Z)
  : Result (option string) :=
  scanFrom (scanSteps duration) scheduled duration workStartMins.

(** The start time chosen for one task, [scheduledTime]. *)
Definition placeTask (scheduled : list Task) (task : Task)
  : Result (option string) :=
  let duration := durationOf task in
  bind (tryPreferred scheduled task duration) (fun scheduledTime =>
    match scheduledTime with
    | Some _ => Ok scheduledTime
    | None => slotScan scheduled duration
    end).

(** [{ plannedStartTime: scheduledTime }] *)
Definition startAt (scheduledTime : string) : Updates :=
  mkUpdates None None None None None None (Some (Some scheduledTime))
            None None None.

(** The state of the placement loop: the store, the local [scheduled]
    array and [scheduledCount]. *)
Record Loop : Type := mkLoop {
  store : list Task;
  scheduled : list Task;
  scheduledCount : Z
}.

(** The body of [sortedUnscheduled.forEach]. *)
Definition scheduleOne (st : Loop) (task : Task) : Result Loop :=
  bind (placeTask (scheduled st) task) (fun scheduledTime =>
    match scheduledTime with
    | Some time =>
        let store' := updateTask (id task) (startAt time) (store st) in
        bind (sortM byClock (scheduled st ++ [merge task (startAt time)]))
          (fun scheduled' =>
             Ok (mkLoop store' scheduled' (scheduledCount st + 1)))
    | None => Ok st
    end).

Inductive AutoToast : Type :=
| NoUnscheduledTasks
| AutoScheduled (n : Z)
| NoEmptySlots.

Definition autoScheduleTasks (tasks : list Task)
  : Result (list Task * AutoToast) :=
  let unscheduled := unscheduledOf tasks in
  match unscheduled with
  | [] => Ok (tasks, NoUnscheduledTasks)
  | _ =>
      bind (sortM byClock (scheduledOf tasks)) (fun scheduled0 =>
      bind (forEach scheduleOne (sortedUnscheduled unscheduled)
              (mkLoop tasks scheduled0 0))
        (fun st =>
           if scheduledCount st >? 0
           then Ok (store st, AutoScheduled (scheduledCount st))
           else Ok (store st, NoEmptySlots)))
  end.

(** *** quickScheduleTask *)

Inductive QuickToast : Type :=
| TaskNotFound
| OutOfWindowError
| SlotOccupiedError
| QuickScheduled.

Definition quickScheduleTask (taskId timeString : string) (tasks : list Task)
  : Result (list Task * QuickToast) :=
  match findTask taskId tasks with
  | None => Ok (tasks, TaskNotFound)
  | Some task =>
      let '(hours, minutes) := hour_minute timeString in
      if lt hours (Int startHour) || ge hours (Int endHour) then
        Ok (tasks, OutOfWindowError)
      else
        let duration := durationOf task in
        let myStart := add (mul hours (Int 60)) minutes in
        let myEnd := add myStart (Int duration) in
        let scheduled :=
          filter (fun t => truthy (plannedStartTime t) && negb (completed t)
                           && negb (String.eqb (id t) taskId)) tasks in
        bind (some (occupies myStart myEnd) scheduled) (fun overlaps =>
          if overlaps then Ok (tasks, SlotOccupiedError)
          else Ok (updateTask taskId (startAt timeString) tasks,
                   QuickScheduled))
  end.

(** *** handleDrop *)

Definition inject (z : Z) : Q := inject_Z z.

(** The drop position as minutes from midnight, snapped to the grid. *)
Definition snappedMinutes (clientY rectTop scrollTop : Q) : Z :=
  let relativeY := (clientY - rectTop + scrollTop - inject 16)%Q in
  let hoursOffset := (relativeY / inject timeSlotHeight)%Q in
  let totalMinutes :=
    (inject startHour * inject 60 + hoursOffset * inject 60)%Q in
  Math_round (totalMinutes / inject 15)%Q * 15.

Definition dropUpdates (today : string) (draggedTask : Task)
  (timeString : string) : Updates :=
  mkUpdates None None None None
            (if negb (truthy (dueDate draggedTask)) then Some (Some today)
             else None)
            None
            (Some (Some timeString))
            (Some (durationOf draggedTask))
            None None.

(** [handleDrop(e)]: [draggedTask] is the controller field, [today] is
    [new Date().toISOString().split('T')[0]]; the result is the store
    and whether the drop was taken. *)
Definition handleDrop (draggedTask : option Task)
  (clientY rectTop scrollTop : Q) (today : string) (tasks : list Task)
  : list Task * bool :=
  match draggedTask with
  | None => (tasks, false)
  | Some dragged =>
      let snapped := snappedMinutes clientY rectTop scrollTop in
      let hour := snapped / 60 in
      let minute := Z.rem snapped 60 in
      if (hour <? startHour) || (hour >=? endHour) then (tasks, false)
      else
        let timeString := format_time hour minute in
        (updateTask (id dragged) (dropUpdates today dragged timeString) tasks,
         true)
  end.

(** *** handleResizeEnd *)

(** The duration committed for an element of height [height] pixels. *)
Definition resizedDuration (height : Z) : Z :=
  let durationMins := (inject height / inject timeSlotHeight * inject 60)%Q in
  let durationMins := Math_round (durationMins / inject 15)%Q * 15 in
  if durationMins <? 15 then 15 else durationMins.

Definition durationTo (durationMins : Z) : Updates :=
  mkUpdates None None None None None None None (Some durationMins) None None.

(** [handleResizeEnd()]: [offsetHeight] is the height of the task's
    element, a whole number of pixels, [None] when the element is not
    on the timeline.  The
    result is the store and the new [resizingTask]. *)
Definition handleResizeEnd (resizingTask : option Task)
  (offsetHeight : option Z) (tasks : list Task) : list Task * option Task :=
  match resizingTask with
  | None => (tasks, resizingTask)
  | Some task =>
      match offsetHeight with
      | Some height =>
          (updateTask (id task) (durationTo (resizedDuration height)) tasks,
           None)
      | None => (tasks, None)
      end
  end.

(** *** The other handlers of the planner *)

(** [{ plannedStartTime: null }] *)
Definition noStart : Updates :=
  mkUpdates None None None None None None (Some None) None None None.

(** [unscheduleTask(taskId)] *)
Definition unscheduleTask (taskId : string) (tasks : list Task)
  : list Task :=
  updateTask taskId noStart tasks.

(** [handleUnscheduleDrop(e)] *)
Definition handleUnscheduleDrop (draggedTask : option Task)
  (tasks : list Task) : list Task :=
  match draggedTask with
  | None => tasks
  | Some dragged => unscheduleTask (id dragged) tasks
  end.

(** A number as a CSS length; [None] is [NaN]. *)
Definition pixels (n : number) : option Q :=
  match n with
  | Int z => Some (inject z)
  | NaN => None
  end.

(** The block [renderScheduledTasks] draws for a task: the values of
    [el.style.top] and [el.style.height], in pixels. *)
Record Block : Type := mkBlock {
  b_id : string;
  b_top : option Q;
  b_height : Q
}.

(** The position and size computed in the body of
    [renderScheduledTasks]'s loop; [task.plannedStartTime.split] throws
    on a task without start time. *)
Definition blockOf (task : Task) : Result Block :=
  bind (split_time (plannedStartTime task)) (fun hm =>
    let totalMinutes := toMinutes hm in
    let startMinutes := startHour * 60 in
    let offsetMinutes := sub totalMinutes (Int startMinutes) in
    let top :=
      option_map (fun o => (o / inject 60 * inject timeSlotHeight)%Q)
                 (pixels offsetMinutes) in
    let durationMins := durationOf task in
    let height := (inject durationMins / inject 60 * inject timeSlotHeight)%Q in
    Ok (mkBlock (id task)
                (option_map (fun t => (t + inject 16)%Q) top)
                height)).

(** [tasks.forEach] of [renderScheduledTasks]: the blocks on the
    timeline, in order. *)
Fixpoint renderScheduledTasks (tasks : list Task) : Result (list Block) :=
  match tasks with
  | [] => Ok []
  | task :: r =>
      bind (blockOf task) (fun b =>
      bind (renderScheduledTasks r) (fun bs => Ok (b :: bs)))
  end.

(** [formatTime(hour, minute)] on numeric arguments. *)
Definition formatTime (hour minute : Z) : string :=
  let period := if hour >=? 12 then "PM" else "AM" in
  let displayHour := num_or (Int (Z.rem hour 12)) 12 in
  let displayMinute := padStart2 (toString minute) in
  (toString displayHour ++ ":" ++ displayMinute ++ " " ++ period)%string.

(** [formatEndTime(startHour, startMinute, durationMinutes)] *)
Definition formatEndTime (startHour startMinute durationMinutes : Z)
  : string :=
  let totalStart := startHour * 60 + startMinute in
  let totalEnd := totalStart + durationMinutes in
  let endHour := totalEnd / 60 in
  let endMinute := Z.rem totalEnd 60 in
  formatTime endHour endMinute.

(** [formatDuration(mins)] *)
Definition formatDuration (mins : Z) : string :=
  let h := mins / 60 in
  let m := Z.rem mins 60 in
  if (h >? 0) && (m >? 0) then (toString h ++ "h " ++ toString m ++ "m")%string
  else if h >? 0 then (toString h ++ "h")%string
  else (toString m ++ "m")%string.

(** The test of [highlightActiveTasks]: the task is under way at
    minute [currentMinutes] of the day. *)
Definition isCurrentTask (currentMinutes : Z) (task : Task) : bool :=
  match plannedStartTime task with
  | Some s =>
      if truthy (plannedStartTime task) then
        let startMinutes := toMinutes (hour_minute s) in
        let endMinutes := add startMinutes (Int (durationOf task)) in
        ge (Int currentMinutes) startMinutes
        && lt (Int currentMinutes) endMinutes
      else false
  | None => false
  end.

(** The resize state of the controller and the height of the element
    of the task being resized ([None] when it is not on the timeline);
    pointer positions and heights are whole pixels. *)
Record Resize : Type := mkResize {
  resizingTask : option Task;
  resizeStartY : Z;
  resizeStartHeight : Z;
  elementHeight : option Z
}.

(** [handleResizeStart(e, task, el)] *)
Definition handleResizeStart (clientY : Z) (task : Task) (offsetHeight : Z)
  : Resize :=
  mkResize (Some task) clientY offsetHeight (Some offsetHeight).

(** [handleResizeMove(e)] *)
Definition handleResizeMove (clientY : Z) (r : Resize) : Resize :=
  match resizingTask r with
  | None => r
  | Some _ =>
      let dy := clientY - resizeStartY r in
      let newHeight := Z.max 15 (resizeStartHeight r + dy) in
      match elementHeight r with
      | Some _ =>
          mkResize (resizingTask r) (resizeStartY r) (resizeStartHeight r)
                   (Some newHeight)
      | None => r
      end
  end.

(** The duration shown while the handle moves,
    [Math.round((newHeight / this.timeSlotHeight) * 60)]. *)
Definition liveDuration (newHeight : Z) : Z :=
  Math_round (inject newHeight / inject timeSlotHeight * inject 60)%Q.

(** [mouseup]: [handleResizeEnd] on the controller state. *)
Definition releaseResize (r : Resize) (tasks : list Task)
  : list Task * Resize :=
  let '(tasks', resizing) :=
    handleResizeEnd (resizingTask r) (elementHeight r) tasks in
  (tasks', mkResize resizing (resizeStartY r) (resizeStartHeight r)
                    (elementHeight r)).

End PlannerController.

(* ================================================================== *)
(** ** UIController: the task form *)
(* ================================================================== *)

Module UIController.

(** The values read from the form; the two duration fields are the
    results of [parseInt] on the inputs. *)
Record Form : Type := mkForm {
  taskTitle : string;
  taskDescription : string;
  taskPriority : string;
  taskCategory : string;
  taskDue : string;
  taskPreferredTime : string;
  taskDurationHours : number;
  taskDurationMinutes : number;
  taskColor : string;
  editingSubtasks : list Subtask;
  taskId : string
}.

Definition nonempty (s : string) : option string :=
  if String.eqb s "" then None else Some s.

(** [(hours * 60) + minutes], floored at 15. *)
Definition formDuration (f : Form) : Z :=
  let hours := num_or (taskDurationHours f) 0 in
  let minutes := num_or (taskDurationMinutes f) 0 in
  let duration := hours * 60 + minutes in
  if duration <? 15 then 15 else duration.

Definition validPriority (p : string) : string :=
  if String.eqb p "low" || String.eqb p "medium" || String.eqb p "high"
  then p else "medium".

Definition formData (f : Form) : TaskData :=
  mkTaskData (trim (taskTitle f))
             (taskDescription f)
             (validPriority (taskPriority f))
             (nonempty (taskCategory f))
             (nonempty (taskDue f))
             (nonempty (taskPreferredTime f))
             (formDuration f)
             (taskColor f)
             (filter (fun st => negb (String.eqb (trim (text st)) ""))
                     (editingSubtasks f)).

(** [handleTaskSubmit(e)]: [None] when the title is rejected. *)
Definition handleTaskSubmit (newId now : string) (f : Form)
  (tasks : list Task) : option (list Task) :=
  if String.eqb (trim (taskTitle f)) "" then None
  else
    let taskData := formData f in
    if negb (String.eqb (taskId f) "")
    then Some (updateTask (taskId f) (updates_of taskData) tasks)
    else Some (createTask newId now taskData tasks).

(** The two duration fields as [openTaskModal] fills them: from the
    task that is edited, or 0 and 30 for a new task. *)
Definition modalDuration (task : option Task) : string * string :=
  match task with
  | Some t =>
      let existingDuration := PlannerController.durationOf t in
      (toString (existingDuration / 60),
       toString (Z.rem existingDuration 60))
  | None => ("0", "30")
  end.

End UIController.

(* ================================================================== *)
(** ** StorageManager, AuthManager and CategoryManager *)
(* ================================================================== *)

Module StorageManager.

(** [ToInt32]: the 32-bit two's complement reading of an integer. *)
Definition toInt32 (z : Z) : Z :=
  let m := z mod 2 ^ 32 in
  if m <? 2 ^ 31 then m else m - 2 ^ 32.

(** [password.charCodeAt(i)]; a string is its sequence of code units,
    here below 256. *)
Definition charCode (c : ascii) : Z := Z.of_nat (nat_of_ascii c).

(** One turn of the loop of [hashPassword]:
    [hash = ((hash << 5) - hash) + char; hash = hash & hash]. *)
Definition hashStep (hash : Z) (c : ascii) : Z :=
  toInt32 (toInt32 (toInt32 hash * 2 ^ 5) - hash + charCode c).

Fixpoint hashFrom (hash : Z) (password : string) : Z :=
  match password with
  | EmptyString => hash
  | String c r => hashFrom (hashStep hash c) r
  end.

(** [n.toString(16)] *)
Definition toString16 (n : Z) : string :=
  HexadecimalString.NilZero.string_of_int (Z.to_hex_int n).

(** [hashPassword(password)] *)
Definition hashPassword (password : string) : string :=
  toString16 (hashFrom 0 password).

End StorageManager.

Module AuthManager.

Record Account : Type := mkAccount {
  username : string;
  passwordHash : string;
  a_createdAt : string
}.

(** The stored state of the accounts: the [accounts] object, as its own
    keys in order, and the current user. *)
Record Auth : Type := mkAuth {
  accounts : list (string * Account);
  currentUser : option string
}.

(** What [accounts[key]] reads. *)
Inductive Slot : Type :=
| Own (a : Account)
| Inherited
| Missing.

Fixpoint ownSlot (key : string) (l : list (string * Account))
  : option Account :=
  match l with
  | [] => None
  | (k, a) :: r => if String.eqb k key then Some a else ownSlot key r
  end.

Definition slot (key : string) (l : list (string * Account)) : Slot :=
  match ownSlot key l with
  | Some a => Own a
  | None => if existsb (String.eqb key) inherited then Inherited
            else Missing
  end.

(** The answer of [createAccount] and [login]:
    [{ success: true }] or [{ success: false, error }]. *)
Inductive Answer : Type :=
| Success
| Failure (error : string).

(** [String.prototype.toLowerCase] and [String.prototype.trim] are the
    host's. *)
Section Accounts.
Variable toLowerCase : string -> string.
Variable trim : string -> string.

(** [username.toLowerCase().trim()] *)
Definition normalize (name : string) : string := trim (toLowerCase name).

(** [createAccount(username, password)]; [now] is the time stamp. *)
Definition createAccount (now name password : string) (st : Auth)
  : Auth * Answer :=
  if String.eqb name "" || String.eqb password "" then
    (st, Failure "Username and password are required")
  else if (String.length name <? 3)%nat then
    (st, Failure "Username must be at least 3 characters")
  else if (String.length password <? 4)%nat then
    (st, Failure "Password must be at least 4 characters")
  else
    let normalizedUsername := normalize name in
    match slot normalizedUsername (accounts st) with
    | Missing =>
        (mkAuth (accounts st
                 ++ [(normalizedUsername,
                      mkAccount (trim name)
                                (StorageManager.hashPassword password)
                                now)])%list
                (Some (trim name)),
         Success)
    | _ => (st, Failure "Username already exists")
    end.

(** [login(username, password)] *)
Definition login (name password : string) (st : Auth) : Auth * Answer :=
  if String.eqb name "" || String.eqb password "" then
    (st, Failure "Username and password are required")
  else
    match slot (normalize name) (accounts st) with
    | Missing => (st, Failure "Account not found")
    | Inherited => (st, Failure "Incorrect password")
    | Own account =>
        if negb (String.eqb (passwordHash account)
                            (StorageManager.hashPassword password))
        then (st, Failure "Incorrect password")
        else (mkAuth (accounts st) (Some (username account)), Success)
    end.

(** [TaskManager.getUserTasksKey()] *)
Definition getUserTasksKey (st : Auth) : option string :=
  match currentUser st with
  | Some user =>
      if truthy (currentUser st)
      then Some ("taskflow_tasks_" ++ toLowerCase user)%string
      else None
  | None => None
  end.

End Accounts.

(** [logout()] *)
Definition logout (st : Auth) : Auth := mkAuth (accounts st) None.

(** [isLoggedIn()] *)
Definition isLoggedIn (st : Auth) : bool := truthy (currentUser st).

End AuthManager.

Module CategoryManager.

Record Category : Type := mkCategory {
  c_id : string;
  c_name : string;
  c_color : string;
  c_createdAt : string
}.

Section Categories.
Variable toLowerCase : string -> string.

(** [createCategory(name, color)]: the categories, and whether the
    name was free; [newId] is [generateId()]. *)
Definition createCategory (newId now name color : string)
  (categories : list Category) : list Category * bool :=
  if existsb (fun c => String.eqb (toLowerCase (c_name c))
                                  (toLowerCase name)) categories
  then (categories, false)
  else ((categories ++ [mkCategory newId (trim name) color now])%list,
        true).

End Categories.

Definition withoutCategory (t : Task) : Task :=
  mkTask (id t) (title t) (description t) (priority t) None
         (dueDate t) (preferredTime t) (plannedStartTime t)
         (plannedDuration t) (color t) (subtasks t) (completed t)
         (createdAt t) (order t).

(** [deleteCategory(categoryId)]: the categories and the tasks after
    it. *)
Definition deleteCategory (categoryId : string)
  (categories : list Category) (tasks : list Task)
  : list Category * list Task :=
  (filter (fun c => negb (String.eqb (c_id c) categoryId)) categories,
   map (fun task =>
          match TaskManager.categoryId task with
          | Some c => if String.eqb c categoryId then withoutCategory task
                      else task
          | None => task
          end)
       tasks).

(** [getCategoryById(id)] *)
Definition getCategoryById (i : string) (categories : list Category)
  : option Category :=
  find (fun c => String.eqb (c_id c) i) categories.

End CategoryManager.

Import PlannerController.

(* ================================================================== *)
(** ** The engine in closed form

    The notions of the design document (sections 3, 4.2 and 4.3) over
    the code's own reading of a record: its clock strings through
    [hour_minute] and its duration through [durationOf].  [Design]
    below states the same notions from the document alone. *)
(* ================================================================== *)

Module Spec.

(** An interval [(startMinute, endMinute)]. *)
Definition Interval : Type := (number * number)%type.

(** The interval that starts at clock string [s] and lasts [d] minutes. *)
Definition slot (s : string) (d : Z) : Interval :=
  let startMinute := toMinutes (hour_minute s) in
  (startMinute, add startMinute (Int d)).

(** The derived interval of a task: [startMinute = hour * 60 + minute],
    [endMinute = startMinute + plannedDuration]. *)
Definition interval (t : Task) : Interval :=
  match plannedStartTime t with
  | Some s => slot s (durationOf t)
  | None => (NaN, NaN)
  end.

(** Two intervals overlap iff [aStart < bEnd && aEnd > bStart]. *)
Definition overlaps (a b : Interval) : bool :=
  lt (fst a) (snd b) && gt (snd a) (fst b).

(** [overlaps(candidateStart, candidateEnd, activeScheduled)] *)
Definition overlapsAny (candidate : Interval) (activeScheduled : list Task)
  : bool :=
  existsb (fun s => overlaps candidate (interval s)) activeScheduled.

(** A task is scheduled when it has a [plannedStartTime]. *)
Definition isScheduled (t : Task) : bool := truthy (plannedStartTime t).

(** An active task is a non-completed one. *)
Definition isActive (t : Task) : bool := negb (completed t).

(** The interval lies inside the working window. *)
Definition insideWindow (i : Interval) : bool :=
  ge (fst i) (Int workStartMins) && le (snd i) (Int workEndMins).

(** Candidate starts: from [workStart], in 15-minute steps, [n] of
    them. *)
Definition candidateStarts (n : nat) : list Z :=
  map (fun k => workStartMins + 15 * Z.of_nat k) (seq 0 n).

(** Candidate starts from [workStart] to [workEnd - duration]
    inclusive. *)
Definition candidates (duration : Z) : list Z :=
  candidateStarts (scanSteps duration).

(** [HH:MM] of a minute count. *)
Definition clock (minutes : Z) : string :=
  format_time (minutes / 60) (Z.rem minutes 60).

(** Step 2 of the placement algorithm: the first candidate start whose
    interval does not overlap the committed set. *)
Definition firstFree (committed : list Task) (duration : Z) : option Z :=
  find (fun start =>
          negb (overlapsAny (Int start, Int (start + duration)) committed))
       (candidates duration).

(** Steps 1 to 3 of the placement algorithm. *)
Definition placement (committed : list Task) (task : Task) : option string :=
  let duration := durationOf task in
  let scan := option_map clock (firstFree committed duration) in
  match preferredTime task with
  | Some p =>
      if truthy (preferredTime task)
         && insideWindow (slot p duration)
         && negb (overlapsAny (slot p duration) committed)
      then Some p
      else scan
  | None => scan
  end.

(** The task with [plannedStartTime] set and nothing else touched. *)
Definition withStart (t : Task) (s : string) : Task :=
  mkTask (id t) (title t) (description t) (priority t) (categoryId t)
         (dueDate t) (preferredTime t) (Some s) (plannedDuration t)
         (color t) (subtasks t) (completed t) (createdAt t) (order t).

(** The task with [plannedDuration] set and nothing else touched. *)
Definition withDuration (t : Task) (d : Z) : Task :=
  mkTask (id t) (title t) (description t) (priority t) (categoryId t)
         (dueDate t) (preferredTime t) (plannedStartTime t) (Some d)
         (color t) (subtasks t) (completed t) (createdAt t) (order t).

(** The task as a drop at clock string [s] leaves it: start time set,
    due date defaulted to [today], duration kept or defaulted. *)
Definition dropped (today : string) (t : Task) (s : string) : Task :=
  mkTask (id t) (title t) (description t) (priority t) (categoryId t)
         (if truthy (dueDate t) then dueDate t else Some today)
         (preferredTime t) (Some s) (Some (durationOf t))
         (color t) (subtasks t) (completed t) (createdAt t) (order t).

(** The duration floor of the data model. *)
Definition floored (t : Task) : Prop :=
  exists d, plannedDuration t = Some d /\ 15 <= d.


End Spec.

Import Spec.

(* ================================================================== *)
(** ** The design document's algorithms

    The scheduling engine as sections 3 and 4 of the design document
    describe it, on the task records of the store: written from the
    document's words, with no function of the code above.  Times are
    [HH:MM] strings and whole minutes, and the committed set is a list
    of intervals.  The code is compared with these definitions on the
    records of the data model, [wellFormed] below, in a store of the
    day, [dayStore]. *)
(* ================================================================== *)

Module Design.

(** *** Time model (section 4.1) *)

Definition digit (c : ascii) : option Z :=
  let n := Z.of_nat (nat_of_ascii c) in
  if (48 <=? n) && (n <=? 57) then Some (n - 48) else None.

(** The hour and the minute of an [HH:MM] string. *)
Definition hhmm (s : string) : option (Z * Z) :=
  match s with
  | String h1 (String h2 (String ":" (String m1 (String m2 EmptyString)))) =>
      match digit h1, digit h2, digit m1, digit m2 with
      | Some a, Some b, Some c, Some d => Some (10 * a + b, 10 * c + d)
      | _, _, _, _ => None
      end
  | _ => None
  end.

(** [toMinutes(hour, minute) = hour * 60 + minute] *)
Definition toMinutes (hm : Z * Z) : Z := fst hm * 60 + snd hm.





(** *** Data model (section 3) *)

(** [plannedDuration], 30 by default. *)
Definition duration (t : Task) : Z :=
  match plannedDuration t with
  | Some d => d
  | None => 30
  end.

Definition Span : Type := (Z * Z)%type.

(** The derived interval [(startMinute, endMinute)] of a scheduled
    task. *)
Definition spanOf (t : Task) : option Span :=
  match plannedStartTime t with
  | Some s =>
      option_map (fun hm => (toMinutes hm, toMinutes hm + duration t))
                 (hhmm s)
  | None => None
  end.

(** [aStart < bEnd && aEnd > bStart] *)
Definition overlap (a b : Span) : bool :=
  (fst a <? snd b) && (snd a >? fst b).

(** A task is scheduled when [plannedStartTime] is present. *)
Definition scheduled (t : Task) : bool :=
  match plannedStartTime t with
  | Some _ => true
  | None => false
  end.

(** A task is relevant to [today] when it is due today or has no due
    date. *)
Definition relevant (today : string) (t : Task) : bool :=
  match dueDate t with
  | Some d => String.eqb d today
  | None => true
  end.

(** An active task: not completed and relevant to the day. *)
Definition active (today : string) (t : Task) : bool :=
  negb (completed t) && relevant today t.

(** The priorities of the data model and their ranks. *)
Definition rank (p : string) : option Z :=
  if String.eqb p "high" then Some 3
  else if String.eqb p "medium" then Some 2
  else if String.eqb p "low" then Some 1
  else None.

Definition present {A : Type} (o : option A) : bool :=
  match o with
  | Some _ => true
  | None => false
  end.

(** The times of the record are [HH:MM] strings where present and its
    duration is a positive number of minutes. *)
Definition timed (t : Task) : bool :=
  match plannedStartTime t with
  | Some s => present (hhmm s)
  | None => true
  end
  && match preferredTime t with
     | Some p => present (hhmm p)
     | None => true
     end
  && match plannedDuration t with
     | Some d => 0 <? d
     | None => true
     end.

(** A record of the data model: [timed], with one of the three
    priorities. *)
Definition wellFormed (t : Task) : bool :=
  timed t && present (rank (priority t)).




(** *** Interval store (section 4.2) *)

(** The intervals of the active scheduled tasks, without the task
    [excludeTaskId]. *)
Definition activeScheduled (today : string) (tasks : list Task)
  (excludeTaskId : option string) : list Span :=
  flat_map
    (fun t =>
       let excluded :=
         match excludeTaskId with
         | Some i => String.eqb (id t) i
         | None => false
         end in
       if active today t && scheduled t && negb excluded then
         match spanOf t with
         | Some c => [c]
         | None => []
         end
       else [])
    tasks.

(** [overlaps(candidateStart, candidateEnd, activeScheduled)] *)
Definition overlaps (candidate : Span) (committed : list Span) : bool :=
  existsb (overlap candidate) committed.

(** *** Scheduling engine (section 4.3) *)

(** The unscheduled set: the active tasks without [plannedStartTime]. *)
Definition unscheduled (today : string) (tasks : list Task) : list Task :=
  filter (fun t => active today t && negb (scheduled t)) tasks.

Definition hasPreference (t : Task) : bool := present (preferredTime t).

Definition rankOf (t : Task) : Z :=
  match rank (priority t) with
  | Some r => r
  | None => 0
  end.

(** [a] may stand before [b] in the sorted part: higher rank first,
    ties broken by longer [plannedDuration] first. *)
Definition precedes (a b : Task) : Prop :=
  rankOf a > rankOf b \/ (rankOf a = rankOf b /\ duration a >= duration b).

(** Equal priority and equal duration. *)
Definition tied (a b : Task) : bool :=
  (rankOf a =? rankOf b) && (duration a =? duration b).

(** The ordering policy: [order] is the tasks with a preference in
    their original order, followed by the tasks without one, sorted,
    those that are tied in their original order. *)
Definition placementOrder (tasks order : list Task) : Prop :=
  let withPreference := filter hasPreference tasks in
  let withoutPreference :=
    filter (fun t => negb (hasPreference t)) tasks in
  exists sorted,
    order = (withPreference ++ sorted)%list
    /\ Permutation withoutPreference sorted
    /\ StronglySorted precedes sorted
    /\ forall a, filter (tied a) sorted = filter (tied a) withoutPreference.

(** The working window [[08:00, 20:00)]. *)
Definition workStart : Z := 8 * 60.
Definition workEnd : Z := 20 * 60.

(** [pStart >= workStart && pEnd <= workEnd] *)
Definition insideWindow (c : Span) : bool :=
  (fst c >=? workStart) && (snd c <=? workEnd).

(** The start times from [start] to [last] inclusive, in 15-minute
    steps, at most [n] of them. *)
Fixpoint steps (n : nat) (start last : Z) : list Z :=
  match n with
  | O => []
  | S n' =>
      if start <=? last then start :: steps n' (start + 15) last else []
  end.

(** The candidate start times: from [workStart] to [workEnd - d]
    inclusive, in 15-minute steps; the window holds 49 of them. *)
Definition candidateStarts (d : Z) : list Z :=
  steps 49 workStart (workEnd - d).

(** Step 2: the first candidate whose interval does not overlap the
    committed set. *)
Definition firstFree (committed : list Span) (d : Z) : option Z :=
  find (fun start => negb (overlaps (start, start + d) committed))
       (candidateStarts d).







(** *** Quick-schedule (section 4.4) *)


(** *** The duration floor (sections 3 and 4.6) *)

(** The floor at 15 minutes. *)
Definition floor15 (d : Z) : Z := Z.max 15 d.

(** [round(minutes / 15) * 15], halves rounding up. *)
Definition snap15 (minutes : Z) : Z := (2 * minutes + 15) / 30 * 15.

(** The number a duration field of the form stands for; a field that
    holds no number counts as [0]. *)
Definition entered (field : number) : Z :=
  match field with
  | Int z => z
  | NaN => 0
  end.

End Design.

(* ================================================================== *)
(** ** Notions used in the proofs *)
(* ================================================================== *)

(** Every entry of the local [scheduled] array carries a start time, so
    that [s.plannedStartTime.split] never meets [null]. *)
Definition hasStart (t : Task) : Prop := plannedStartTime t <> None.

(** The candidate start is free of the committed set. *)
Definition free (committed : list Task) (duration start : Z) : bool :=
  negb (overlapsAny (Int start, Int (start + duration)) committed).

(** [n] starts in 15-minute steps from [time]. *)
Definition startsFrom (time : Z) (n : nat) : list Z :=
  map (fun k => time + 15 * Z.of_nat k) (seq 0 n).

(** The filter of [autoScheduleTasks] for the tasks it places. *)
Definition isUnscheduled (t : Task) : bool :=
  negb (truthy (plannedStartTime t)) && negb (completed t).

(** The filter of [autoScheduleTasks] for the committed set. *)
Definition isCommitted (t : Task) : bool :=
  truthy (plannedStartTime t) && negb (completed t).

(** An active task scheduled for today. *)
Definition scheduledToday (today : string) (t : Task) : bool :=
  isActive t && isScheduled t && relevant today t.

(** No two active tasks scheduled for today overlap. *)
Definition disjointToday (today : string) (tasks : list Task) : Prop :=
  forall i j a b,
    i <> j ->
    nth_error tasks i = Some a -> nth_error tasks j = Some b ->
    scheduledToday today a = true -> scheduledToday today b = true ->
    overlaps (interval a) (interval b) = false.

(** The same, told by ids rather than positions. *)
Definition disjointById (today : string) (tasks : list Task) : Prop :=
  forall a b,
    In a tasks -> In b tasks -> id a <> id b ->
    scheduledToday today a = true -> scheduledToday today b = true ->
    overlaps (interval a) (interval b) = false.

(** What a run may do to one record: nothing, or set the start time of
    an unscheduled active task. *)
Definition placedOrSame (todo : list Task) (t t' : Task) : Prop :=
  t' = t
  \/ exists s, t' = withStart t s
               /\ isUnscheduled t = true
               /\ ~ In (id t) (map id todo).

(** The invariant of the placement loop over the store [tasks0]:
    [todo] are the tasks still to place. *)
Record Inv (today : string) (tasks0 : list Task) (todo : list Task)
  (st : Loop) : Prop := mkInv {
  inv_frame : Forall2 (placedOrSame todo) tasks0 (store st);
  inv_todo : forall t, In t todo -> In t tasks0;
  inv_nodup : NoDup (map id todo);
  inv_started : Forall hasStart (scheduled st);
  inv_committed :
    forall t, In t (store st) -> isCommitted t = true ->
              In t (scheduled st);
  inv_pending : Forall (fun t => isUnscheduled t = true) todo;
  inv_disjoint :
    disjointById today tasks0 -> disjointById today (store st)
}.

Arguments inv_frame {today tasks0 todo st}.
Arguments inv_todo {today tasks0 todo st}.
Arguments inv_nodup {today tasks0 todo st}.
Arguments inv_started {today tasks0 todo st}.
Arguments inv_committed {today tasks0 todo st}.
Arguments inv_pending {today tasks0 todo st}.
Arguments inv_disjoint {today tasks0 todo st}.

(** The store without its completed records. *)
Definition active (tasks : list Task) : list Task :=
  fst (clearCompleted tasks).

(** The labels [formatTime] gives the minutes of a day, in order. *)
Definition dayLabels : list string :=
  map (fun t => formatTime (t / 60) (Z.rem t 60))
      (map Z.of_nat (seq 0 1440)).

(** No string occurs twice. *)
Fixpoint distinct (l : list string) : bool :=
  match l with
  | [] => true
  | x :: r => negb (existsb (String.eqb x) r) && distinct r
  end.


(** [tasks'] is [tasks] with the start time of the record at position
    [k] empty: the other records, and the other fields of that record,
    are the same. *)
Definition startCleared (k : nat) (tasks tasks' : list Task) : Prop :=
  (forall j, j <> k -> nth_error tasks' j = nth_error tasks j)
  /\ exists t u,
       nth_error tasks k = Some t
       /\ nth_error tasks' k = Some u
       /\ plannedStartTime u = None
       /\ forall s, withStart u s = withStart t s.

(* ================================================================== *)
(** ** Sample stores *)
(* ================================================================== *)

Module Examples.

Definition today : string := "2026-11-02".

(** A task record with the scheduling fields given and the others at
    the defaults of [createTask]. *)
Definition task (i p : string) (due pref start : option string)
  (dur : option Z) (done : bool) : Task :=
  mkTask i i "" p None due pref start dur "#6366f1" [] done
         "2026-11-01T09:00:00.000Z" 0.

(** The end-to-end scenario of the design document: a high-priority
    hour without preference and a half hour that prefers 08:00. *)
Definition endToEnd : list Task :=
  [ task "1" "high" None None None (Some 60) false;
    task "2" "medium" None (Some "08:00") None (Some 30) false ].

(** Two active tasks that already overlap (09:00-10:00 and
    09:30-10:00) and one task to place. *)
Definition doubleBooked : list Task :=
  [ task "a" "medium" None None (Some "09:00") (Some 60) false;
    task "b" "medium" None None (Some "09:30") (Some 30) false;
    task "c" "low" None None None (Some 30) false ].

(** One unscheduled task that is due another day. *)
Definition dueLater : list Task :=
  [ task "t1" "medium" (Some "2099-01-01") None None (Some 30) false ].



(** A task scheduled 09:00-10:00 and a task to drop or quick-schedule
    onto it. *)
Definition busyMorning : list Task :=
  [ task "a" "medium" None None (Some "09:00") (Some 60) false;
    task "b" "medium" None (Some "09:30") None None false ].

(** Six tasks to order: one with a preferred time, the others of
    three priorities and several durations. *)
Definition backlog : list Task :=
  [ task "l" "low" None None None (Some 30) false;
    task "p" "low" None (Some "09:00") None (Some 30) false;
    task "h1" "high" None None None (Some 30) false;
    task "m" "medium" None None None (Some 45) false;
    task "h2" "high" None None None (Some 60) false;
    task "h3" "high" None None None (Some 30) false ].

(** A completed task that holds 08:00-09:00 and a task that prefers
    08:00. *)
Definition withCompleted : list Task :=
  [ task "d" "medium" None None (Some "08:00") (Some 60) true;
    task "e" "medium" None (Some "08:00") None (Some 30) false ].

(** Three active tasks scheduled one after the other. *)
Definition threeBooked : list Task :=
  [ task "a" "medium" None None (Some "09:00") (Some 60) false;
    task "b" "medium" None None (Some "10:00") (Some 30) false;
    task "c" "low" None None (Some "11:00") (Some 60) false ].

End Examples.

(* ================================================================== *)
(** ** Facts about the primitives *)
(* ================================================================== *)

Section Numbers.

Lemma lt_NaN_r (a : number) : lt a NaN = false.
Proof. destruct a; reflexivity. Qed.

Lemma add_NaN_r (a : number) : add a NaN = NaN.
Proof. destruct a; reflexivity. Qed.

Lemma overlaps_sym (a b : Interval) : overlaps a b = overlaps b a.
Proof. unfold overlaps, gt. apply andb_comm. Qed.

Lemma overlaps_NaN_start (a : Interval) (e : number) :
  overlaps a (NaN, e) = false.
Proof.
  unfold overlaps, gt; simpl. now rewrite andb_false_r.
Qed.

Lemma overlaps_NaN_end (a : Interval) (s : number) :
  overlaps a (s, NaN) = false.
Proof.
  unfold overlaps; simpl. now rewrite lt_NaN_r.
Qed.

Lemma num_or_Int_nonzero (d k : Z) : d <> 0 -> num_or (Int d) k = d.
Proof. destruct d; simpl; congruence. Qed.

End Numbers.

Section Clock.

(** A string of decimal digits holds no colon. *)
Lemma digit_not_colon (c : ascii) (d d' : Decimal.uint) :
  uint_of_char c (Some d) = Some d' -> Ascii.eqb c ":"%char = false.
Proof.
  intros H. apply uint_of_char_spec in H.
  destruct H as [[-> _]|[[-> _]|[[-> _]|[[-> _]|[[-> _]|
                [[-> _]|[[-> _]|[[-> _]|[[-> _]|[-> _]]]]]]]]]];
    reflexivity.
Qed.

Lemma uint_of_char_some (c : ascii) (o : option Decimal.uint)
      (d' : Decimal.uint) :
  uint_of_char c o = Some d' -> exists d, o = Some d.
Proof.
  destruct o as [d|]; [eauto | discriminate].
Qed.

Lemma split_colon_digits (s : string) (d : Decimal.uint) :
  NilEmpty.uint_of_string s = Some d -> split_colon s = [s].
Proof.
  revert d. induction s as [|c s IH]; intros d H; [reflexivity|].
  simpl in H. destruct (uint_of_char_some _ _ _ H) as [d0 Hd0].
  rewrite Hd0 in H. simpl.
  rewrite (digit_not_colon _ _ _ H), (IH _ Hd0). reflexivity.
Qed.

Lemma split_colon_app (s r : string) (d : Decimal.uint) :
  NilEmpty.uint_of_string s = Some d ->
  split_colon (s ++ String ":"%char r) = s :: split_colon r.
Proof.
  revert d. induction s as [|c s IH]; intros d H; [reflexivity|].
  simpl in H. destruct (uint_of_char_some _ _ _ H) as [d0 Hd0].
  rewrite Hd0 in H. simpl.
  rewrite (digit_not_colon _ _ _ H), (IH _ Hd0). reflexivity.
Qed.

Lemma toString_digits (n : Z) :
  0 <= n ->
  exists d, NilEmpty.uint_of_string (toString n) = Some d
            /\ Z.of_uint d = n.
Proof.
  intros Hn. destruct n as [|p|p]; [| |lia].
  - exists (Decimal.D0 Decimal.Nil). split; reflexivity.
  - exists (Pos.to_uint p). unfold toString; simpl.
    unfold NilZero.string_of_uint.
    pose proof (DecimalPos.Unsigned.to_uint_nonnil p) as Hnil.
    destruct (Pos.to_uint p) eqn:E; try congruence;
      rewrite <- E, NilEmpty.usu; split; try reflexivity;
      unfold Z.of_uint; now rewrite DecimalPos.Unsigned.of_to.
Qed.

Lemma padStart2_digits (s : string) (d : Decimal.uint) :
  NilEmpty.uint_of_string s = Some d ->
  exists d', NilEmpty.uint_of_string (padStart2 s) = Some d'
             /\ Z.of_uint d' = Z.of_uint d.
Proof.
  intros H. destruct s as [|c [|c' s]].
  - injection H as <-. eexists; split; reflexivity.
  - unfold padStart2. cbn [NilEmpty.uint_of_string] in *.
    rewrite H. eexists; split; reflexivity.
  - exists d. split; [exact H | reflexivity].
Qed.

Lemma digit_not_blank_or_sign (c : ascii) (d d' : Decimal.uint) :
  uint_of_char c (Some d) = Some d' ->
  is_blank c = false /\ c <> "+"%char /\ c <> "-"%char.
Proof.
  intros H. apply uint_of_char_spec in H.
  destruct H as [[-> _]|[[-> _]|[[-> _]|[[-> _]|[[-> _]|
                [[-> _]|[[-> _]|[[-> _]|[[-> _]|[-> _]]]]]]]]]];
    repeat split; discriminate.
Qed.

Lemma trimEnd_digits (s : string) (d : Decimal.uint) :
  NilEmpty.uint_of_string s = Some d -> trimEnd s = s.
Proof.
  revert d. induction s as [|c s IH]; intros d H; [reflexivity|].
  cbn [NilEmpty.uint_of_string] in H.
  destruct (uint_of_char_some _ _ _ H) as [d0 Hd0]. rewrite Hd0 in H.
  destruct (digit_not_blank_or_sign _ _ _ H) as [Hb _].
  cbn [trimEnd]. rewrite (IH _ Hd0), Hb. now destruct s.
Qed.

Lemma trim_digits (s : string) (d : Decimal.uint) :
  NilEmpty.uint_of_string s = Some d -> trim s = s.
Proof.
  intros H. unfold trim.
  assert (E : trimStart s = s).
  { destruct s as [|c s]; [reflexivity|].
    cbn [NilEmpty.uint_of_string] in H.
    destruct (uint_of_char_some _ _ _ H) as [d0 Hd0]. rewrite Hd0 in H.
    destruct (digit_not_blank_or_sign _ _ _ H) as [Hb _].
    cbn [trimStart]. now rewrite Hb. }
  rewrite E. now apply (trimEnd_digits s d).
Qed.

Lemma digit_cases (c : ascii) (d d' : Decimal.uint) :
  uint_of_char c (Some d) = Some d' ->
  In c ["0"; "1"; "2"; "3"; "4"; "5"; "6"; "7"; "8"; "9"]%char.
Proof.
  intros H. apply uint_of_char_spec in H. cbn [In].
  destruct H as [[-> _]|[[-> _]|[[-> _]|[[-> _]|[[-> _]|
                [[-> _]|[[-> _]|[[-> _]|[[-> _]|[-> _]]]]]]]]]]; tauto.
Qed.

Lemma is_digit_of_char (c : ascii) (d d' : Decimal.uint) :
  uint_of_char c (Some d) = Some d' -> is_digit c = true.
Proof.
  intros H. apply digit_cases in H. cbn [In] in H.
  repeat (destruct H as [<-|H]; [reflexivity|]). contradiction.
Qed.

Lemma digit_prefix_digits (s : string) (d : Decimal.uint) :
  NilEmpty.uint_of_string s = Some d -> digit_prefix s = s.
Proof.
  revert d. induction s as [|c s IH]; intros d H; [reflexivity|].
  cbn [NilEmpty.uint_of_string] in H.
  destruct (uint_of_char_some _ _ _ H) as [d0 Hd0]. rewrite Hd0 in H.
  cbn [digit_prefix]. rewrite (is_digit_of_char _ _ _ H), (IH _ Hd0).
  reflexivity.
Qed.

Lemma digit_rest_digits (s : string) (d : Decimal.uint) :
  NilEmpty.uint_of_string s = Some d -> digit_rest s = EmptyString.
Proof.
  revert d. induction s as [|c s IH]; intros d H; [reflexivity|].
  cbn [NilEmpty.uint_of_string] in H.
  destruct (uint_of_char_some _ _ _ H) as [d0 Hd0]. rewrite Hd0 in H.
  cbn [digit_rest]. rewrite (is_digit_of_char _ _ _ H). exact (IH _ Hd0).
Qed.

Lemma append_empty (s : string) : (s ++ "")%string = s.
Proof. induction s as [|c s IH]; cbn; [reflexivity | now rewrite IH]. Qed.

(** A string of digits is a decimal literal without sign, and not a
    literal of another radix. *)
Lemma digits_decimal (c : ascii) (s : string) (d : Decimal.uint) :
  NilEmpty.uint_of_string (String c s) = Some d ->
  StringToNumber (String c s) = StrUnsignedDecimalLiteral (String c s).
Proof.
  intros H. unfold StringToNumber. rewrite (trim_digits _ d H).
  cbn [NilEmpty.uint_of_string] in H.
  destruct (uint_of_char_some _ _ _ H) as [d0 Hd0]. rewrite Hd0 in H.
  apply digit_cases in H. cbn [In] in H.
  assert (Hs : s = EmptyString
               \/ exists p r,
                    s = String p r
                    /\ In p ["0"; "1"; "2"; "3"; "4"; "5"; "6"; "7"; "8";
                             "9"]%char).
  { destruct s as [|p r]; [now left|]. right. exists p, r.
    split; [reflexivity|]. cbn [NilEmpty.uint_of_string] in Hd0.
    destruct (uint_of_char_some _ _ _ Hd0) as [d1 Hd1].
    rewrite Hd1 in Hd0. exact (digit_cases _ _ _ Hd0). }
  repeat (destruct H as [<-|H]; [|]); try contradiction;
    try reflexivity.
  destruct Hs as [->|(p & r & -> & Hp)]; [reflexivity|].
  cbn [In] in Hp.
  repeat (destruct Hp as [<-|Hp]; [reflexivity|]). contradiction.
Qed.

(** [Number] of a string of digits is its value. *)
Lemma Number_digits (s : string) (d : Decimal.uint) :
  NilEmpty.uint_of_string s = Some d -> Number s = Int (Z.of_uint d).
Proof.
  intros H. unfold Number. destruct s as [|c s].
  - cbn in H. injection H as <-. reflexivity.
  - rewrite (digits_decimal c s d H). unfold StrUnsignedDecimalLiteral.
    assert (E : String.eqb (String c s) "Infinity" = false).
    { cbn [NilEmpty.uint_of_string] in H.
      destruct (uint_of_char_some _ _ _ H) as [d0 Hd0]. rewrite Hd0 in H.
      apply digit_cases in H. cbn [In] in H.
      repeat (destruct H as [<-|H]; [reflexivity|]). contradiction. }
    rewrite E, (digit_prefix_digits _ d H), (digit_rest_digits _ d H).
    cbn [String.append]. rewrite append_empty.
    unfold digits. rewrite H. cbn [ExponentPart String.length Z.of_nat].
    unfold scaled. cbn [Z.sub Z.opp Z.add Z.leb Z.compare Z.pow Z.pow_pos
                        Pos.iter].
    now rewrite Z.mul_1_r.
Qed.

(** A formatted field reads back as the number it prints. *)
Lemma field_digits (n : Z) :
  0 <= n ->
  exists d, NilEmpty.uint_of_string (padStart2 (toString n)) = Some d
            /\ Z.of_uint d = n.
Proof.
  intros Hn. destruct (toString_digits n Hn) as (d & Hd & Hv).
  destruct (padStart2_digits _ _ Hd) as (d' & Hd' & Hv').
  exists d'. split; [exact Hd' | congruence].
Qed.

(** What [format_time] prints, [split(':').map(Number)] reads back. *)
Lemma hour_minute_format_time (h m : Z) :
  0 <= h -> 0 <= m -> hour_minute (format_time h m) = (Int h, Int m).
Proof.
  intros Hh Hm.
  destruct (field_digits h Hh) as (dh & Hdh & Hvh).
  destruct (field_digits m Hm) as (dm & Hdm & Hvm).
  unfold hour_minute, format_time. simpl String.append.
  rewrite (split_colon_app _ _ _ Hdh), (split_colon_digits _ _ Hdm).
  cbn [first_two].
  rewrite (Number_digits _ _ Hdh), (Number_digits _ _ Hdm), Hvh, Hvm.
  reflexivity.
Qed.

Lemma format_time_truthy (h m : Z) : truthy (Some (format_time h m)) = true.
Proof.
  unfold format_time, truthy.
  destruct (padStart2 (toString h)) eqn:E; [|reflexivity].
  unfold padStart2 in E. destruct (toString h) as [|c [|c' s]]; discriminate.
Qed.

(** The slot of a printed minute count starts at that minute. *)
Lemma slot_clock (t d : Z) :
  0 <= t -> slot (clock t) d = (Int t, Int (t + d)).
Proof.
  intros Ht. unfold slot, clock.
  rewrite hour_minute_format_time.
  - unfold toMinutes; simpl. rewrite Z.rem_mod_nonneg by lia.
    replace (t / 60 * 60 + t mod 60) with t; [reflexivity|].
    pose proof (Z.div_mod t 60). lia.
  - apply Z.div_pos; lia.
  - rewrite Z.rem_mod_nonneg by lia. apply Z.mod_pos_bound. lia.
Qed.

End Clock.

(* ================================================================== *)
(** ** The committed set: overlap checks and its ordering *)
(* ================================================================== *)


Section Committed.

Lemma truthy_hasStart (t : Task) :
  truthy (plannedStartTime t) = true -> hasStart t.
Proof.
  unfold hasStart. destruct (plannedStartTime t); [congruence|discriminate].
Qed.

Lemma occupies_overlaps (a b : number) (s : Task) :
  hasStart s -> occupies a b s = Ok (overlaps (a, b) (interval s)).
Proof.
  unfold hasStart, occupies, interval, slot, overlaps.
  destruct (plannedStartTime s); [reflexivity | congruence].
Qed.

Lemma some_occupies (a b : number) (l : list Task) :
  Forall hasStart l -> some (occupies a b) l = Ok (overlapsAny (a, b) l).
Proof.
  induction 1 as [|s l Hs _ IH]; [reflexivity|].
  simpl. rewrite (occupies_overlaps _ _ _ Hs). simpl.
  destruct (overlaps (a, b) (interval s)); [reflexivity | exact IH].
Qed.


Lemma overlapsAny_false (c : Interval) (l : list Task) :
  overlapsAny c l = false ->
  forall s, In s l -> overlaps c (interval s) = false.
Proof.
  unfold overlapsAny. intros H s Hs.
  destruct (overlaps c (interval s)) eqn:E; [|reflexivity].
  assert (existsb (fun s => overlaps c (interval s)) l = true)
    by (apply existsb_exists; eauto).
  congruence.
Qed.

Lemma byClock_ok (a b : Task) :
  hasStart a -> hasStart b -> exists v, byClock a b = Ok v.
Proof.
  unfold hasStart, byClock, clockKey.
  destruct (plannedStartTime a), (plannedStartTime b);
    try congruence; simpl; eauto.
Qed.

Lemma insertM_byClock (x : Task) (l : list Task) :
  hasStart x -> Forall hasStart l ->
  exists l', insertM byClock x l = Ok l' /\ Permutation (x :: l) l'.
Proof.
  intros Hx. induction 1 as [|y l Hy _ IH]; simpl.
  - eauto.
  - destruct (byClock_ok x y Hx Hy) as [v ->]. simpl.
    destruct (sign_of v <=? 0); [eauto|].
    destruct IH as (l' & -> & Hp). simpl.
    exists (y :: l'). split; [reflexivity|].
    rewrite perm_swap. now constructor.
Qed.

(** Sorting the committed set succeeds and only reorders it. *)
Lemma sortM_byClock (l : list Task) :
  Forall hasStart l ->
  exists l', sortM byClock l = Ok l' /\ Permutation l l'.
Proof.
  induction 1 as [|x l Hx Hl IH]; simpl; [eauto|].
  destruct IH as (l0 & -> & Hp). simpl.
  assert (Hl0 : Forall hasStart l0)
    by (eapply Permutation_Forall; eassumption).
  destruct (insertM_byClock x l0 Hx Hl0) as (l' & -> & Hp').
  exists l'. split; [reflexivity|].
  rewrite <- Hp'. now constructor.
Qed.

Lemma scheduledOf_hasStart (tasks : list Task) :
  Forall hasStart (scheduledOf tasks).
Proof.
  apply Forall_forall. intros t Ht.
  apply filter_In in Ht. destruct Ht as [_ Ht].
  apply andb_true_iff in Ht. now apply truthy_hasStart.
Qed.

End Committed.

(* ================================================================== *)
(** ** The stable sort of the ordering policy *)
(* ================================================================== *)

Section StableSort.

Context {A : Type} (cmp : A -> A -> Z).

Lemma insert_Permutation (x : A) (l : list A) :
  Permutation (x :: l) (insert cmp x l).
Proof.
  induction l as [|y l IH]; simpl; [reflexivity|].
  destruct (cmp x y <=? 0); [reflexivity|].
  rewrite perm_swap. now constructor.
Qed.

Lemma sort_Permutation (l : list A) : Permutation l (sort cmp l).
Proof.
  induction l as [|x l IH]; simpl; [reflexivity|].
  rewrite <- insert_Permutation. now constructor.
Qed.

Variable R : A -> A -> Prop.
Hypothesis R_le : forall x y, cmp x y <= 0 -> R x y.
Hypothesis R_gt : forall x y, cmp x y > 0 -> R y x.
Hypothesis R_trans : forall x y z, R x y -> R y z -> R x z.

Lemma insert_sorted (x : A) (l : list A) :
  StronglySorted R l -> StronglySorted R (insert cmp x l).
Proof.
  induction 1 as [|y l Hl IH Hy]; simpl.
  - constructor; constructor.
  - destruct (cmp x y <=? 0) eqn:E.
    + apply Z.leb_le in E. constructor.
      * now constructor.
      * constructor; [now apply R_le|].
        eapply Forall_impl; [|exact Hy].
        intros z Hz. eapply R_trans; [apply R_le; exact E | exact Hz].
    + apply Z.leb_gt in E. constructor; [exact IH|].
      eapply Permutation_Forall; [apply insert_Permutation|].
      constructor; [apply R_gt; lia | exact Hy].
Qed.

Lemma sort_sorted (l : list A) : StronglySorted R (sort cmp l).
Proof.
  induction l as [|x l IH]; simpl; [constructor | now apply insert_sorted].
Qed.

(** Stability: elements that compare equal keep their order.  [key]
    selects a class of elements that compare equal to each other. *)
Variable key : A -> bool.
Hypothesis key_eq : forall x y, key x = true -> key y = true -> cmp x y <= 0.

Lemma insert_stable (x : A) (l : list A) :
  filter key (insert cmp x l) = filter key (x :: l).
Proof.
  induction l as [|y l IH]; [reflexivity|].
  simpl. destruct (cmp x y <=? 0) eqn:E; [reflexivity|].
  apply Z.leb_gt in E. simpl in *. rewrite IH.
  destruct (key x) eqn:Kx, (key y) eqn:Ky; try reflexivity.
  specialize (key_eq x y Kx Ky). lia.
Qed.

Lemma sort_stable (l : list A) : filter key (sort cmp l) = filter key l.
Proof.
  induction l as [|x l IH]; [reflexivity|].
  simpl sort. rewrite insert_stable. simpl. now rewrite IH.
Qed.

End StableSort.

Section SortFacts.

Lemma sort_ext_in {A : Type} (cmp cmp' : A -> A -> Z) (l : list A) :
  (forall a b, In a l -> In b l -> cmp a b = cmp' a b) ->
  sort cmp l = sort cmp' l.
Proof.
  induction l as [|x r IH]; intros H; [reflexivity|].
  cbn [sort]. rewrite IH by (intros a b Ha Hb; apply H; now right).
  assert (Hs : forall b, In b (sort cmp' r) -> cmp x b = cmp' x b).
  { intros b Hb. apply H; [now left|]. right.
    apply (Permutation_in _ (Permutation_sym (sort_Permutation cmp' r))).
    exact Hb. }
  revert Hs. generalize (sort cmp' r). intros s Hs.
  induction s as [|y s IHs]; [reflexivity|].
  cbn [insert]. rewrite (Hs y) by now left.
  destruct (cmp' x y <=? 0); [reflexivity|].
  f_equal. apply IHs. intros b Hb. apply Hs. now right.
Qed.

Lemma StronglySorted_weaken {A : Type} (R R' : A -> A -> Prop)
      (P : A -> Prop) (l : list A) :
  (forall a b, P a -> P b -> R a b -> R' a b) ->
  Forall P l -> StronglySorted R l -> StronglySorted R' l.
Proof.
  intros HR HP Hs. induction Hs as [|x l Hl IH Hx]; [constructor|].
  inversion HP as [|? ? Px Pl]; subst.
  constructor; [now apply IH|].
  rewrite Forall_forall in *. intros b Hb. apply HR; auto.
Qed.

End SortFacts.

(* ================================================================== *)
(** ** The slot scan and the placement of one task *)
(* ================================================================== *)

Section Placement.

Variable committed : list Task.
Hypothesis committed_started : Forall hasStart committed.


Lemma startsFrom_S (time : Z) (n : nat) :
  startsFrom time (S n) = time :: startsFrom (time + 15) n.
Proof.
  unfold startsFrom. cbn [seq map].
  replace (time + 15 * Z.of_nat 0) with time by (cbn; lia).
  f_equal. rewrite <- seq_shift, map_map.
  apply map_ext. intros k. lia.
Qed.

Lemma scanFrom_find (duration : Z) (n : nat) :
  forall time,
    (forall k, (k < n)%nat ->
               time + 15 * Z.of_nat k <= workEndMins - duration) ->
    scanFrom n committed duration time
    = Ok (option_map clock (find (free committed duration) (startsFrom time n))).
Proof.
  induction n as [|n IH]; intros time Hin; [reflexivity|].
  rewrite startsFrom_S. cbn [scanFrom find].
  assert (H0 : time <= workEndMins - duration)
    by (pose proof (Hin O ltac:(lia)) as H; lia).
  apply Z.leb_le in H0. rewrite H0.
  rewrite (some_occupies _ _ _ committed_started). cbn [bind].
  unfold free at 1.
  destruct (overlapsAny (Int time, Int (time + duration)) committed);
    cbn [negb]; [|reflexivity].
  apply IH. intros k Hk. pose proof (Hin (S k) ltac:(lia)). lia.
Qed.



Lemma scanSteps_inside (duration : Z) (k : nat) :
  (k < scanSteps duration)%nat ->
  workStartMins + 15 * Z.of_nat k <= workEndMins - duration.
Proof.
  unfold scanSteps, workStartMins, workEndMins. intros Hk.
  set (q := (20 * 60 - duration - 8 * 60) / 15) in *.
  assert (Hq : 0 <= q + 1) by lia.
  assert (Z.of_nat k <= q) by lia.
  pose proof (Z.mul_div_le (20 * 60 - duration - 8 * 60) 15).
  fold q in H0. lia.
Qed.

Lemma scanSteps_outside (duration : Z) :
  workStartMins + 15 * Z.of_nat (scanSteps duration)
  > workEndMins - duration.
Proof.
  unfold scanSteps, workStartMins, workEndMins.
  set (x := 20 * 60 - duration - 8 * 60).
  pose proof (Z.div_mod x 15) as Hd.
  pose proof (Z.mod_pos_bound x 15) as Hm.
  destruct (Z_le_gt_dec 0 (x / 15 + 1)) as [Hq|Hq].
  - rewrite Z2Nat.id by lia. lia.
  - assert (Z.to_nat (x / 15 + 1) = O) as -> by lia. lia.
Qed.

(** The loop is the search for the first free candidate start. *)
Lemma slotScan_firstFree (duration : Z) :
  slotScan committed duration
  = Ok (option_map clock (firstFree committed duration)).
Proof.
  unfold slotScan. rewrite scanFrom_find.
  - reflexivity.
  - intros k Hk. now apply scanSteps_inside.
Qed.

Lemma placeTask_placement (task : Task) :
  placeTask committed task = Ok (placement committed task).
Proof.
  unfold placeTask, tryPreferred, placement.
  destruct (preferredTime task) as [p|];
    [|cbn [bind]; apply slotScan_firstFree].
  destruct (truthy (Some p)); cbn [andb bind];
    [|apply slotScan_firstFree].
  rewrite (some_occupies _ _ _ committed_started). cbn [bind].
  unfold insideWindow, slot. cbn [fst snd].
  destruct (overlapsAny _ committed); cbn [negb andb].
  - rewrite andb_false_r. cbn [bind]. apply slotScan_firstFree.
  - rewrite andb_true_r.
    destruct (ge _ _ && le _ _); cbn [bind];
      [reflexivity | apply slotScan_firstFree].
Qed.

End Placement.

Section Candidates.

(** The candidate starts are the 15-minute steps from [workStart] that
    leave room for the task before [workEnd]. *)
Lemma candidates_spec (duration t : Z) :
  In t (candidates duration) <->
  workStartMins <= t <= workEndMins - duration
  /\ (t - workStartMins) mod 15 = 0.
Proof.
  unfold candidates, candidateStarts. rewrite in_map_iff. split.
  - intros (k & <- & Hk). apply in_seq in Hk.
    pose proof (scanSteps_inside duration k ltac:(lia)).
    split; [lia|].
    replace (workStartMins + 15 * Z.of_nat k - workStartMins)
      with (Z.of_nat k * 15) by lia.
    apply Z.mod_mul. lia.
  - intros [[Hlo Hhi] Hmod].
    exists (Z.to_nat ((t - workStartMins) / 15)).
    pose proof (Z.div_mod (t - workStartMins) 15 ltac:(lia)) as Hd.
    assert (Hq : 0 <= (t - workStartMins) / 15)
      by (apply Z.div_pos; lia).
    split; [rewrite Z2Nat.id by lia; lia|].
    apply in_seq. split; [lia|]. simpl.
    pose proof (scanSteps_outside duration) as Hout.
    apply Nat2Z.inj_lt. rewrite Z2Nat.id by lia. lia.
Qed.

Lemma candidates_from_workStart (duration t : Z) :
  In t (candidates duration) -> 0 <= t.
Proof.
  intros H. apply candidates_spec in H. unfold workStartMins in H. lia.
Qed.

(** What [placement] returns: the preferred time, or the clock of the
    first free candidate. *)
Lemma firstFree_free (committed : list Task) (duration t : Z) :
  firstFree committed duration = Some t ->
  In t (candidates duration)
  /\ overlapsAny (Int t, Int (t + duration)) committed = false.
Proof.
  unfold firstFree. intros H. apply find_some in H.
  destruct H as [Hin Hf]. split; [exact Hin|].
  now apply negb_true_iff in Hf.
Qed.

(** The slot a placed task takes is free of the committed set. *)
Lemma placement_free (committed : list Task) (task : Task) (s : string) :
  placement committed task = Some s ->
  overlapsAny (slot s (durationOf task)) committed = false
  /\ truthy (Some s) = true.
Proof.
  unfold placement.
  assert (Hscan : option_map clock
                    (firstFree committed (durationOf task)) = Some s ->
          overlapsAny (slot s (durationOf task)) committed = false
          /\ truthy (Some s) = true).
  { destruct (firstFree committed (durationOf task)) as [t|] eqn:E;
      [|discriminate].
    intros [= <-]. apply firstFree_free in E. destruct E as [Hin Hfree].
    rewrite slot_clock by (eapply candidates_from_workStart; eassumption).
    split; [exact Hfree | apply format_time_truthy]. }
  destruct (preferredTime task) as [p|]; [|exact Hscan].
  destruct (truthy (Some p)) eqn:Et; simpl; [|exact Hscan].
  destruct (insideWindow _); simpl; [|exact Hscan].
  destruct (overlapsAny (slot p _) committed) eqn:Eo; simpl;
    [exact Hscan|].
  intros [= <-]. split; assumption.
Qed.

End Candidates.

(* ================================================================== *)
(** ** The store: [updateTask] *)
(* ================================================================== *)

Section Store.

Lemma merge_startAt (t : Task) (s : string) :
  merge t (startAt s) = withStart t s.
Proof. reflexivity. Qed.

Lemma merge_durationTo (t : Task) (d : Z) :
  merge t (durationTo d) = withDuration t d.
Proof. reflexivity. Qed.

Lemma merge_id (t : Task) (u : Updates) : id (merge t u) = id t.
Proof. reflexivity. Qed.

(** [updateTask] rewrites the first record that carries the id. *)
Lemma updateTask_cons (i : string) (u : Updates) (t : Task)
      (r : list Task) :
  updateTask i u (t :: r)
  = if String.eqb (id t) i then merge t u :: r
    else t :: updateTask i u r.
Proof.
  unfold updateTask. cbn [findIndex].
  destruct (String.eqb (id t) i); [reflexivity|].
  destruct (findIndex i r) as [k|] eqn:E; cbn [option_map nth_error];
    [|reflexivity].
  destruct (nth_error r k); reflexivity.
Qed.

Lemma updateTask_nil (i : string) (u : Updates) : updateTask i u [] = [].
Proof. reflexivity. Qed.

Lemma updateTask_ids (i : string) (u : Updates) (l : list Task) :
  map id (updateTask i u l) = map id l.
Proof.
  induction l as [|t r IH]; [reflexivity|].
  rewrite updateTask_cons.
  destruct (String.eqb (id t) i); cbn [map]; [reflexivity|].
  now rewrite IH.
Qed.

Lemma updateTask_absent (i : string) (u : Updates) (l : list Task) :
  ~ In i (map id l) -> updateTask i u l = l.
Proof.
  induction l as [|t r IH]; intros H; [reflexivity|].
  rewrite updateTask_cons. cbn [map In] in H.
  destruct (String.eqb_spec (id t) i) as [E|E]; [tauto|].
  rewrite IH by tauto. reflexivity.
Qed.

(** With unique ids, [updateTask] rewrites every record of that id,
    that is, the one there is. *)
Lemma updateTask_map (i : string) (u : Updates) (l : list Task) :
  NoDup (map id l) ->
  updateTask i u l
  = map (fun t => if String.eqb (id t) i then merge t u else t) l.
Proof.
  induction l as [|t r IH]; intros Hnd; [reflexivity|].
  rewrite updateTask_cons. cbn [map] in *.
  inversion Hnd as [|? ? Hnotin Hnd']; subst.
  destruct (String.eqb_spec (id t) i) as [E|E].
  - f_equal. rewrite <- IH by exact Hnd'.
    now rewrite updateTask_absent by (rewrite <- E; exact Hnotin).
  - now rewrite IH.
Qed.

Lemma unique_id (l : list Task) (a b : Task) :
  NoDup (map id l) -> In a l -> In b l -> id a = id b -> a = b.
Proof.
  induction l as [|t r IH]; intros Hnd Ha Hb E; [contradiction|].
  cbn [map] in Hnd. inversion Hnd as [|? ? Hnotin Hnd']; subst.
  destruct Ha as [<-|Ha], Hb as [<-|Hb].
  - reflexivity.
  - exfalso. apply Hnotin. rewrite E. now apply in_map.
  - exfalso. apply Hnotin. rewrite <- E. now apply in_map.
  - now apply IH.
Qed.

(** Two positions of a store with unique ids hold different ids. *)
Lemma distinct_positions (l : list Task) (i j : nat) (a b : Task) :
  NoDup (map id l) -> i <> j ->
  nth_error l i = Some a -> nth_error l j = Some b -> id a <> id b.
Proof.
  intros Hnd Hij Ha Hb E.
  apply Hij.
  apply (proj1 (NoDup_nth_error (map id l)) Hnd).
  - rewrite length_map. apply nth_error_Some. congruence.
  - rewrite !nth_error_map, Ha, Hb. cbn. now rewrite E.
Qed.

Lemma Forall2_map_r {A B C : Type} (P : A -> B -> Prop)
      (Q : A -> C -> Prop) (f : B -> C) (l : list A) (l' : list B) :
  Forall2 P l l' ->
  (forall a b, In a l -> In b l' -> P a b -> Q a (f b)) ->
  Forall2 Q l (map f l').
Proof.
  induction 1 as [|a b l l' Hab _ IH]; intros H; cbn [map];
    constructor.
  - apply H; [now left | now left | exact Hab].
  - apply IH. intros a' b' Ha' Hb'. apply H; now right.
Qed.

Lemma Forall2_same {A : Type} (P : A -> A -> Prop) (l : list A) :
  (forall a, P a a) -> Forall2 P l l.
Proof.
  intros H. induction l; constructor; auto.
Qed.

Lemma Forall2_ids (P : Task -> Task -> Prop) (l l' : list Task) :
  Forall2 P l l' -> (forall a b, P a b -> id b = id a) ->
  map id l' = map id l.
Proof.
  induction 1 as [|a b l l' Hab _ IH]; intros H; cbn [map];
    [reflexivity|].
  rewrite (H _ _ Hab), IH by exact H. reflexivity.
Qed.

Lemma Forall2_In_l {A B : Type} (P : A -> B -> Prop) (l : list A)
      (l' : list B) (a : A) :
  Forall2 P l l' -> In a l -> exists b, In b l' /\ P a b.
Proof.
  induction 1 as [|x y l l' Hxy _ IH]; intros Ha; [contradiction|].
  destruct Ha as [<-|Ha].
  - exists y. split; [now left | exact Hxy].
  - destruct (IH Ha) as (b & Hb & Hab). exists b. split; [now right|auto].
Qed.

Lemma Forall2_In_r {A B : Type} (P : A -> B -> Prop) (l : list A)
      (l' : list B) (b : B) :
  Forall2 P l l' -> In b l' -> exists a, In a l /\ P a b.
Proof.
  induction 1 as [|x y l l' Hxy _ IH]; intros Hb; [contradiction|].
  destruct Hb as [<-|Hb].
  - exists x. split; [now left | exact Hxy].
  - destruct (IH Hb) as (a & Ha & Hab). exists a. split; [now right|auto].
Qed.

End Store.

(* ================================================================== *)
(** ** One step of the placement loop *)
(* ================================================================== *)

Section Step.

Lemma withStart_hasStart (t : Task) (s : string) : hasStart (withStart t s).
Proof. unfold hasStart. cbn. congruence. Qed.

Lemma interval_withStart (t : Task) (s : string) :
  interval (withStart t s) = slot s (durationOf t).
Proof. reflexivity. Qed.

(** The body of the loop: the task is placed where [placement] says,
    the store is updated by id and the committed set grows by the
    placed task. *)
Lemma scheduleOne_step (st : Loop) (task : Task) :
  Forall hasStart (scheduled st) ->
  exists st',
    scheduleOne st task = Ok st'
    /\ match placement (scheduled st) task with
       | Some s =>
           store st' = updateTask (id task) (startAt s) (store st)
           /\ Permutation (withStart task s :: scheduled st) (scheduled st')
           /\ scheduledCount st' = scheduledCount st + 1
       | None => st' = st
       end.
Proof.
  intros Hst. unfold scheduleOne.
  rewrite (placeTask_placement _ Hst). cbn [bind].
  destruct (placement (scheduled st) task) as [s|]; [|eauto].
  rewrite merge_startAt.
  assert (Hall : Forall hasStart (scheduled st ++ [withStart task s])).
  { apply Forall_app. split; [exact Hst|].
    constructor; [apply withStart_hasStart | constructor]. }
  destruct (sortM_byClock _ Hall) as (l' & -> & Hp). cbn [bind].
  eexists. split; [reflexivity|]. cbn. repeat split.
  rewrite <- Hp. apply Permutation_cons_append.
Qed.

Lemma scheduleOne_started (st st' : Loop) (task : Task) :
  Forall hasStart (scheduled st) ->
  scheduleOne st task = Ok st' ->
  Forall hasStart (scheduled st').
Proof.
  intros Hst Hrun.
  destruct (scheduleOne_step st task Hst) as (st1 & Hrun1 & Hres).
  rewrite Hrun in Hrun1. injection Hrun1 as <-.
  destruct (placement (scheduled st) task) as [s|]; [|now subst].
  destruct Hres as (_ & Hp & _).
  eapply Permutation_Forall; [exact Hp|].
  constructor; [apply withStart_hasStart | exact Hst].
Qed.

(** The loop runs to its end. *)
Lemma forEach_scheduleOne_ok (l : list Task) :
  forall st, Forall hasStart (scheduled st) ->
             exists st', forEach scheduleOne l st = Ok st'.
Proof.
  induction l as [|x r IH]; intros st Hst; cbn [forEach]; [eauto|].
  destruct (scheduleOne_step st x Hst) as (st1 & Hrun & _).
  rewrite Hrun. cbn [bind]. apply IH.
  eapply scheduleOne_started; eassumption.
Qed.

(** Loop invariants: [P todo st] holds of the tasks still to place and
    the loop state. *)
Lemma forEach_invariant (P : list Task -> Loop -> Prop) :
  (forall x r st st',
      P (x :: r) st -> scheduleOne st x = Ok st' -> P r st') ->
  forall l st st',
    P l st -> forEach scheduleOne l st = Ok st' -> P [] st'.
Proof.
  intros Hstep. induction l as [|x r IH]; intros st st' HP Hrun.
  - cbn in Hrun. now injection Hrun as <-.
  - cbn [forEach] in Hrun.
    destruct (scheduleOne st x) as [st1|] eqn:E; [|discriminate].
    cbn [bind] in Hrun. eapply IH; [|exact Hrun].
    eapply Hstep; eassumption.
Qed.

(** [autoScheduleTasks] as one loop over the placement order. *)
Lemma autoScheduleTasks_run (tasks tasks' : list Task) (toast : AutoToast) :
  autoScheduleTasks tasks = Ok (tasks', toast) ->
  (unscheduledOf tasks = [] /\ tasks' = tasks)
  \/ exists scheduled0 st',
      Permutation (scheduledOf tasks) scheduled0
      /\ forEach scheduleOne (sortedUnscheduled (unscheduledOf tasks))
                 (mkLoop tasks scheduled0 0) = Ok st'
      /\ tasks' = store st'.
Proof.
  unfold autoScheduleTasks. intros Hrun.
  destruct (unscheduledOf tasks) as [|u us] eqn:Eu.
  - left. split; [reflexivity|]. now injection Hrun as <- _.
  - right.
    destruct (sortM_byClock _ (scheduledOf_hasStart tasks))
      as (l0 & Hl0 & Hp).
    rewrite Hl0 in Hrun. cbn [bind] in Hrun.
    destruct (forEach _ _ _) as [st'|] eqn:Ef; [|discriminate].
    cbn [bind] in Hrun. exists l0, st'. split; [exact Hp|].
    split; [exact Ef|].
    destruct (scheduledCount st' >? 0); now injection Hrun as <- _.
Qed.

(** [autoScheduleTasks] never throws. *)
Lemma autoScheduleTasks_ok (tasks : list Task) :
  exists tasks' toast, autoScheduleTasks tasks = Ok (tasks', toast).
Proof.
  unfold autoScheduleTasks.
  destruct (unscheduledOf tasks) as [|u us]; [eauto|].
  destruct (sortM_byClock _ (scheduledOf_hasStart tasks))
    as (l0 & -> & Hp). cbn [bind].
  assert (H0 : Forall hasStart (scheduled (mkLoop tasks l0 0))).
  { cbn. eapply Permutation_Forall; [exact Hp|].
    apply scheduledOf_hasStart. }
  destruct (forEach_scheduleOne_ok (sortedUnscheduled (u :: us)) _ H0)
    as (st' & ->). cbn [bind].
  destruct (scheduledCount st' >? 0); eauto.
Qed.

End Step.

(* ================================================================== *)
(** ** A run of auto-schedule on a store with unique ids *)
(* ================================================================== *)


Section Run.

Variable today : string.
Variable tasks0 : list Task.
Hypothesis unique_ids : NoDup (map id tasks0).


Lemma placedOrSame_id (todo : list Task) (a b : Task) :
  placedOrSame todo a b -> id b = id a.
Proof.
  intros [->|(s & -> & _)]; reflexivity.
Qed.

Lemma scheduledToday_committed (t : Task) :
  scheduledToday today t = true -> isCommitted t = true.
Proof.
  unfold scheduledToday, isCommitted, isActive, isScheduled.
  intros H. apply andb_true_iff in H. destruct H as [H _].
  now rewrite andb_comm.
Qed.

Lemma Inv_ids (todo : list Task) (st : Loop) :
  Inv today tasks0 todo st -> NoDup (map id (store st)).
Proof.
  intros H.
  rewrite (Forall2_ids _ _ _ (inv_frame H) (placedOrSame_id todo)).
  exact unique_ids.
Qed.

(** A task still to place is in the store as it was. *)
Lemma Inv_pending (todo : list Task) (st : Loop) (x : Task) :
  Inv today tasks0 todo st -> In x todo -> In x (store st).
Proof.
  intros H Hx.
  destruct (Forall2_In_l _ _ _ x (inv_frame H) (inv_todo H _ Hx))
    as (b & Hb & [->|(s & _ & _ & Hnot)]); [exact Hb|].
  exfalso. apply Hnot. now apply in_map.
Qed.

Lemma Inv_skip (x : Task) (r : list Task) (st : Loop) :
  Inv today tasks0 (x :: r) st -> Inv today tasks0 r st.
Proof.
  intros [Hf Ht Hn Hs Hc Hu Hd]. constructor; auto.
  - eapply Forall2_impl; [|exact Hf].
    intros a b [->|(s & -> & Hua & Hnot)]; [now left|].
    right. exists s. repeat split; auto.
    intros Hin. apply Hnot. now right.
  - intros t Hin. apply Ht. now right.
  - cbn [map] in Hn. now inversion Hn.
  - now inversion Hu.
Qed.

Lemma Inv_step (x : Task) (r : list Task) (st st' : Loop) :
  Inv today tasks0 (x :: r) st -> scheduleOne st x = Ok st' -> Inv today tasks0 r st'.
Proof.
  intros HI Hrun.
  assert (Hux : isUnscheduled x = true)
    by (pose proof (inv_pending HI) as H; now inversion H).
  destruct (scheduleOne_step st x (inv_started HI))
    as (st1 & Hrun1 & Hres).
  rewrite Hrun in Hrun1. injection Hrun1 as <-.
  destruct (placement (scheduled st) x) as [s|] eqn:Ep;
    [|subst st'; now apply (Inv_skip x)].
  destruct Hres as (Hstore & Hperm & _).
  destruct (placement_free _ _ _ Ep) as [Hfree _].
  pose proof (Inv_ids _ _ HI) as Hids.
  pose proof (Inv_pending _ _ x HI (or_introl eq_refl)) as Hxin.
  rewrite (updateTask_map _ _ _ Hids) in Hstore.
  set (f := fun t : Task =>
              if String.eqb (id t) (id x) then merge t (startAt s) else t)
    in Hstore.
  assert (Hf_id : forall t, id (f t) = id t)
    by (intros t; unfold f; destruct (String.eqb (id t) (id x));
        reflexivity).
  assert (Hf_x : forall t, In t (store st) -> id t = id x ->
                           f t = withStart x s).
  { intros t Ht E.
    rewrite (unique_id _ _ _ Hids Ht Hxin E).
    unfold f. now rewrite String.eqb_refl. }
  assert (Hf_other : forall t, id t <> id x -> f t = t).
  { intros t E. unfold f.
    destruct (String.eqb_spec (id t) (id x)); [contradiction|reflexivity]. }
  assert (Hnew : forall b, In b (store st) ->
                 scheduledToday today b = true ->
                 overlaps (slot s (durationOf x)) (interval b) = false).
  { intros b Hb Hsb.
    apply (overlapsAny_false _ _ Hfree).
    apply (inv_committed HI); [exact Hb|].
    now apply scheduledToday_committed. }
  destruct HI as [Hf Ht Hn Hs Hc Hu Hd].
  cbn [map] in Hn. inversion Hn as [|? ? Hxr Hnr]; subst.
  constructor.
  - rewrite Hstore. eapply Forall2_map_r; [exact Hf|].
    intros a b Ha Hb Hab.
    destruct (String.eqb_spec (id b) (id x)) as [E|E].
    + rewrite (Hf_x b Hb E).
      assert (a = x) as ->.
      { apply (unique_id tasks0); auto.
        - apply Ht. now left.
        - rewrite <- E. symmetry. eapply placedOrSame_id; eassumption. }
      right. exists s. repeat split; auto.
    + rewrite (Hf_other b E).
      destruct Hab as [->|(s' & -> & Hua & Hnot)]; [now left|].
      right. exists s'. repeat split; auto.
      intros Hin. apply Hnot. now right.
  - intros t Hin. apply Ht. now right.
  - exact Hnr.
  - eapply Permutation_Forall; [exact Hperm|].
    constructor; [apply withStart_hasStart | exact Hs].
  - rewrite Hstore. intros t Hin Hct.
    apply in_map_iff in Hin. destruct Hin as (b & <- & Hb).
    eapply Permutation_in; [exact Hperm|].
    destruct (String.eqb_spec (id b) (id x)) as [E|E].
    + rewrite (Hf_x b Hb E). now left.
    + rewrite (Hf_other b E) in *. right. now apply Hc.
  - now inversion Hu.
  - intros Hd0. specialize (Hd Hd0).
    rewrite Hstore. intros a b Ha Hb Hab Hsa Hsb.
    apply in_map_iff in Ha. destruct Ha as (a0 & <- & Ha0).
    apply in_map_iff in Hb. destruct Hb as (b0 & <- & Hb0).
    rewrite !Hf_id in Hab.
    destruct (String.eqb_spec (id a0) (id x)) as [Ea|Ea];
      destruct (String.eqb_spec (id b0) (id x)) as [Eb|Eb].
    + congruence.
    + rewrite (Hf_x a0 Ha0 Ea), (Hf_other b0 Eb) in *.
      rewrite interval_withStart. now apply Hnew.
    + rewrite (Hf_x b0 Hb0 Eb), (Hf_other a0 Ea) in *.
      rewrite interval_withStart, overlaps_sym. now apply Hnew.
    + rewrite (Hf_other a0 Ea), (Hf_other b0 Eb) in *. now apply Hd.
Qed.

Lemma filter_split {A : Type} (p : A -> bool) (l : list A) :
  Permutation (filter p l ++ filter (fun a => negb (p a)) l) l.
Proof.
  induction l as [|a l IH]; [reflexivity|].
  cbn [filter]. destruct (p a); cbn [negb app].
  - now constructor.
  - rewrite <- Permutation_middle. now constructor.
Qed.

Lemma sortedUnscheduled_Permutation (u : list Task) :
  Permutation (sortedUnscheduled u) u.
Proof.
  unfold sortedUnscheduled.
  rewrite <- (filter_split (fun t => truthy (preferredTime t)) u) at 3.
  apply Permutation_app_head. symmetry. apply sort_Permutation.
Qed.

Lemma NoDup_map_filter {A B : Type} (g : A -> B) (p : A -> bool)
      (l : list A) :
  NoDup (map g l) -> NoDup (map g (filter p l)).
Proof.
  induction l as [|a l IH]; intros H; [constructor|].
  cbn [map] in H. inversion H as [|? ? Hnot Hnd]; subst.
  cbn [filter]. destruct (p a); [|now apply IH].
  cbn [map]. constructor; [|now apply IH].
  intros Hin. apply Hnot.
  apply in_map_iff in Hin. destruct Hin as (b & <- & Hb).
  apply in_map. now apply filter_In in Hb.
Qed.

(** The invariant holds when the loop starts. *)
Lemma Inv_start (scheduled0 : list Task) :
  Permutation (scheduledOf tasks0) scheduled0 ->
  Inv today tasks0 (sortedUnscheduled (unscheduledOf tasks0))
      (mkLoop tasks0 scheduled0 0).
Proof.
  intros Hp.
  pose proof (sortedUnscheduled_Permutation (unscheduledOf tasks0)) as Hs.
  constructor; cbn [store scheduled].
  - apply Forall2_same. intros a. now left.
  - intros t Hin. eapply Permutation_in in Hin; [|exact Hs].
    now apply filter_In in Hin.
  - eapply Permutation_NoDup;
      [symmetry; apply Permutation_map; exact Hs|].
    now apply NoDup_map_filter.
  - eapply Permutation_Forall; [exact Hp | apply scheduledOf_hasStart].
  - intros t Hin Hc. eapply Permutation_in; [exact Hp|].
    apply filter_In. split; assumption.
  - apply Forall_forall. intros t Hin.
    eapply Permutation_in in Hin; [|exact Hs].
    now apply filter_In in Hin.
  - auto.
Qed.

(** What a whole run does to the store. *)
Lemma run_facts (tasks' : list Task) (toast : AutoToast) :
  autoScheduleTasks tasks0 = Ok (tasks', toast) ->
  Forall2 (placedOrSame []) tasks0 tasks'
  /\ (disjointById today tasks0 -> disjointById today tasks').
Proof.
  intros Hrun. apply autoScheduleTasks_run in Hrun.
  destruct Hrun as [[_ ->]|(l0 & st' & Hp & Hloop & ->)].
  - split; [|auto]. apply Forall2_same. intros a. now left.
  - pose proof (forEach_invariant (Inv today tasks0) Inv_step _ _ _
                  (Inv_start l0 Hp) Hloop) as HI.
    split; [apply (inv_frame HI) | apply (inv_disjoint HI)].
Qed.

End Run.

Section Positions.

Lemma disjointToday_byId (today : string) (tasks : list Task) :
  disjointToday today tasks -> disjointById today tasks.
Proof.
  intros H a b Ha Hb Hab Hsa Hsb.
  apply In_nth_error in Ha. destruct Ha as [i Hi].
  apply In_nth_error in Hb. destruct Hb as [j Hj].
  apply (H i j); auto. intros ->. congruence.
Qed.

Lemma disjointById_today (today : string) (tasks : list Task) :
  NoDup (map id tasks) ->
  disjointById today tasks -> disjointToday today tasks.
Proof.
  intros Hnd H i j a b Hij Hi Hj Hsa Hsb.
  apply H; auto.
  - eapply nth_error_In; eassumption.
  - eapply nth_error_In; eassumption.
  - eapply distinct_positions; eassumption.
Qed.

End Positions.

(* ================================================================== *)
(** ** The code against the algorithms of the design document *)
(* ================================================================== *)

Section Bridge.

Lemma digit_spec (c : ascii) (v : Z) :
  Design.digit c = Some v ->
  In (c, v) [("0", 0); ("1", 1); ("2", 2); ("3", 3); ("4", 4); ("5", 5);
             ("6", 6); ("7", 7); ("8", 8); ("9", 9)]%char.
Proof.
  intros H.
  destruct c as [[|] [|] [|] [|] [|] [|] [|] [|]]; vm_compute in H;
    try discriminate; injection H as <-; cbn; tauto.
Qed.

Lemma digit_colon (c : ascii) (v : Z) :
  Design.digit c = Some v -> Ascii.eqb c ":"%char = false.
Proof.
  intros H. apply digit_spec in H. cbn [In] in H.
  repeat (destruct H as [H|H]; [injection H as <- _; reflexivity|]).
  contradiction.
Qed.

Lemma Number_two (a b : ascii) (x y : Z) :
  Design.digit a = Some x -> Design.digit b = Some y ->
  Number (String a (String b EmptyString)) = Int (10 * x + y)
  /\ exact (String a (String b EmptyString)) = true.
Proof.
  intros Ha Hb. apply digit_spec in Ha, Hb. cbn [In] in Ha, Hb.
  repeat (destruct Ha as [Ha|Ha]; [injection Ha as <- <-|]);
    try contradiction;
    repeat (destruct Hb as [Hb|Hb];
            [injection Hb as <- <-; split; vm_compute; reflexivity|]);
    contradiction.
Qed.

(** An [HH:MM] string is read by the code as its hour and minute. *)
Lemma hour_minute_hhmm (s : string) (hm : Z * Z) :
  Design.hhmm s = Some hm ->
  hour_minute s = (Int (fst hm), Int (snd hm))
  /\ truthy (Some s) = true
  /\ exact_clock s = true.
Proof.
  intros H. unfold Design.hhmm in H.
  destruct s as [|h1 [|h2 [|c [|m1 [|m2 [|x r]]]]]];
    try discriminate H;
    (destruct (Ascii.eqb_spec c ":"%char) as [->|Hc];
     [|destruct c as [[|] [|] [|] [|] [|] [|] [|] [|]];
       try discriminate H; congruence]);
    try discriminate H.
  revert H.
  destruct (Design.digit h1) as [a|] eqn:E1; [|discriminate].
  destruct (Design.digit h2) as [b|] eqn:E2; [|discriminate].
  destruct (Design.digit m1) as [c|] eqn:E3; [|discriminate].
  destruct (Design.digit m2) as [d|] eqn:E4; [|discriminate].
  intros H. injection H as <-. cbn [fst snd].
  destruct (Number_two h1 h2 a b E1 E2) as [N1 X1].
  destruct (Number_two m1 m2 c d E3 E4) as [N2 X2].
  assert (Es : split_colon
                 (String h1 (String h2 (String ":" (String m1
                    (String m2 EmptyString)))))
               = [String h1 (String h2 EmptyString);
                  String m1 (String m2 EmptyString)]).
  { cbn [split_colon].
    rewrite (digit_colon _ _ E1), (digit_colon _ _ E2),
            (digit_colon _ _ E3), (digit_colon _ _ E4).
    reflexivity. }
  split; [|split].
  - unfold hour_minute. rewrite Es. cbn [first_two]. now rewrite N1, N2.
  - reflexivity.
  - unfold exact_clock. rewrite Es. now rewrite X1, X2.
Qed.

Lemma timed_parts (t : Task) :
  Design.timed t = true ->
  (forall s, plannedStartTime t = Some s ->
             exists hm, Design.hhmm s = Some hm)
  /\ (forall p, preferredTime t = Some p ->
                exists hm, Design.hhmm p = Some hm)
  /\ (forall d, plannedDuration t = Some d -> 0 < d).
Proof.
  unfold Design.timed. intros H.
  apply andb_true_iff in H. destruct H as [H H3].
  apply andb_true_iff in H. destruct H as [H1 H2].
  split; [|split].
  - intros s E. rewrite E in H1.
    destruct (Design.hhmm s); [eauto | discriminate].
  - intros p E. rewrite E in H2.
    destruct (Design.hhmm p); [eauto | discriminate].
  - intros d E. rewrite E in H3. now apply Z.ltb_lt.
Qed.

Lemma durationOf_duration (t : Task) :
  Design.timed t = true -> durationOf t = Design.duration t.
Proof.
  intros H. destruct (timed_parts t H) as (_ & _ & Hd).
  unfold durationOf, Design.duration.
  destruct (plannedDuration t) as [d|]; [|reflexivity].
  specialize (Hd d eq_refl). apply num_or_Int_nonzero. lia.
Qed.
















End Bridge.

Section Refinement.









Lemma truthy_present (s : string) (hm : Z * Z) :
  Design.hhmm s = Some hm -> truthy (Some s) = true.
Proof. intros H. now destruct (hour_minute_hhmm s hm H) as (_ & E & _). Qed.


Lemma truthy_hasPreference (t : Task) :
  Design.timed t = true ->
  truthy (preferredTime t) = Design.hasPreference t.
Proof.
  intros H. destruct (timed_parts t H) as (_ & Hp & _).
  unfold Design.hasPreference, Design.present.
  destruct (preferredTime t) as [s|]; [|reflexivity].
  destruct (Hp s eq_refl) as [hm Hhm]. eapply truthy_present; eassumption.
Qed.





End Refinement.

Section Order.

Lemma wellFormed_parts (t : Task) :
  Design.wellFormed t = true ->
  Design.timed t = true
  /\ priorityOrder (priority t) = Known (Design.rankOf t).
Proof.
  unfold Design.wellFormed. intros H. apply andb_true_iff in H.
  destruct H as [Ht Hr]. split; [exact Ht|].
  unfold Design.rankOf, priorityOrder. unfold Design.rank in *.
  destruct (String.eqb (priority t) "high"); [reflexivity|].
  destruct (String.eqb (priority t) "medium"); [reflexivity|].
  destruct (String.eqb (priority t) "low"); [reflexivity|].
  discriminate Hr.
Qed.

(** On records of the data model the comparator of the code is the
    comparison by rank, then by duration. *)
Lemma sortFn_wellFormed (a b : Task) :
  Design.wellFormed a = true -> Design.wellFormed b = true ->
  sign_of (sortFn a b)
  = if Design.rankOf a =? Design.rankOf b
    then Design.duration b - Design.duration a
    else Design.rankOf b - Design.rankOf a.
Proof.
  intros Ha Hb.
  destruct (wellFormed_parts a Ha) as [Hta Hra].
  destruct (wellFormed_parts b Hb) as [Htb Hrb].
  unfold sortFn. rewrite Hra, Hrb. cbn [differ minus].
  rewrite (durationOf_duration a Hta), (durationOf_duration b Htb).
  destruct (Design.rankOf a =? Design.rankOf b); reflexivity.
Qed.

Lemma precedes_trans (x y z : Task) :
  Design.precedes x y -> Design.precedes y z -> Design.precedes x z.
Proof. unfold Design.precedes. lia. Qed.

Lemma tied_refl (a : Task) : Design.tied a a = true.
Proof. unfold Design.tied. now rewrite !Z.eqb_refl. Qed.

Lemma precedes_tied (x y : Task) :
  Design.precedes x y -> Design.precedes y x -> Design.tied x y = true.
Proof.
  unfold Design.precedes, Design.tied. intros H1 H2.
  apply andb_true_iff. split; apply Z.eqb_eq; lia.
Qed.

(** The order the code computes follows the ordering policy. *)
Lemma sortedUnscheduled_placementOrder (l : list Task) :
  Forall (fun t => Design.wellFormed t = true) l ->
  Design.placementOrder l (sortedUnscheduled l).
Proof.
  intros Hwf. rewrite Forall_forall in Hwf.
  assert (E1 : filter (fun t => truthy (preferredTime t)) l
               = filter Design.hasPreference l).
  { apply filter_ext_in. intros t Ht.
    apply truthy_hasPreference. now apply wellFormed_parts, Hwf. }
  assert (E2 : filter (fun t => negb (truthy (preferredTime t))) l
               = filter (fun t => negb (Design.hasPreference t)) l).
  { apply filter_ext_in. intros t Ht. f_equal.
    apply truthy_hasPreference. now apply wellFormed_parts, Hwf. }
  unfold Design.placementOrder, sortedUnscheduled. rewrite E1, E2.
  set (rest := filter (fun t => negb (Design.hasPreference t)) l).
  set (cmp := fun a b : Task =>
                if Design.rankOf a =? Design.rankOf b
                then Design.duration b - Design.duration a
                else Design.rankOf b - Design.rankOf a).
  assert (Es : sort (fun a b => sign_of (sortFn a b)) rest = sort cmp rest).
  { apply sort_ext_in. intros a b Ha Hb.
    apply sortFn_wellFormed; apply Hwf;
      [apply filter_In in Ha | apply filter_In in Hb]; tauto. }
  rewrite Es. exists (sort cmp rest).
  split; [reflexivity|]. split; [apply sort_Permutation|]. split.
  - apply sort_sorted.
    + intros x y. unfold cmp, Design.precedes.
      destruct (Z.eqb_spec (Design.rankOf x) (Design.rankOf y)); lia.
    + intros x y. unfold cmp, Design.precedes.
      destruct (Z.eqb_spec (Design.rankOf x) (Design.rankOf y)); lia.
    + apply precedes_trans.
  - intros a. apply sort_stable. intros x y Hx Hy.
    unfold Design.tied in Hx, Hy.
    apply andb_true_iff in Hx, Hy.
    destruct Hx as [Hx1 Hx2], Hy as [Hy1 Hy2].
    apply Z.eqb_eq in Hx1, Hx2, Hy1, Hy2. unfold cmp.
    destruct (Z.eqb_spec (Design.rankOf x) (Design.rankOf y)); lia.
Qed.

(** A sorted list is determined by its elements and the order of the
    tied ones. *)
Lemma sorted_unique (s1 : list Task) :
  forall s2,
    Permutation s1 s2 ->
    StronglySorted Design.precedes s1 ->
    StronglySorted Design.precedes s2 ->
    (forall a, filter (Design.tied a) s1 = filter (Design.tied a) s2) ->
    s1 = s2.
Proof.
  induction s1 as [|x r1 IH]; intros s2 Hp H1 H2 Hst.
  - apply Permutation_nil in Hp. now subst.
  - destruct s2 as [|y r2];
      [apply Permutation_sym, Permutation_nil in Hp; discriminate|].
    inversion H1 as [|? ? Hr1 Hx]; subst.
    inversion H2 as [|? ? Hr2 Hy]; subst.
    rewrite Forall_forall in Hx, Hy.
    assert (Hxy : x = y).
    { destruct (Permutation_in x Hp (or_introl eq_refl)) as [E|Hin];
        [now subst|].
      destruct (Permutation_in y (Permutation_sym Hp) (or_introl eq_refl))
        as [E|Hin']; [now subst|].
      pose proof (precedes_tied x y (Hx y Hin') (Hy x Hin)) as Ht.
      specialize (Hst x). cbn [filter] in Hst.
      rewrite tied_refl, Ht in Hst. now injection Hst. }
    subst y. f_equal.
    apply IH; [eapply Permutation_cons_inv; eassumption | assumption..|].
    intros a. specialize (Hst a). cbn [filter] in Hst.
    destruct (Design.tied a x); [now injection Hst | exact Hst].
Qed.

(** The ordering policy leaves one order. *)
Lemma placementOrder_unique (l o1 o2 : list Task) :
  Design.placementOrder l o1 -> Design.placementOrder l o2 -> o1 = o2.
Proof.
  intros (s1 & -> & Hp1 & Hs1 & Ht1) (s2 & -> & Hp2 & Hs2 & Ht2).
  f_equal. apply sorted_unique; try assumption.
  - now rewrite <- Hp1.
  - intros a. now rewrite Ht1, Ht2.
Qed.



End Order.

(* ================================================================== *)
(** ** The properties of the scheduling engine *)
(* ================================================================== *)

(** C3. The placement order.  On unscheduled tasks that are records of
    the data model, the order [autoScheduleTasks] puts them in is the
    order of the ordering policy: the tasks with a preferred time first,
    in their original order, then the others by higher priority rank
    (high 3, medium 2, low 1), ties by longer [plannedDuration], tasks
    of equal priority and equal duration in their original order; and
    the policy admits no other order. *)
Theorem placement_order (unscheduled : list Task) :
  Forall (fun t => Design.wellFormed t = true) unscheduled ->
  Design.placementOrder unscheduled (sortedUnscheduled unscheduled)
  /\ forall order,
       Design.placementOrder unscheduled order ->
       order = sortedUnscheduled unscheduled.
Proof.
  intros Hwf.
  pose proof (sortedUnscheduled_placementOrder unscheduled Hwf) as H.
  split; [exact H|].
  intros order Ho. eapply placementOrder_unique; eassumption.
Qed.

(** Six tasks in order: the task with a preferred time, the three high
    ones with the hour first and the two half hours as they stood, the
    medium one, the low one. *)
Lemma placement_order_witness :
  Forall (fun t => Design.wellFormed t = true) Examples.backlog
  /\ Design.placementOrder Examples.backlog
       [ Examples.task "p" "low" None (Some "09:00") None (Some 30) false;
         Examples.task "h2" "high" None None None (Some 60) false;
         Examples.task "h1" "high" None None None (Some 30) false;
         Examples.task "h3" "high" None None None (Some 30) false;
         Examples.task "m" "medium" None None None (Some 45) false;
         Examples.task "l" "low" None None None (Some 30) false ].
Proof.
  assert (H : Forall (fun t => Design.wellFormed t = true) Examples.backlog)
    by (repeat constructor).
  split; [exact H|].
  exact (proj1 (placement_order Examples.backlog H)).
Defined.

(** C5. The overlap test of the engine is
    [aStart < bEnd && aEnd > bStart] on the derived interval of the
    committed task; it is symmetric, and an interval that ends at minute
    600 does not overlap one that starts at minute 600. *)
Theorem overlap_predicate :
  (forall (aStart aEnd : number) (s : Task),
      occupies aStart aEnd s
      = bind (split_time (plannedStartTime s)) (fun hm =>
          let bStart := toMinutes hm in
          let bEnd := add bStart (Int (durationOf s)) in
          Ok (lt aStart bEnd && gt aEnd bStart)))
  /\ (forall (aStart aEnd : number) (s : Task) (clock : string),
        plannedStartTime s = Some clock ->
        occupies aStart aEnd s
        = Ok (overlaps (aStart, aEnd) (interval s)))
  /\ (forall a b : Interval, overlaps a b = overlaps b a)
  /\ (forall aStart bEnd : Z,
        overlaps (Int aStart, Int 600) (Int 600, Int bEnd) = false)
  /\ occupies (Int 570) (Int 600)
        (Examples.task "x" "low" None None (Some "10:00") (Some 30) false)
      = Ok false.
Proof.
  split; [reflexivity|].
  split.
  { intros aStart aEnd s clock H. apply occupies_overlaps.
    unfold hasStart. congruence. }
  split; [apply overlaps_sym|].
  split; [|reflexivity].
  intros aStart bEnd. unfold overlaps, gt. cbn [fst snd lt].
  rewrite Z.ltb_irrefl. apply andb_false_r.
Qed.

Section FirstFree.

Lemma startsFrom_lower (time : Z) (n : nat) (t : Z) :
  In t (startsFrom time n) -> time <= t.
Proof.
  unfold startsFrom. rewrite in_map_iff.
  intros (k & <- & _). lia.
Qed.

(** [find] over increasing starts returns the least start that passes
    the test. *)
Lemma find_startsFrom (f : Z -> bool) (n : nat) :
  forall time t,
    find f (startsFrom time n) = Some t ->
    f t = true
    /\ forall t', In t' (startsFrom time n) -> t' < t -> f t' = false.
Proof.
  induction n as [|n IH]; intros time t H; [discriminate|].
  rewrite startsFrom_S in *. cbn [find] in H.
  destruct (f time) eqn:E.
  - injection H as <-. split; [exact E|].
    intros t' [<-|Hin] Hlt; [lia|].
    apply startsFrom_lower in Hin. lia.
  - destruct (IH _ _ H) as [Ht Hless]. split; [exact Ht|].
    intros t' [<-|Hin] Hlt; [exact E | now apply Hless].
Qed.

Lemma firstFree_least (committed : list Task) (duration t : Z) :
  firstFree committed duration = Some t ->
  forall t', In t' (candidates duration) -> t' < t ->
             overlapsAny (Int t', Int (t' + duration)) committed = true.
Proof.
  intros H t' Hin Hlt.
  destruct (find_startsFrom _ _ _ _ H) as [_ Hless].
  specialize (Hless t' Hin Hlt). now apply negb_false_iff in Hless.
Qed.

Lemma firstFree_none (committed : list Task) (duration : Z) :
  firstFree committed duration = None ->
  forall t, In t (candidates duration) ->
            overlapsAny (Int t, Int (t + duration)) committed = true.
Proof.
  intros H t Hin.
  pose proof (find_none _ _ H t Hin) as Hf. cbn beta in Hf.
  now apply negb_false_iff in Hf.
Qed.

End FirstFree.



Section RunResults.

Lemma unscheduled_or_kept (t : Task) :
  truthy (plannedStartTime t) = true \/ completed t = true ->
  isUnscheduled t = false.
Proof.
  unfold isUnscheduled. intros [-> | ->]; [reflexivity|].
  apply andb_false_r.
Qed.

Lemma run_ids (today : string) (tasks tasks' : list Task)
      (toast : AutoToast) :
  NoDup (map id tasks) ->
  autoScheduleTasks tasks = Ok (tasks', toast) ->
  map id tasks' = map id tasks.
Proof.
  intros Hnd Hrun.
  destruct (run_facts today tasks Hnd tasks' toast Hrun) as [Hf _].
  eapply Forall2_ids; [exact Hf | apply placedOrSame_id].
Qed.

End RunResults.

(** C1, as the code has it.  On a store with unique ids in which the
    active tasks scheduled for today do not overlap one another,
    auto-schedule returns, and in the store it leaves the active tasks
    scheduled for today still do not overlap one another. *)
Theorem auto_schedule_no_overlap (today : string) (tasks : list Task) :
  NoDup (map id tasks) ->
  disjointToday today tasks ->
  exists tasks' toast,
    autoScheduleTasks tasks = Ok (tasks', toast)
    /\ disjointToday today tasks'.
Proof.
  intros Hnd Hdis.
  destruct (autoScheduleTasks_ok tasks) as (tasks' & toast & Hrun).
  exists tasks', toast. split; [exact Hrun|].
  destruct (run_facts today tasks Hnd tasks' toast Hrun) as [_ Hd].
  apply disjointById_today.
  - rewrite (run_ids today tasks tasks' toast Hnd Hrun). exact Hnd.
  - apply Hd. now apply disjointToday_byId.
Qed.

Lemma auto_schedule_no_overlap_witness :
  NoDup (map id Examples.endToEnd)
  /\ disjointToday Examples.today Examples.endToEnd
  /\ exists tasks' toast,
      autoScheduleTasks Examples.endToEnd = Ok (tasks', toast)
      /\ disjointToday Examples.today tasks'.
Proof.
  assert (Hnd : NoDup (map id Examples.endToEnd)).
  { cbn. constructor; [intros [H|[]]; discriminate H|].
    constructor; [intros []|constructor]. }
  assert (Hdis : disjointToday Examples.today Examples.endToEnd).
  { intros i j a b _ Hi _ Ha _.
    destruct i as [|[|i]]; cbn in Hi;
      try (destruct i; discriminate Hi);
      injection Hi as <-; discriminate Ha. }
  split; [exact Hnd|]. split; [exact Hdis|].
  exact (auto_schedule_no_overlap Examples.today Examples.endToEnd Hnd Hdis).
Defined.

(** C1 fails as stated: tasks [a] (09:00-10:00) and [b] (09:30-10:00)
    overlap before the run, the run places [c] at 08:00, and [a] and [b]
    overlap after it. *)
Lemma auto_schedule_keeps_overlap :
  exists tasks' toast,
    autoScheduleTasks Examples.doubleBooked = Ok (tasks', toast)
    /\ map plannedStartTime tasks'
       = [Some "09:00"; Some "09:30"; Some "08:00"]
    /\ ~ disjointToday Examples.today tasks'.
Proof.
  eexists. eexists. split; [vm_compute; reflexivity|].
  split; [reflexivity|].
  intros H.
  specialize (H 0%nat 1%nat _ _ ltac:(discriminate) eq_refl eq_refl
                eq_refl eq_refl).
  vm_compute in H. discriminate H.
Qed.

(** C10. On a store with unique ids auto-schedule returns a store with
    the same records at the same positions, where a record that had a
    start time or was completed is the same, and any other record is the
    same or differs in [plannedStartTime] alone. *)
Theorem auto_schedule_frame (tasks : list Task) :
  NoDup (map id tasks) ->
  exists tasks' toast,
    autoScheduleTasks tasks = Ok (tasks', toast)
    /\ Forall2
         (fun t t' =>
            (truthy (plannedStartTime t) = true \/ completed t = true ->
             t' = t)
            /\ (t' = t \/ exists s, t' = withStart t s))
         tasks tasks'.
Proof.
  intros Hnd.
  destruct (autoScheduleTasks_ok tasks) as (tasks' & toast & Hrun).
  exists tasks', toast. split; [exact Hrun|].
  destruct (run_facts "" tasks Hnd tasks' toast Hrun) as [Hf _].
  eapply Forall2_impl; [|exact Hf].
  intros t t' [->|(s & -> & Hu & _)].
  - split; [reflexivity | now left].
  - split; [|right; now exists s].
    intros Hkept. apply unscheduled_or_kept in Hkept. congruence.
Qed.

Lemma auto_schedule_frame_witness :
  NoDup (map id Examples.doubleBooked)
  /\ exists tasks' toast,
      autoScheduleTasks Examples.doubleBooked = Ok (tasks', toast)
      /\ Forall2
           (fun t t' =>
              (truthy (plannedStartTime t) = true \/ completed t = true ->
               t' = t)
              /\ (t' = t \/ exists s, t' = withStart t s))
           Examples.doubleBooked tasks'.
Proof.
  assert (Hnd : NoDup (map id Examples.doubleBooked)).
  { cbn. constructor; [intros [H|[H|[]]]; discriminate H|].
    constructor; [intros [H|[]]; discriminate H|].
    constructor; [intros []|constructor]. }
  split; [exact Hnd|].
  exact (auto_schedule_frame Examples.doubleBooked Hnd).
Defined.

(** C4, at the failing input: a task due on another day is not in the
    planner's unscheduled list for today, and auto-schedule gives it a
    start time all the same. *)
Theorem auto_schedule_ignores_due_date :
  Forall (fun t => relevant Examples.today t = false) Examples.dueLater
  /\ p_unscheduled (renderTasks Examples.today Examples.dueLater) = []
  /\ autoScheduleTasks Examples.dueLater
     = Ok (map (fun t => withStart t "08:00") Examples.dueLater,
           AutoScheduled 1).
Proof.
  split; [repeat constructor|].
  split; reflexivity.
Qed.

Section Lookup.

(** [find] and [findIndex] meet the same record. *)
Lemma findTask_findIndex (i : string) (tasks : list Task) (task : Task) :
  findTask i tasks = Some task ->
  exists k, findIndex i tasks = Some k
            /\ nth_error tasks k = Some task
            /\ id task = i.
Proof.
  unfold findTask. induction tasks as [|t r IH]; intros H; [discriminate|].
  cbn [find findIndex] in *.
  destruct (String.eqb_spec (id t) i) as [E|E].
  - injection H as <-. exists O. repeat split; assumption.
  - destruct (IH H) as (k & -> & Hk & Hid).
    exists (S k). repeat split; assumption.
Qed.

Lemma updateTask_found (i : string) (u : Updates) (tasks : list Task)
      (task : Task) :
  findTask i tasks = Some task ->
  exists k, findIndex i tasks = Some k
            /\ nth_error tasks k = Some task
            /\ updateTask i u tasks = assign tasks k (merge task u).
Proof.
  intros H. destruct (findTask_findIndex _ _ _ H) as (k & Hk & Hn & _).
  exists k. unfold updateTask. rewrite Hk, Hn. auto.
Qed.

(** [assign] writes one position and leaves the others. *)
Lemma nth_error_assign (tasks : list Task) (k : nat) (v old : Task) :
  nth_error tasks k = Some old ->
  forall j, nth_error (assign tasks k v) j
            = if Nat.eqb j k then Some v else nth_error tasks j.
Proof.
  revert k. induction tasks as [|t r IH]; intros k Hk j.
  - destruct k; discriminate Hk.
  - destruct k as [|k]; destruct j as [|j]; cbn; try reflexivity.
    apply (IH k Hk).
Qed.

Lemma length_assign (tasks : list Task) (k : nat) (v : Task) :
  List.length (assign tasks k v) = List.length tasks.
Proof.
  revert k. induction tasks as [|t r IH]; intros [|k]; cbn; auto.
Qed.

End Lookup.



Section Snapping.

Lemma Math_round_bounds (q : Q) :
  (inject_Z (Math_round q) - (1 # 2) <= q)%Q
  /\ (q < inject_Z (Math_round q) + (1 # 2))%Q.
Proof.
  unfold Math_round.
  pose proof (Qfloor_le (q + (1 # 2))) as H1.
  pose proof (Qlt_floor (q + (1 # 2))) as H2.
  rewrite inject_Z_plus in H2. change (inject_Z 1) with 1%Q in H2.
  split; lra.
Qed.

(** With 60 pixels to the hour and a timeline that starts at midnight,
    the pixel offset under the header is the minute of the day. *)
Lemma snappedMinutes_offset (clientY rectTop scrollTop : Q) :
  snappedMinutes clientY rectTop scrollTop
  = Math_round ((clientY - rectTop + scrollTop - 16) / 15)%Q * 15.
Proof.
  unfold snappedMinutes, Math_round. f_equal.
  apply Qfloor_comp. unfold inject, timeSlotHeight, startHour.
  field.
Qed.

(** [round(q / 15) * 15] is the multiple of 15 nearest to [q]. *)
Lemma snap_nearest (q : Q) :
  (Math_round (q / 15)%Q * 15) mod 15 = 0
  /\ (inject_Z (Math_round (q / 15)%Q * 15) - (15 # 2) <= q)%Q
  /\ (q < inject_Z (Math_round (q / 15)%Q * 15) + (15 # 2))%Q.
Proof.
  split; [apply Z.mod_mul; lia|].
  destruct (Math_round_bounds (q / 15)) as [H1 H2].
  rewrite inject_Z_mult. change (inject_Z 15) with 15%Q.
  set (r := inject_Z (Math_round (q / 15))) in *.
  assert (E : (q == (q / 15) * 15)%Q) by field.
  set (x := (q / 15)%Q) in *.
  split; lra.
Qed.

Lemma resizedDuration_eq (height : Z) :
  resizedDuration height
  = Z.max 15 (Math_round (inject_Z height / 15)%Q * 15).
Proof.
  unfold resizedDuration.
  assert (E : Math_round
                (inject height / inject timeSlotHeight * inject 60
                 / inject 15)%Q
              = Math_round (inject_Z height / 15)%Q).
  { unfold Math_round. apply Qfloor_comp.
    unfold inject, timeSlotHeight. field. }
  rewrite E.
  destruct (Z.ltb_spec (Math_round (inject_Z height / 15)%Q * 15) 15); lia.
Qed.

Lemma merge_dropUpdates (today : string) (t : Task) (s : string) :
  merge t (dropUpdates today t s) = dropped today t s.
Proof.
  unfold merge, dropUpdates, dropped. cbn.
  destruct (truthy (dueDate t)); reflexivity.
Qed.

End Snapping.

(** C7. A drop of a task of the store on the timeline.  The drop offset,
    in minutes, is snapped to the nearest multiple of 15; when the hour
    of the snapped time is outside [[startHour, endHour)] the store is
    unchanged; otherwise the record is replaced by the same record with
    [plannedStartTime] at the snapped time, [dueDate] set to today when
    it had none, and [plannedDuration] kept (30 when unset), whatever
    the other tasks occupy: a drop onto a taken slot is accepted. *)
Theorem drop_on_timeline (dragged : Task) (clientY rectTop scrollTop : Q)
        (today : string) (tasks : list Task) :
  findTask (id dragged) tasks = Some dragged ->
  let offset := (clientY - rectTop + scrollTop - 16)%Q in
  let snapped := snappedMinutes clientY rectTop scrollTop in
  let hour := snapped / 60 in
  let minute := Z.rem snapped 60 in
  (snapped mod 15 = 0
   /\ (inject_Z snapped - (15 # 2) <= offset)%Q
   /\ (offset < inject_Z snapped + (15 # 2))%Q)
  /\ (hour < startHour \/ endHour <= hour ->
      handleDrop (Some dragged) clientY rectTop scrollTop today tasks
      = (tasks, false))
  /\ (startHour <= hour < endHour ->
      exists k tasks',
        handleDrop (Some dragged) clientY rectTop scrollTop today tasks
        = (tasks', true)
        /\ nth_error tasks k = Some dragged
        /\ (forall j, nth_error tasks' j
                      = if Nat.eqb j k
                        then Some (dropped today dragged
                                     (format_time hour minute))
                        else nth_error tasks j)
        /\ hour_minute (format_time hour minute) = (Int hour, Int minute))
  /\ (forall d, plannedDuration dragged = Some d -> d <> 0 ->
                plannedDuration (dropped today dragged
                                   (format_time hour minute)) = Some d)
  /\ (plannedDuration dragged = None ->
      plannedDuration (dropped today dragged (format_time hour minute))
      = Some 30)
  /\ (exists a b b',
        handleDrop (Some b) (586 # 1) 0 0 Examples.today [a; b]
        = ([a; b'], true)
        /\ isCommitted a = true /\ isCommitted b' = true
        /\ overlaps (interval a) (interval b') = true).
Proof.
  intros Hfind offset snapped hour minute.
  split.
  { subst snapped offset. rewrite snappedMinutes_offset.
    apply snap_nearest. }
  split.
  { intros Hout. unfold handleDrop. fold snapped. fold hour.
    destruct Hout as [H|H].
    - apply Z.ltb_lt in H. now rewrite H.
    - apply Z.geb_le in H. rewrite H. now rewrite orb_true_r. }
  split.
  { intros [Hlo Hhi]. unfold handleDrop. fold snapped. fold hour.
    fold minute.
    assert (E1 : (hour <? startHour) = false) by (apply Z.ltb_ge; lia).
    assert (E2 : (hour >=? endHour) = false)
      by (rewrite Z.geb_leb; apply Z.leb_gt; lia).
    rewrite E1, E2. cbn [orb].
    destruct (updateTask_found (id dragged)
                (dropUpdates today dragged (format_time hour minute))
                tasks dragged Hfind) as (k & _ & Hk & ->).
    rewrite merge_dropUpdates.
    exists k. eexists. split; [reflexivity|].
    split; [exact Hk|].
    split; [apply (nth_error_assign _ _ _ _ Hk)|].
    apply hour_minute_format_time; [unfold startHour in Hlo; lia|].
    subst minute hour. unfold startHour in Hlo.
    assert (0 <= snapped).
    { destruct (Z_lt_le_dec snapped 0) as [Hneg|]; [|assumption].
      assert (snapped / 60 < 0) by (apply Z.div_lt_upper_bound; lia). lia. }
    rewrite Z.rem_mod_nonneg by lia. apply Z.mod_pos_bound. lia. }
  split.
  { intros d Hd Hnz. cbn. unfold durationOf. rewrite Hd.
    now rewrite num_or_Int_nonzero. }
  split.
  { intros Hd. cbn. unfold durationOf. now rewrite Hd. }
  exists (Examples.task "a" "medium" None None (Some "09:00") (Some 60) false).
  exists (Examples.task "b" "medium" None (Some "09:30") None None false).
  eexists. split; [vm_compute; reflexivity|].
  repeat split.
Qed.

(** A drop of task [b] at pixel 586, minute 570, of a store where [a]
    holds 09:00-10:00: [b] is scheduled at 09:30. *)
Lemma drop_on_timeline_witness :
  findTask "b" Examples.busyMorning
  = Some (Examples.task "b" "medium" None (Some "09:30") None None false)
  /\ exists k tasks',
      handleDrop
        (Some (Examples.task "b" "medium" None (Some "09:30") None None
                             false))
        (586 # 1) 0 0 Examples.today Examples.busyMorning
      = (tasks', true)
      /\ nth_error tasks' k
         = Some (dropped Examples.today
                   (Examples.task "b" "medium" None (Some "09:30") None
                                  None false)
                   "09:30").
Proof.
  split; [reflexivity|].
  destruct (proj1 (proj2 (proj2
              (drop_on_timeline
                 (Examples.task "b" "medium" None (Some "09:30")
                                None None false)
                 (586 # 1) 0 0 Examples.today Examples.busyMorning
                 eq_refl)))) as (k & tasks' & Hrun & _ & Hnth & _).
  { split; [vm_compute; discriminate | vm_compute; reflexivity]. }
  exists k, tasks'. split; [exact Hrun|].
  rewrite Hnth, Nat.eqb_refl. reflexivity.
Defined.

Section DurationFloor.

Lemma formDuration_floor (f : UIController.Form) :
  15 <= UIController.formDuration f.
Proof.
  unfold UIController.formDuration.
  destruct (Z.ltb_spec
              (num_or (UIController.taskDurationHours f) 0 * 60
               + num_or (UIController.taskDurationMinutes f) 0) 15); lia.
Qed.

Lemma resizedDuration_floor (height : Z) : 15 <= resizedDuration height.
Proof. rewrite resizedDuration_eq. lia. Qed.

Lemma Forall_updateTask (P : Task -> Prop) (i : string) (u : Updates)
      (tasks : list Task) :
  (forall t, P t -> P (merge t u)) ->
  Forall P tasks -> Forall P (updateTask i u tasks).
Proof.
  intros Hm. induction 1 as [|t r Ht Hr IH]; [constructor|].
  rewrite updateTask_cons.
  destruct (String.eqb (id t) i); constructor; auto.
Qed.

Lemma floored_durationOf (t : Task) : floored t -> 15 <= durationOf t.
Proof.
  intros (d & Hd & Hle). unfold durationOf. rewrite Hd.
  rewrite num_or_Int_nonzero; lia.
Qed.

Lemma floored_startAt (s : string) (t : Task) :
  floored t -> floored (merge t (startAt s)).
Proof. now intros H. Qed.

Lemma floored_durationTo (d : Z) (t : Task) :
  15 <= d -> floored (merge t (durationTo d)).
Proof. intros H. exists d. split; [reflexivity | exact H]. Qed.

Lemma floored_created (newId now : string) (f : UIController.Form)
      (tasks : list Task) :
  Forall floored tasks ->
  Forall floored (createTask newId now (UIController.formData f) tasks).
Proof.
  intros H. pose proof (formDuration_floor f) as Hf.
  unfold createTask. constructor.
  - exists (UIController.formDuration f). split; [|exact Hf].
    cbn [plannedDuration]. unfold UIController.formData.
    cbn [d_plannedDuration]. now rewrite num_or_Int_nonzero by lia.
  - apply Forall_forall. intros t Ht.
    apply in_map_iff in Ht. destruct Ht as (t0 & <- & Ht0).
    exact (proj1 (Forall_forall _ _) H t0 Ht0).
Qed.

(** The placement loop keeps the durations of the store. *)
Lemma floored_run (tasks tasks' : list Task) (toast : AutoToast) :
  Forall floored tasks ->
  autoScheduleTasks tasks = Ok (tasks', toast) ->
  Forall floored tasks'.
Proof.
  intros H Hrun. apply autoScheduleTasks_run in Hrun.
  destruct Hrun as [[_ ->]|(l0 & st' & Hp & Hloop & ->)]; [exact H|].
  refine (proj1 (forEach_invariant
                   (fun _ st => Forall floored (store st)
                                /\ Forall hasStart (scheduled st))
                   _ _ _ _ _ Hloop)).
  - intros x r st st1 [Hfl Hst] Hstep.
    split; [|eapply scheduleOne_started; eassumption].
    destruct (scheduleOne_step st x Hst) as (st2 & Hstep2 & Hres).
    rewrite Hstep in Hstep2. injection Hstep2 as <-.
    destruct (placement (scheduled st) x) as [s|]; [|now subst].
    destruct Hres as (-> & _).
    apply Forall_updateTask; [apply floored_startAt | exact Hfl].
  - split; [exact H|]. cbn.
    eapply Permutation_Forall; [exact Hp | apply scheduledOf_hasStart].
Qed.

Lemma Math_round_fifteenths (m : Z) :
  Math_round (inject_Z m / 15)%Q = (2 * m + 15) / 30.
Proof.
  unfold Math_round.
  rewrite (Qfloor_comp _ ((2 * m + 15) # 30)); [reflexivity|].
  rewrite (Qmake_Qdiv (2 * m + 15) 30).
  rewrite inject_Z_plus, inject_Z_mult. field.
Qed.

Lemma resizedDuration_design (height : Z) :
  resizedDuration height = Design.floor15 (Design.snap15 height).
Proof.
  rewrite resizedDuration_eq, Math_round_fifteenths. reflexivity.
Qed.

Lemma formDuration_design (f : UIController.Form) :
  UIController.formDuration f
  = Design.floor15
      (Design.entered (UIController.taskDurationHours f) * 60
       + Design.entered (UIController.taskDurationMinutes f)).
Proof.
  unfold UIController.formDuration, Design.floor15.
  assert (E : forall n, num_or n 0 = Design.entered n).
  { intros [|z]; [reflexivity|]. now destruct z. }
  rewrite !E.
  destruct (Z.ltb_spec
              (Design.entered (UIController.taskDurationHours f) * 60
               + Design.entered (UIController.taskDurationMinutes f)) 15);
    lia.
Qed.

Lemma updateTask_durations (i : string) (u : Updates) (tasks : list Task) :
  u_plannedDuration u = None ->
  map plannedDuration (updateTask i u tasks) = map plannedDuration tasks.
Proof.
  intros Hu. induction tasks as [|t r IH]; [reflexivity|].
  rewrite updateTask_cons.
  destruct (String.eqb (id t) i); cbn [map]; [|now rewrite IH].
  cbn [merge plannedDuration]. now rewrite Hu.
Qed.

(** The placement loop keeps the durations of the store. *)
Lemma durations_run (tasks tasks' : list Task) (toast : AutoToast) :
  autoScheduleTasks tasks = Ok (tasks', toast) ->
  map plannedDuration tasks' = map plannedDuration tasks.
Proof.
  intros Hrun. apply autoScheduleTasks_run in Hrun.
  destruct Hrun as [[_ ->]|(l0 & st' & Hp & Hloop & ->)]; [reflexivity|].
  refine (proj1 (forEach_invariant
                   (fun _ st => map plannedDuration (store st)
                                = map plannedDuration tasks
                                /\ Forall hasStart (scheduled st))
                   _ _ _ _ _ Hloop)).
  - intros x r st st1 [Hfl Hst] Hstep.
    split; [|eapply scheduleOne_started; eassumption].
    destruct (scheduleOne_step st x Hst) as (st2 & Hstep2 & Hres).
    rewrite Hstep in Hstep2. injection Hstep2 as <-.
    destruct (placement (scheduled st) x) as [s|]; [|now subst].
    destruct Hres as (-> & _).
    now rewrite updateTask_durations.
  - split; [reflexivity|]. cbn.
    eapply Permutation_Forall; [exact Hp | apply scheduledOf_hasStart].
Qed.

Lemma durations_quick (taskId timeString : string)
      (tasks tasks' : list Task) (toast : QuickToast) :
  quickScheduleTask taskId timeString tasks = Ok (tasks', toast) ->
  map plannedDuration tasks' = map plannedDuration tasks.
Proof.
  intros Hrun. unfold quickScheduleTask in Hrun.
  destruct (findTask taskId tasks); [|now injection Hrun as <- _].
  destruct (hour_minute timeString) as [h m].
  destruct (lt h _ || ge h _); [now injection Hrun as <- _|].
  destruct (some _ _) as [[|]|]; cbn [bind] in Hrun;
    [now injection Hrun as <- _| |discriminate].
  injection Hrun as <- _. now apply updateTask_durations.
Qed.

End DurationFloor.

(** C8. The duration floor.  The task form saves the entered hours and
    minutes as minutes, floored at 15, on a new task and on an edited
    one; a resize commits [round(height / 15) * 15] floored at 15, so
    that a height of 37 commits 30.  Quick-schedule and auto-schedule
    write no duration; and every operation of the form and of the
    planner on a store whose durations are at least 15 leaves a store
    whose durations are at least 15. *)
Theorem duration_floor :
  (forall f,
      UIController.formDuration f
      = Design.floor15
          (Design.entered (UIController.taskDurationHours f) * 60
           + Design.entered (UIController.taskDurationMinutes f))
      /\ 15 <= UIController.formDuration f)
  /\ (forall newId now f tasks,
        String.eqb (trim (UIController.taskTitle f)) "" = false ->
        UIController.taskId f = "" ->
        exists t,
          UIController.handleTaskSubmit newId now f tasks
          = Some (t :: map bump_order tasks)
          /\ id t = newId
          /\ plannedDuration t
             = Some (Design.floor15
                       (Design.entered (UIController.taskDurationHours f) * 60
                        + Design.entered
                            (UIController.taskDurationMinutes f))))
  /\ (forall newId now f tasks old,
        String.eqb (trim (UIController.taskTitle f)) "" = false ->
        UIController.taskId f <> "" ->
        findTask (UIController.taskId f) tasks = Some old ->
        exists k tasks' t,
          UIController.handleTaskSubmit newId now f tasks = Some tasks'
          /\ nth_error tasks k = Some old
          /\ nth_error tasks' k = Some t
          /\ plannedDuration t
             = Some (Design.floor15
                       (Design.entered (UIController.taskDurationHours f) * 60
                        + Design.entered
                            (UIController.taskDurationMinutes f))))
  /\ (forall height,
        resizedDuration height = Design.floor15 (Design.snap15 height)
        /\ 15 <= resizedDuration height)
  /\ resizedDuration 37 = 30
  /\ (forall task height tasks current,
        findTask (id task) tasks = Some current ->
        exists k,
          nth_error tasks k = Some current
          /\ handleResizeEnd (Some task) (Some height) tasks
             = (assign tasks k
                       (withDuration current
                          (Design.floor15 (Design.snap15 height))),
                None))
  /\ (forall taskId timeString tasks tasks' toast,
        quickScheduleTask taskId timeString tasks = Ok (tasks', toast) ->
        map plannedDuration tasks' = map plannedDuration tasks)
  /\ (forall tasks tasks' toast,
        autoScheduleTasks tasks = Ok (tasks', toast) ->
        map plannedDuration tasks' = map plannedDuration tasks)
  /\ (forall tasks,
        Forall floored tasks ->
        (forall newId now f tasks',
            UIController.handleTaskSubmit newId now f tasks = Some tasks' ->
            Forall floored tasks')
        /\ (forall resizing height,
              Forall floored
                (fst (handleResizeEnd resizing height tasks)))
        /\ (forall dragged clientY rectTop scrollTop today,
              floored dragged ->
              Forall floored
                (fst (handleDrop (Some dragged) clientY rectTop scrollTop
                                 today tasks)))
        /\ (forall taskId timeString tasks' toast,
              quickScheduleTask taskId timeString tasks
              = Ok (tasks', toast) ->
              Forall floored tasks')
        /\ (forall tasks' toast,
              autoScheduleTasks tasks = Ok (tasks', toast) ->
              Forall floored tasks')).
Proof.
  split.
  { intros f. split; [apply formDuration_design | apply formDuration_floor]. }
  split.
  { intros newId now f tasks Htitle Hid.
    unfold UIController.handleTaskSubmit. rewrite Htitle, Hid.
    cbn [String.eqb negb].
    eexists. split; [reflexivity|]. split; [reflexivity|].
    cbn [plannedDuration]. unfold UIController.formData.
    cbn [d_plannedDuration].
    rewrite num_or_Int_nonzero
      by (pose proof (formDuration_floor f); lia).
    now rewrite formDuration_design. }
  split.
  { intros newId now f tasks old Htitle Hid Hfind.
    unfold UIController.handleTaskSubmit. rewrite Htitle.
    destruct (String.eqb_spec (UIController.taskId f) "") as [E|_];
      [contradiction|]. cbn [negb].
    destruct (updateTask_found _
                (updates_of (UIController.formData f)) tasks old Hfind)
      as (k & _ & Hk & ->).
    exists k. eexists. eexists. split; [reflexivity|].
    split; [exact Hk|].
    rewrite (nth_error_assign _ _ _ _ Hk), Nat.eqb_refl.
    split; [reflexivity|].
    cbn [merge plannedDuration updates_of u_plannedDuration].
    unfold UIController.formData. cbn [d_plannedDuration].
    now rewrite formDuration_design. }
  split.
  { intros height. split;
      [apply resizedDuration_design | apply resizedDuration_floor]. }
  split; [reflexivity|].
  split.
  { intros task height tasks current Hfind. unfold handleResizeEnd.
    destruct (updateTask_found _ (durationTo (resizedDuration height))
                tasks current Hfind) as (k & _ & Hk & ->).
    exists k. split; [exact Hk|].
    now rewrite merge_durationTo, resizedDuration_design. }
  split.
  { intros taskId timeString tasks tasks' toast.
    apply durations_quick. }
  split.
  { intros tasks tasks' toast. apply durations_run. }
  intros tasks Hfl.
  split.
  { intros newId now f tasks' Hrun.
    unfold UIController.handleTaskSubmit in Hrun.
    destruct (String.eqb (trim (UIController.taskTitle f)) "");
      [discriminate|].
    destruct (negb (String.eqb (UIController.taskId f) ""));
      injection Hrun as <-.
    - apply Forall_updateTask; [|exact Hfl].
      intros t _. exists (UIController.formDuration f).
      split; [reflexivity | apply formDuration_floor].
    - now apply floored_created. }
  split.
  { intros [task|] [height|]; cbn; try exact Hfl.
    apply Forall_updateTask; [|exact Hfl].
    intros t _. apply floored_durationTo, resizedDuration_floor. }
  split.
  { intros dragged clientY rectTop scrollTop today Hd. unfold handleDrop.
    destruct ((_ <? _) || (_ >=? _)); cbn [fst]; [exact Hfl|].
    apply Forall_updateTask; [|exact Hfl].
    intros t _. exists (durationOf dragged).
    split; [reflexivity | now apply floored_durationOf]. }
  split.
  { intros taskId timeString tasks' toast Hrun.
    unfold quickScheduleTask in Hrun.
    destruct (findTask taskId tasks); [|now injection Hrun as <- _].
    destruct (hour_minute timeString) as [h m].
    destruct (lt h _ || ge h _); [now injection Hrun as <- _|].
    destruct (some _ _) as [[|]|]; cbn [bind] in Hrun;
      [now injection Hrun as <- _| |discriminate].
    injection Hrun as <- _.
    apply Forall_updateTask; [apply floored_startAt | exact Hfl]. }
  intros tasks' toast Hrun. eapply floored_run; eassumption.
Qed.

Section Malformed.






End Malformed.



(* ================================================================== *)
(** ** The scenarios of the design document, run on the code *)
(* ================================================================== *)

Section Scenarios.

(** End-to-end scenario: task 2 takes its preferred 08:00, task 1 the
    next free slot, 08:30. *)
Example scenario_end_to_end :
  autoScheduleTasks Examples.endToEnd
  = Ok ([withStart (Examples.task "1" "high" None None None (Some 60) false)
                   "08:30";
         withStart (Examples.task "2" "medium" None (Some "08:00") None
                                  (Some 30) false) "08:00"],
        AutoScheduled 2).
Proof. vm_compute. reflexivity. Qed.

(** Preference honoured when free. *)
Example scenario_preference_free :
  autoScheduleTasks
    [Examples.task "p" "low" None (Some "09:00") None (Some 30) false]
  = Ok ([withStart (Examples.task "p" "low" None (Some "09:00") None
                                  (Some 30) false) "09:00"],
        AutoScheduled 1).
Proof. vm_compute. reflexivity. Qed.

(** Preference skipped when occupied: the task falls back to the
    earliest free slot from 08:00. *)
Example scenario_preference_occupied :
  autoScheduleTasks
    [Examples.task "a" "low" None None (Some "09:00") (Some 30) false;
     Examples.task "p" "low" None (Some "09:00") None (Some 30) false]
  = Ok ([Examples.task "a" "low" None None (Some "09:00") (Some 30) false;
         withStart (Examples.task "p" "low" None (Some "09:00") None
                                  (Some 30) false) "08:00"],
        AutoScheduled 1).
Proof. vm_compute. reflexivity. Qed.

(** Priority ordering: the high-priority half hour goes before the
    low-priority hour, whatever their order in the store. *)
Example scenario_priority :
  autoScheduleTasks
    [Examples.task "l" "low" None None None (Some 60) false;
     Examples.task "h" "high" None None None (Some 30) false]
  = Ok ([withStart (Examples.task "l" "low" None None None (Some 60) false)
                   "08:30";
         withStart (Examples.task "h" "high" None None None (Some 30) false)
                   "08:00"],
        AutoScheduled 2).
Proof. vm_compute. reflexivity. Qed.

(** A task longer than the working window is left unscheduled, and the
    run reports that no slot was found. *)
Example scenario_no_capacity :
  autoScheduleTasks
    [Examples.task "w" "high" None None None (Some 735) false]
  = Ok ([Examples.task "w" "high" None None None (Some 735) false],
        NoEmptySlots).
Proof. vm_compute. reflexivity. Qed.

(** A task of exactly twelve hours fits at 08:00. *)
Example scenario_full_window :
  autoScheduleTasks
    [Examples.task "w" "high" None None None (Some 720) false]
  = Ok ([withStart (Examples.task "w" "high" None None None (Some 720)
                                  false) "08:00"],
        AutoScheduled 1).
Proof. vm_compute. reflexivity. Qed.

(** Completed tasks do not block: a completed task at 08:00 leaves
    08:00 free. *)
Example scenario_completed_ignored :
  autoScheduleTasks
    [Examples.task "c" "low" None None (Some "08:00") (Some 60) true;
     Examples.task "n" "low" None None None (Some 30) false]
  = Ok ([Examples.task "c" "low" None None (Some "08:00") (Some 60) true;
         withStart (Examples.task "n" "low" None None None (Some 30) false)
                   "08:00"],
        AutoScheduled 1).
Proof. vm_compute. reflexivity. Qed.

(** Quick-schedule outside the rendered window. *)
Example scenario_quick_out_of_window :
  quickScheduleTask "b" "24:00" Examples.busyMorning
  = Ok (Examples.busyMorning, OutOfWindowError).
Proof. vm_compute. reflexivity. Qed.

(** Quick-schedule onto a free slot: touching 10:00 is no overlap. *)
Example scenario_quick_free :
  quickScheduleTask "b" "10:00" Examples.busyMorning
  = Ok ([Examples.task "a" "medium" None None (Some "09:00") (Some 60)
                       false;
         withStart (Examples.task "b" "medium" None (Some "09:30") None
                                  None false) "10:00"],
        QuickScheduled).
Proof. vm_compute. reflexivity. Qed.

(** Resize snapping. *)
Example scenario_resize :
  map resizedDuration [0; 7; 22; 23; 37; 38; 60; 90]
  = [15; 15; 15; 30; 30; 45; 60; 90].
Proof. vm_compute. reflexivity. Qed.

End Scenarios.

(* ================================================================== *)
(** ** Further properties of the planner *)
(* ================================================================== *)

Section MoreStore.

Lemma findTask_In (i : string) (tasks : list Task) (task : Task) :
  findTask i tasks = Some task -> In task tasks /\ id task = i.
Proof.
  unfold findTask. intros H. apply find_some in H.
  destruct H as [Hin Hid]. split; [exact Hin|].
  now apply String.eqb_eq.
Qed.

Lemma findTask_absent (i : string) (tasks : list Task) :
  findTask i tasks = None <-> ~ In i (map id tasks).
Proof.
  unfold findTask. induction tasks as [|t r IH]; cbn [find map In].
  - tauto.
  - destruct (String.eqb_spec (id t) i) as [E|E].
    + split; [discriminate | intros H; exfalso; apply H; now left].
    + rewrite IH. tauto.
Qed.

Lemma findIndex_ids (i : string) (l l' : list Task) :
  map id l = map id l' -> findIndex i l = findIndex i l'.
Proof.
  revert l'. induction l as [|t r IH]; intros [|t' r'] H;
    try discriminate; [reflexivity|].
  cbn [map] in H. injection H as Hid Hr.
  cbn [findIndex]. rewrite Hid, (IH r' Hr). reflexivity.
Qed.

Lemma assign_ids (l : list Task) (k : nat) (v old : Task) :
  nth_error l k = Some old -> id v = id old ->
  map id (assign l k v) = map id l.
Proof.
  revert k. induction l as [|t r IH]; intros [|k] Hk Hid;
    try discriminate; cbn in *.
  - injection Hk as ->. now rewrite Hid.
  - now rewrite (IH k Hk Hid).
Qed.

Lemma assign_same (l : list Task) (k : nat) (v : Task) :
  nth_error l k = Some v -> assign l k v = l.
Proof.
  revert k. induction l as [|t r IH]; intros [|k] Hk;
    try discriminate; cbn in *.
  - now injection Hk as ->.
  - now rewrite (IH k Hk).
Qed.

Lemma assign_assign (l : list Task) (k : nat) (v w : Task) :
  assign (assign l k v) k w = assign l k w.
Proof.
  revert k. induction l as [|t r IH]; intros [|k]; cbn; try reflexivity.
  now rewrite IH.
Qed.

Lemma nth_error_assign_same (l : list Task) (k : nat) (v old : Task) :
  nth_error l k = Some old -> nth_error (assign l k v) k = Some v.
Proof.
  intros H. rewrite (nth_error_assign _ _ _ _ H). now rewrite Nat.eqb_refl.
Qed.

(** [mutateTask] rewrites the first record that carries the id. *)
Lemma mutateTask_cons (i : string) (f : Task -> Task) (t : Task)
      (r : list Task) :
  mutateTask i f (t :: r)
  = if String.eqb (id t) i then f t :: r else t :: mutateTask i f r.
Proof.
  unfold mutateTask. cbn [findIndex].
  destruct (String.eqb (id t) i); [reflexivity|].
  destruct (findIndex i r) as [k|]; cbn [option_map nth_error];
    [|reflexivity].
  destruct (nth_error r k); reflexivity.
Qed.

Lemma mutateTask_ids (i : string) (f : Task -> Task) (l : list Task) :
  (forall t, id (f t) = id t) -> map id (mutateTask i f l) = map id l.
Proof.
  intros Hf. induction l as [|t r IH]; [reflexivity|].
  rewrite mutateTask_cons.
  destruct (String.eqb (id t) i); cbn [map]; [now rewrite Hf|].
  now rewrite IH.
Qed.

(** Two changes of the same record are one change. *)
Lemma mutateTask_twice (i : string) (f g : Task -> Task) (l : list Task) :
  (forall t, id (f t) = id t) ->
  mutateTask i g (mutateTask i f l) = mutateTask i (fun t => g (f t)) l.
Proof.
  intros Hf. induction l as [|t r IH]; [reflexivity|].
  rewrite !mutateTask_cons.
  destruct (String.eqb (id t) i) eqn:E.
  - rewrite mutateTask_cons, Hf, E. reflexivity.
  - rewrite mutateTask_cons, E, IH. reflexivity.
Qed.

Lemma mutateTask_same (i : string) (f : Task -> Task) (l : list Task) :
  (forall t, In t l -> f t = t) -> mutateTask i f l = l.
Proof.
  induction l as [|t r IH]; intros Hf; [reflexivity|].
  rewrite mutateTask_cons.
  destruct (String.eqb (id t) i).
  - rewrite Hf by now left. reflexivity.
  - rewrite IH; [reflexivity|]. intros t' Ht'. apply Hf. now right.
Qed.

Lemma mutateTask_found (i : string) (f : Task -> Task) (tasks : list Task)
      (task : Task) :
  findTask i tasks = Some task ->
  exists k, nth_error tasks k = Some task
            /\ mutateTask i f tasks = assign tasks k (f task).
Proof.
  intros H. destruct (findTask_findIndex _ _ _ H) as (k & Hk & Hn & _).
  exists k. unfold mutateTask. rewrite Hk, Hn. auto.
Qed.

Lemma updateTask_mutateTask (i : string) (u : Updates) (l : list Task) :
  updateTask i u l = mutateTask i (fun t => merge t u) l.
Proof. reflexivity. Qed.

End MoreStore.

Section QuickSchedule.

Lemma quickScheduleTask_scheduled (taskId timeString : string)
      (tasks tasks' : list Task) :
  quickScheduleTask taskId timeString tasks = Ok (tasks', QuickScheduled) ->
  exists task,
    findTask taskId tasks = Some task
    /\ tasks' = updateTask taskId (startAt timeString) tasks
    /\ overlapsAny (slot timeString (durationOf task))
         (filter (fun t => isCommitted t
                           && negb (String.eqb (id t) taskId)) tasks)
       = false.
Proof.
  unfold quickScheduleTask. intros H.
  destruct (findTask taskId tasks) as [task|]; [|discriminate].
  exists task. split; [reflexivity|].
  unfold slot, toMinutes.
  destruct (hour_minute timeString) as [h m]. cbn [fst snd].
  destruct (lt h (Int startHour) || ge h (Int endHour)); [discriminate|].
  rewrite some_occupies in H.
  - cbn [bind] in H. unfold isCommitted.
    destruct (overlapsAny _ _); [discriminate|].
    injection H as <-. split; reflexivity.
  - apply Forall_forall. intros t Ht.
    apply filter_In in Ht. destruct Ht as [_ Ht].
    apply andb_true_iff in Ht. destruct Ht as [Ht _].
    apply andb_true_iff in Ht. now apply truthy_hasStart.
Qed.

End QuickSchedule.

(** X1. Quick-schedule keeps the schedule free of overlaps: on a store
    with unique ids whose active tasks scheduled for today do not
    overlap, a quick-schedule that is accepted leaves a store whose
    active tasks scheduled for today do not overlap. *)
Theorem quick_schedule_keeps_disjoint (today taskId timeString : string)
        (tasks tasks' : list Task) :
  NoDup (map id tasks) ->
  disjointToday today tasks ->
  quickScheduleTask taskId timeString tasks = Ok (tasks', QuickScheduled) ->
  disjointToday today tasks'.
Proof.
  intros Hnd Hdis Hrun.
  destruct (quickScheduleTask_scheduled _ _ _ _ Hrun)
    as (task & Hfind & -> & Hfree).
  destruct (findTask_In _ _ _ Hfind) as [Hin Hid].
  apply disjointById_today; [now rewrite updateTask_ids|].
  apply disjointToday_byId in Hdis.
  rewrite (updateTask_map _ _ _ Hnd).
  set (f := fun t : Task =>
              if String.eqb (id t) taskId
              then merge t (startAt timeString) else t).
  assert (Hf_id : forall t, id (f t) = id t)
    by (intros t; unfold f; destruct (String.eqb (id t) taskId);
        reflexivity).
  assert (Hf_x : forall t, In t tasks -> id t = taskId ->
                           f t = withStart task timeString).
  { intros t Ht E.
    rewrite (unique_id _ _ _ Hnd Ht Hin (eq_trans E (eq_sym Hid))).
    unfold f. rewrite Hid, String.eqb_refl. reflexivity. }
  assert (Hf_other : forall t, id t <> taskId -> f t = t).
  { intros t E. unfold f.
    destruct (String.eqb_spec (id t) taskId); [contradiction|reflexivity]. }
  assert (Hnew : forall b, In b tasks -> id b <> taskId ->
                 scheduledToday today b = true ->
                 overlaps (slot timeString (durationOf task)) (interval b)
                 = false).
  { intros b Hb Hne Hsb. apply (overlapsAny_false _ _ Hfree).
    apply filter_In. split; [exact Hb|].
    rewrite (scheduledToday_committed _ _ Hsb). cbn [andb].
    destruct (String.eqb_spec (id b) taskId); [contradiction|reflexivity]. }
  intros a b Ha Hb Hab Hsa Hsb.
  apply in_map_iff in Ha. destruct Ha as (a0 & <- & Ha0).
  apply in_map_iff in Hb. destruct Hb as (b0 & <- & Hb0).
  rewrite !Hf_id in Hab.
  destruct (String.eqb_spec (id a0) taskId) as [Ea|Ea];
    destruct (String.eqb_spec (id b0) taskId) as [Eb|Eb].
  - congruence.
  - rewrite (Hf_x a0 Ha0 Ea), (Hf_other b0 Eb) in *.
    rewrite interval_withStart. now apply Hnew.
  - rewrite (Hf_x b0 Hb0 Eb), (Hf_other a0 Ea) in *.
    rewrite interval_withStart, overlaps_sym. now apply Hnew.
  - rewrite (Hf_other a0 Ea), (Hf_other b0 Eb) in *. now apply Hdis.
Qed.

Lemma quick_schedule_keeps_disjoint_witness :
  NoDup (map id Examples.busyMorning)
  /\ disjointToday Examples.today Examples.busyMorning
  /\ quickScheduleTask "b" "10:00" Examples.busyMorning
     = Ok (updateTask "b" (startAt "10:00") Examples.busyMorning,
           QuickScheduled)
  /\ disjointToday Examples.today
       (updateTask "b" (startAt "10:00") Examples.busyMorning).
Proof.
  assert (Hnd : NoDup (map id Examples.busyMorning)).
  { cbn. constructor; [intros [H|[]]; discriminate H|].
    constructor; [intros []|constructor]. }
  assert (Hdis : disjointToday Examples.today Examples.busyMorning).
  { intros i j a b Hij Hi Hj Ha Hb.
    destruct i as [|[|i]]; cbn in Hi;
      try (destruct i; discriminate Hi); injection Hi as <-;
      destruct j as [|[|j]]; cbn in Hj;
      try (destruct j; discriminate Hj); injection Hj as <-;
      try discriminate Ha; try discriminate Hb;
      exfalso; apply Hij; reflexivity. }
  assert (Hrun : quickScheduleTask "b" "10:00" Examples.busyMorning
                 = Ok (updateTask "b" (startAt "10:00") Examples.busyMorning,
                       QuickScheduled)) by (vm_compute; reflexivity).
  split; [exact Hnd|]. split; [exact Hdis|]. split; [exact Hrun|].
  exact (quick_schedule_keeps_disjoint Examples.today "b" "10:00"
           Examples.busyMorning _ Hnd Hdis Hrun).
Defined.

Section SecondRun.

Lemma overlapsAny_incl (c : Interval) (l l' : list Task) :
  (forall s, In s l -> In s l') ->
  overlapsAny c l = true -> overlapsAny c l' = true.
Proof.
  unfold overlapsAny. intros Hincl H.
  apply existsb_exists in H. destruct H as (s & Hs & Ho).
  apply existsb_exists. exists s. split; [now apply Hincl | exact Ho].
Qed.

Lemma find_none_iff {A : Type} (f : A -> bool) (l : list A) :
  find f l = None <-> forall x, In x l -> f x = false.
Proof.
  split; [apply find_none|].
  induction l as [|a l IH]; intros H; [reflexivity|].
  cbn [find]. rewrite (H a (or_introl eq_refl)).
  apply IH. intros x Hx. apply H. now right.
Qed.

(** A task that finds no slot finds none when more is committed. *)
Lemma placement_none_incl (l l' : list Task) (task : Task) :
  (forall s, In s l -> In s l') ->
  placement l task = None -> placement l' task = None.
Proof.
  intros Hincl. unfold placement.
  assert (Hscan : option_map clock (firstFree l (durationOf task)) = None ->
                  option_map clock (firstFree l' (durationOf task)) = None).
  { unfold firstFree.
    destruct (find _ (candidates (durationOf task))) eqn:E; [discriminate|].
    intros _. rewrite find_none_iff in E.
    assert (E' : find (fun start =>
                   negb (overlapsAny (Int start,
                                      Int (start + durationOf task)) l'))
                   (candidates (durationOf task)) = None).
    { apply find_none_iff. intros x Hx. specialize (E x Hx).
      apply negb_false_iff in E. apply negb_false_iff.
      now apply (overlapsAny_incl _ l l'). }
    now rewrite E'. }
  destruct (preferredTime task) as [p|]; [|exact Hscan].
  destruct (truthy (Some p)); cbn [andb]; [|exact Hscan].
  destruct (insideWindow _); cbn [andb]; [|exact Hscan].
  destruct (overlapsAny (slot p (durationOf task)) l) eqn:E;
    cbn [negb]; [|discriminate].
  rewrite (overlapsAny_incl _ l l' Hincl E). exact Hscan.
Qed.

(** A loop over tasks that find no slot leaves the state as it is. *)
Lemma forEach_nothing_placed (l : list Task) (st : Loop) :
  Forall hasStart (scheduled st) ->
  (forall x, In x l -> placement (scheduled st) x = None) ->
  forEach scheduleOne l st = Ok st.
Proof.
  intros Hst. induction l as [|x r IH]; intros Hnone; [reflexivity|].
  cbn [forEach].
  destruct (scheduleOne_step st x Hst) as (st' & -> & Hres).
  rewrite (Hnone x (or_introl eq_refl)) in Hres. subst st'. cbn [bind].
  apply IH. intros y Hy. apply Hnone. now right.
Qed.

Variable tasks0 : list Task.
Hypothesis unique_ids : NoDup (map id tasks0).

(** What the first run knows at each turn: the committed entries are
    active scheduled records of the store, and every unscheduled record
    whose turn is over found no slot. *)
Lemma first_run_step (x : Task) (r : list Task) (st st' : Loop) :
  Inv "" tasks0 (x :: r) st
  /\ (forall c, In c (scheduled st) ->
                In c (store st) /\ isCommitted c = true)
  /\ (forall y, In y (store st) -> isUnscheduled y = true ->
                ~ In (id y) (map id (x :: r)) ->
                placement (scheduled st) y = None) ->
  scheduleOne st x = Ok st' ->
  Inv "" tasks0 r st'
  /\ (forall c, In c (scheduled st') ->
                In c (store st') /\ isCommitted c = true)
  /\ (forall y, In y (store st') -> isUnscheduled y = true ->
                ~ In (id y) (map id r) ->
                placement (scheduled st') y = None).
Proof.
  intros (HI & HB & HC) Hrun.
  pose proof (Inv_step "" tasks0 unique_ids x r st st' HI Hrun) as HI'.
  split; [exact HI'|].
  assert (Hux : isUnscheduled x = true)
    by (pose proof (inv_pending HI) as H; now inversion H).
  pose proof (Inv_ids "" tasks0 unique_ids _ _ HI) as Hids.
  pose proof (Inv_pending "" tasks0 _ _ x HI (or_introl eq_refl)) as Hxin.
  destruct (scheduleOne_step st x (inv_started HI)) as (st1 & Hrun1 & Hres).
  rewrite Hrun in Hrun1. injection Hrun1 as <-.
  destruct (placement (scheduled st) x) as [s|] eqn:Ep.
  - destruct Hres as (Hstore & Hperm & _).
    destruct (placement_free _ _ _ Ep) as [_ Htruthy].
    rewrite (updateTask_map _ _ _ Hids) in Hstore.
    assert (Hxc : isCommitted (withStart x s) = true).
    { unfold isCommitted. cbn [plannedStartTime completed withStart].
      rewrite Htruthy. unfold isUnscheduled in Hux.
      apply andb_true_iff in Hux. now destruct Hux as [_ ->]. }
    split.
    + intros c Hc. eapply Permutation_in in Hc;
        [|symmetry; exact Hperm].
      destruct Hc as [<-|Hc].
      * split; [|exact Hxc]. rewrite Hstore. apply in_map_iff.
        exists x. split; [|exact Hxin].
        now rewrite String.eqb_refl.
      * destruct (HB c Hc) as [Hcin Hcc]. split; [|exact Hcc].
        rewrite Hstore. apply in_map_iff. exists c. split; [|exact Hcin].
        destruct (String.eqb_spec (id c) (id x)) as [E|E]; [|reflexivity].
        exfalso. rewrite (unique_id _ _ _ Hids Hcin Hxin E) in Hcc.
        unfold isCommitted in Hcc. unfold isUnscheduled in Hux.
        destruct (truthy (plannedStartTime x)); discriminate.
    + intros y Hy Huy Hnot. rewrite Hstore in Hy.
      apply in_map_iff in Hy. destruct Hy as (y0 & Hy0 & Hin0).
      destruct (String.eqb_spec (id y0) (id x)) as [E|E].
      * exfalso. subst y.
        rewrite (unique_id _ _ _ Hids Hin0 Hxin E) in Huy.
        change (merge x (startAt s)) with (withStart x s) in Huy.
        unfold isCommitted in Hxc. unfold isUnscheduled in Huy.
        destruct (truthy (plannedStartTime (withStart x s)));
          discriminate.
      * subst y0.
        apply (placement_none_incl (scheduled st)).
        -- intros c Hc. eapply Permutation_in; [exact Hperm|]. now right.
        -- apply HC; auto. intros [Hx|Hr]; [now apply E | now apply Hnot].
  - subst st'. split; [exact HB|].
    intros y Hy Huy Hnot.
    destruct (String.eqb_spec (id y) (id x)) as [E|E].
    + now rewrite (unique_id _ _ _ Hids Hy Hxin E).
    + apply HC; auto. intros [Hx|Hr]; [now apply E | now apply Hnot].
Qed.

(** After a run, every task still unscheduled finds no slot against the
    active scheduled tasks of the store. *)
Lemma first_run_exhausts (tasks1 : list Task) (toast : AutoToast) :
  autoScheduleTasks tasks0 = Ok (tasks1, toast) ->
  unscheduledOf tasks0 <> [] ->
  forall l, (forall c, In c (scheduledOf tasks1) -> In c l) ->
  forall y, In y tasks1 -> isUnscheduled y = true ->
            placement l y = None.
Proof.
  intros Hrun Hne l Hl y Hy Huy.
  apply autoScheduleTasks_run in Hrun.
  destruct Hrun as [[He _]|(l0 & st' & Hp & Hloop & ->)]; [contradiction|].
  assert (H0 : Inv "" tasks0 (sortedUnscheduled (unscheduledOf tasks0))
                   (mkLoop tasks0 l0 0)
               /\ (forall c, In c (scheduled (mkLoop tasks0 l0 0)) ->
                             In c (store (mkLoop tasks0 l0 0))
                             /\ isCommitted c = true)
               /\ (forall z, In z (store (mkLoop tasks0 l0 0)) ->
                             isUnscheduled z = true ->
                             ~ In (id z)
                                  (map id (sortedUnscheduled
                                             (unscheduledOf tasks0))) ->
                             placement (scheduled (mkLoop tasks0 l0 0)) z
                             = None)).
  { split; [exact (Inv_start "" tasks0 unique_ids l0 Hp)|].
    cbn [store scheduled]. split.
    - intros c Hc. eapply Permutation_in in Hc; [|symmetry; exact Hp].
      now apply filter_In in Hc.
    - intros z Hz Huz Hnot. exfalso. apply Hnot. apply in_map.
      eapply Permutation_in;
        [symmetry; apply sortedUnscheduled_Permutation|].
      apply filter_In. split; assumption. }
  destruct (forEach_invariant
              (fun todo st =>
                 Inv "" tasks0 todo st
                 /\ (forall c, In c (scheduled st) ->
                               In c (store st) /\ isCommitted c = true)
                 /\ (forall z, In z (store st) -> isUnscheduled z = true ->
                               ~ In (id z) (map id todo) ->
                               placement (scheduled st) z = None))
              first_run_step _ _ _ H0 Hloop)
    as (_ & HB & HC).
  apply (placement_none_incl (scheduled st')).
  - intros c Hc. apply Hl. destruct (HB c Hc) as [Hin Hcc].
    apply filter_In. split; assumption.
  - apply HC; auto.
Qed.

End SecondRun.

(** X2. Auto-schedule run again changes nothing: on a store with unique
    ids, the store a run leaves is left as it is by the next run, which
    reports that there was nothing to place or no slot to be found. *)
Theorem auto_schedule_twice (tasks tasks1 : list Task) (toast : AutoToast) :
  NoDup (map id tasks) ->
  autoScheduleTasks tasks = Ok (tasks1, toast) ->
  exists toast2,
    autoScheduleTasks tasks1 = Ok (tasks1, toast2)
    /\ (toast2 = NoUnscheduledTasks \/ toast2 = NoEmptySlots).
Proof.
  intros Hnd Hrun.
  destruct (unscheduledOf tasks) as [|u us] eqn:Eu.
  { assert (tasks1 = tasks) as ->.
    { unfold autoScheduleTasks in Hrun. rewrite Eu in Hrun.
      now injection Hrun as <- _. }
    exists NoUnscheduledTasks. split; [|now left].
    unfold autoScheduleTasks. now rewrite Eu. }
  assert (Hne : unscheduledOf tasks <> []) by (rewrite Eu; discriminate).
  unfold autoScheduleTasks at 1.
  destruct (unscheduledOf tasks1) as [|v vs] eqn:Ev.
  { exists NoUnscheduledTasks. split; [reflexivity | now left]. }
  destruct (sortM_byClock _ (scheduledOf_hasStart tasks1))
    as (l1 & -> & Hp1). cbn [bind].
  assert (Hst : Forall hasStart (scheduled (mkLoop tasks1 l1 0))).
  { cbn. eapply Permutation_Forall; [exact Hp1|].
    apply scheduledOf_hasStart. }
  rewrite (forEach_nothing_placed _ _ Hst).
  - cbn [bind scheduledCount store]. exists NoEmptySlots.
    split; [reflexivity | now right].
  - intros x Hx. cbn [scheduled].
    eapply Permutation_in in Hx;
      [|apply sortedUnscheduled_Permutation].
    rewrite <- Ev in Hx. apply filter_In in Hx. destruct Hx as [Hin Hux].
    apply (first_run_exhausts tasks Hnd tasks1 toast Hrun Hne); auto.
    intros c Hc. eapply Permutation_in; [exact Hp1 | exact Hc].
Qed.

Lemma auto_schedule_twice_witness :
  NoDup (map id Examples.doubleBooked)
  /\ exists tasks1 toast toast2,
      autoScheduleTasks Examples.doubleBooked = Ok (tasks1, toast)
      /\ autoScheduleTasks tasks1 = Ok (tasks1, toast2)
      /\ (toast2 = NoUnscheduledTasks \/ toast2 = NoEmptySlots).
Proof.
  assert (Hnd : NoDup (map id Examples.doubleBooked)).
  { cbn. constructor; [intros [H|[H|[]]]; discriminate H|].
    constructor; [intros [H|[]]; discriminate H|].
    constructor; [intros []|constructor]. }
  split; [exact Hnd|].
  destruct (autoScheduleTasks Examples.doubleBooked)
    as [[tasks1 toast]|] eqn:E; [|discriminate E].
  destruct (auto_schedule_twice Examples.doubleBooked tasks1 toast Hnd E)
    as (toast2 & H2 & Ht).
  exists tasks1, toast, toast2. repeat split; assumption.
Defined.

Section CompletedTasks.

Lemma filter_filter_weaker {A : Type} (p q : A -> bool) (l : list A) :
  (forall a, p a = true -> q a = true) ->
  filter p (filter q l) = filter p l.
Proof.
  intros H. induction l as [|a l IH]; [reflexivity|].
  cbn [filter]. destruct (q a) eqn:Eq; cbn [filter].
  - now rewrite IH.
  - destruct (p a) eqn:Ep; [|exact IH].
    rewrite (H a Ep) in Eq. discriminate.
Qed.

Lemma unscheduledOf_active (tasks : list Task) :
  unscheduledOf (active tasks) = unscheduledOf tasks.
Proof.
  apply filter_filter_weaker. intros t H.
  now apply andb_true_iff in H.
Qed.

Lemma scheduledOf_active (tasks : list Task) :
  scheduledOf (active tasks) = scheduledOf tasks.
Proof.
  apply filter_filter_weaker. intros t H.
  now apply andb_true_iff in H.
Qed.

Lemma map_filter_commute {A : Type} (f : A -> A) (p : A -> bool)
      (l : list A) :
  (forall a, p (f a) = p a) ->
  map f (filter p l) = filter p (map f l).
Proof.
  intros H. induction l as [|a l IH]; [reflexivity|].
  cbn [filter map]. rewrite H. destruct (p a); cbn [map]; now rewrite IH.
Qed.

Lemma updateTask_active (i : string) (s : string) (tasks : list Task) :
  NoDup (map id tasks) ->
  updateTask i (startAt s) (active tasks)
  = active (updateTask i (startAt s) tasks).
Proof.
  intros Hnd. unfold active, clearCompleted. cbn [fst].
  rewrite (updateTask_map _ _ _ Hnd).
  rewrite updateTask_map by now apply NoDup_map_filter.
  apply map_filter_commute. intros t.
  destruct (String.eqb (id t) i); reflexivity.
Qed.

(** The loop on the store without its completed records takes the same
    turns. *)
Lemma forEach_active (l : list Task) :
  forall st st',
    NoDup (map id (store st)) ->
    forEach scheduleOne l st = Ok st' ->
    forEach scheduleOne l
      (mkLoop (active (store st)) (scheduled st) (scheduledCount st))
    = Ok (mkLoop (active (store st')) (scheduled st') (scheduledCount st')).
Proof.
  induction l as [|x r IH]; intros st st' Hnd Hrun.
  - cbn in Hrun. now injection Hrun as <-.
  - cbn [forEach] in *.
    destruct (scheduleOne st x) as [st1|] eqn:E; [|discriminate].
    cbn [bind] in Hrun.
    assert (E' : scheduleOne
                   (mkLoop (active (store st)) (scheduled st)
                           (scheduledCount st)) x
                 = Ok (mkLoop (active (store st1)) (scheduled st1)
                              (scheduledCount st1))
                 /\ NoDup (map id (store st1))).
    { unfold scheduleOne in *. cbn [store scheduled scheduledCount].
      destruct (placeTask (scheduled st) x) as [[s|]|]; cbn [bind] in *;
        [| injection E as <-; auto | discriminate].
      destruct (sortM byClock _) as [l'|]; cbn [bind] in *;
        [|discriminate].
      injection E as <-. cbn [store scheduled scheduledCount].
      split; [|now rewrite updateTask_ids].
      now rewrite (updateTask_active _ _ _ Hnd). }
    destruct E' as [-> Hnd1]. cbn [bind].
    exact (IH st1 st' Hnd1 Hrun).
Qed.

End CompletedTasks.

(** X3. Completed tasks have no part in auto-schedule: on a store with
    unique ids, clearing the completed tasks before the run or after it
    gives the same store and the same report. *)
Theorem auto_schedule_ignores_completed (tasks tasks' : list Task)
        (toast : AutoToast) :
  NoDup (map id tasks) ->
  autoScheduleTasks tasks = Ok (tasks', toast) ->
  autoScheduleTasks (fst (clearCompleted tasks))
  = Ok (fst (clearCompleted tasks'), toast)
  /\ snd (clearCompleted tasks') = snd (clearCompleted tasks).
Proof.
  intros Hnd Hrun.
  assert (Hlen : snd (clearCompleted tasks') = snd (clearCompleted tasks)).
  { destruct (run_facts "" tasks Hnd tasks' toast Hrun) as [Hf _].
    unfold clearCompleted. cbn [snd].
    assert (H : List.length tasks' = List.length tasks
                /\ List.length (filter (fun t => negb (completed t)) tasks')
                   = List.length (filter (fun t => negb (completed t)) tasks)).
    { clear Hrun Hnd. induction Hf as [|t t' l l' Ht _ IH];
        [split; reflexivity|].
      destruct IH as [IH1 IH2]. cbn [List.length filter].
      assert (Hc : completed t' = completed t)
        by (destruct Ht as [->|(s & -> & _)]; reflexivity).
      rewrite Hc. destruct (completed t); cbn [negb List.length];
        split; congruence. }
    destruct H as [-> ->]. reflexivity. }
  split; [|exact Hlen].
  fold (active tasks). fold (active tasks').
  unfold autoScheduleTasks in *.
  rewrite unscheduledOf_active, scheduledOf_active.
  destruct (unscheduledOf tasks) as [|u us] eqn:Eu.
  - now injection Hrun as <- <-.
  - destruct (sortM byClock (scheduledOf tasks)) as [l0|]; cbn [bind] in *;
      [|discriminate].
    destruct (forEach scheduleOne _ (mkLoop tasks l0 0)) as [st'|] eqn:Ef;
      cbn [bind] in Hrun; [|discriminate].
    pose proof (forEach_active _ (mkLoop tasks l0 0) st' Hnd Ef) as Ef'.
    cbn [store scheduled scheduledCount] in Ef'. rewrite Ef'.
    cbn [bind scheduledCount store].
    destruct (scheduledCount st' >? 0); now injection Hrun as <- <-.
Qed.

(** A completed task that holds 08:00: the task that prefers 08:00 is
    placed there, with the completed task in the store or cleared from
    it. *)
Lemma auto_schedule_ignores_completed_witness :
  NoDup (map id Examples.withCompleted)
  /\ autoScheduleTasks Examples.withCompleted
     = Ok ([ Examples.task "d" "medium" None None (Some "08:00") (Some 60)
                           true;
             Examples.task "e" "medium" None (Some "08:00") (Some "08:00")
                           (Some 30) false ],
           AutoScheduled 1)
  /\ autoScheduleTasks (fst (clearCompleted Examples.withCompleted))
     = Ok ([ Examples.task "e" "medium" None (Some "08:00") (Some "08:00")
                           (Some 30) false ],
           AutoScheduled 1).
Proof.
  assert (Hnd : NoDup (map id Examples.withCompleted)).
  { cbn. constructor; [intros [H|[]]; discriminate H|].
    constructor; [intros []|constructor]. }
  split; [exact Hnd|]. split; [reflexivity|].
  exact (proj1 (auto_schedule_ignores_completed Examples.withCompleted _
                  _ Hnd eq_refl)).
Defined.

Section Unschedule.

Lemma merge_noStart_withStart (task : Task) (s : string) :
  plannedStartTime task = None ->
  merge (withStart task s) noStart = task.
Proof.
  intros H. destruct task. cbn in *. now subst.
Qed.

End Unschedule.

(** X4. Unschedule undoes quick-schedule: when quick-schedule has
    placed a task that had no start time, unscheduling that task leaves
    a store that differs from the earlier one in nothing but this: the
    [plannedStartTime] of the record is [null], whether it was [null],
    empty or missing before; and unscheduling the task before it was
    placed does the same. *)
Theorem unschedule_undoes_quick_schedule (taskId timeString : string)
        (tasks tasks' : list Task) (task : Task) :
  findTask taskId tasks = Some task ->
  truthy (plannedStartTime task) = false ->
  quickScheduleTask taskId timeString tasks = Ok (tasks', QuickScheduled) ->
  exists k,
    nth_error tasks k = Some task
    /\ startCleared k tasks (unscheduleTask taskId tasks')
    /\ startCleared k tasks (unscheduleTask taskId tasks).
Proof.
  intros Hfind _ Hrun.
  destruct (quickScheduleTask_scheduled _ _ _ _ Hrun)
    as (task' & Hfind' & -> & _).
  rewrite Hfind in Hfind'. injection Hfind' as <-.
  destruct (updateTask_found taskId (startAt timeString) tasks task Hfind)
    as (k & Hk & Hn & Hup).
  exists k. split; [exact Hn|].
  assert (Hshape : forall v,
             (forall s, withStart v s = withStart task s) ->
             startCleared k tasks (assign tasks k (merge v noStart))).
  { intros v Hv. split.
    - intros j Hj. rewrite (nth_error_assign _ _ _ _ Hn).
      apply Nat.eqb_neq in Hj. now rewrite Hj.
    - exists task, (merge v noStart). split; [exact Hn|].
      split; [now apply (nth_error_assign_same _ _ _ task)|].
      split; [reflexivity|].
      intros s. rewrite <- (Hv s). reflexivity. }
  split.
  - rewrite Hup, merge_startAt. unfold unscheduleTask, updateTask.
    rewrite (findIndex_ids taskId (assign tasks k (withStart task timeString))
               tasks) by (now apply (assign_ids tasks k _ task)).
    rewrite Hk, (nth_error_assign_same _ _ _ _ Hn), assign_assign.
    apply Hshape. reflexivity.
  - unfold unscheduleTask, updateTask. rewrite Hk, Hn.
    apply Hshape. reflexivity.
Qed.

(** Task [b] placed at 10:00 and taken off the timeline again. *)
Lemma unschedule_undoes_quick_schedule_witness :
  quickScheduleTask "b" "10:00" Examples.busyMorning
  = Ok (updateTask "b" (startAt "10:00") Examples.busyMorning,
        QuickScheduled)
  /\ exists k,
       nth_error Examples.busyMorning k
       = Some (Examples.task "b" "medium" None (Some "09:30") None None
                             false)
       /\ startCleared k Examples.busyMorning
            (unscheduleTask "b"
               (updateTask "b" (startAt "10:00") Examples.busyMorning)).
Proof.
  split; [reflexivity|].
  destruct (unschedule_undoes_quick_schedule "b" "10:00"
              Examples.busyMorning
              (updateTask "b" (startAt "10:00") Examples.busyMorning)
              _ eq_refl eq_refl eq_refl) as (k & Hk & Hc & _).
  exists k. split; [exact Hk | exact Hc].
Defined.

Section Partition.

Lemma renderTasks_fold (l : list Task) (p : Partition) :
  fold_left
    (fun p task =>
       if completed task then
         mkPartition (p_unscheduled p)
                     (if truthy (plannedStartTime task)
                      then p_scheduled p ++ [task] else p_scheduled p)
                     (p_completed p ++ [task])
       else if truthy (plannedStartTime task) then
         mkPartition (p_unscheduled p) (p_scheduled p ++ [task])
                     (p_completed p)
       else
         mkPartition (p_unscheduled p ++ [task]) (p_scheduled p)
                     (p_completed p))
    l p
  = mkPartition
      (p_unscheduled p
       ++ filter (fun t => negb (completed t)
                           && negb (truthy (plannedStartTime t))) l)
      (p_scheduled p ++ filter (fun t => truthy (plannedStartTime t)) l)
      (p_completed p ++ filter (fun t => completed t) l).
Proof.
  revert p. induction l as [|t l IH]; intros p.
  - cbn. rewrite !List.app_nil_r. now destruct p.
  - cbn [fold_left]. rewrite IH. cbn [filter].
    destruct (completed t), (truthy (plannedStartTime t));
      cbn [negb andb p_unscheduled p_scheduled p_completed];
      rewrite <- ?List.app_assoc; reflexivity.
Qed.

Lemma renderScheduledTasks_ok (l : list Task) :
  Forall hasStart l ->
  exists blocks, renderScheduledTasks l = Ok blocks
                 /\ map b_id blocks = map id l.
Proof.
  induction 1 as [|t l Ht _ IH]; [now exists []|].
  destruct IH as (bs & Hbs & Hids).
  cbn [renderScheduledTasks]. unfold blockOf at 1.
  unfold hasStart in Ht.
  destruct (plannedStartTime t) as [s|]; [|congruence].
  cbn [split_time bind]. rewrite Hbs. cbn [bind].
  eexists. split; [reflexivity|]. cbn [map b_id]. now rewrite Hids.
Qed.

End Partition.

(** X5. The three lists of the planner.  [renderTasks] keeps the order
    of the store; among the tasks relevant to today the unscheduled
    list holds the active tasks without start time, the completed list
    the completed ones, the timeline every task with a start time, the
    completed ones as well; an active task is in exactly one of the
    unscheduled list and the timeline; and drawing the timeline never
    reads the start time of a task that has none. *)
Theorem planner_partition (today : string) (tasks : list Task) :
  let p := renderTasks today tasks in
  let shown := filter (relevant today) tasks in
  p_unscheduled p
  = filter (fun t => negb (completed t)
                     && negb (truthy (plannedStartTime t))) shown
  /\ p_scheduled p = filter (fun t => truthy (plannedStartTime t)) shown
  /\ p_completed p = filter (fun t => completed t) shown
  /\ Permutation
       (p_unscheduled p ++ filter (fun t => negb (completed t))
                                  (p_scheduled p) ++ p_completed p)
       shown
  /\ exists blocks,
      renderScheduledTasks (p_scheduled p) = Ok blocks
      /\ map b_id blocks = map id (p_scheduled p).
Proof.
  intros p shown. subst p. unfold renderTasks. fold shown.
  rewrite renderTasks_fold.
  cbn [p_unscheduled p_scheduled p_completed app].
  split; [reflexivity|]. split; [reflexivity|]. split; [reflexivity|].
  split.
  - clear. induction shown as [|t l IH]; [constructor|].
    cbn [filter].
    destruct (completed t) eqn:Ec, (truthy (plannedStartTime t)) eqn:Es;
      cbn [negb andb filter app]; rewrite ?Ec; cbn [negb app].
    + rewrite List.app_assoc. rewrite <- Permutation_middle.
      rewrite <- List.app_assoc. now constructor.
    + rewrite List.app_assoc. rewrite <- Permutation_middle.
      rewrite <- List.app_assoc. now constructor.
    + rewrite <- Permutation_middle. now constructor.
    + now constructor.
  - apply renderScheduledTasks_ok. apply Forall_forall. intros t Ht.
    apply filter_In in Ht. now apply truthy_hasStart.
Qed.

Section PixelsAndMinutes.

Lemma Math_round_inject (k : Z) : Math_round (inject_Z k) = k.
Proof.
  destruct (Math_round_bounds (inject_Z k)) as [H1 H2].
  destruct (Z_lt_le_dec (Math_round (inject_Z k)) k) as [Hlt|Hge].
  - assert (H : (inject_Z (Math_round (inject_Z k) + 1) <= inject_Z k)%Q)
      by (rewrite <- Zle_Qle; lia).
    rewrite inject_Z_plus in H. change (inject_Z 1) with 1%Q in H. lra.
  - destruct (Z_le_lt_eq_dec _ _ Hge) as [Hgt|Heq]; [|now symmetry].
    assert (H : (inject_Z (k + 1) <= inject_Z (Math_round (inject_Z k)))%Q)
      by (rewrite <- Zle_Qle; lia).
    rewrite inject_Z_plus in H. change (inject_Z 1) with 1%Q in H. lra.
Qed.

(** A minute on the 15-minute grid snaps to itself. *)
Lemma snap_grid (t : Z) :
  t mod 15 = 0 -> Math_round (inject_Z t / 15)%Q * 15 = t.
Proof.
  intros H.
  assert (E : t = (t / 15) * 15)
    by (pose proof (Z.div_mod t 15 ltac:(lia)); lia).
  assert (Eq : (inject_Z t / 15 == inject_Z (t / 15))%Q).
  { rewrite E at 1. rewrite inject_Z_mult.
    change (inject_Z 15) with 15%Q. field. }
  unfold Math_round.
  rewrite (Qfloor_comp _ _ (Qplus_comp _ _ Eq _ _ (Qeq_refl _))).
  fold (Math_round (inject_Z (t / 15))). rewrite Math_round_inject. lia.
Qed.

Lemma blockOf_top (task : Task) (s : string) (t : Z) :
  plannedStartTime task = Some s ->
  toMinutes (hour_minute s) = Int t ->
  exists b top,
    blockOf task = Ok b /\ b_top b = Some top
    /\ (top == inject_Z t + 16)%Q
    /\ (b_height b == inject_Z (durationOf task))%Q.
Proof.
  intros Hs Ht. unfold blockOf. rewrite Hs. cbn [split_time bind].
  rewrite Ht. cbn [sub pixels option_map]. eexists. eexists.
  split; [reflexivity|]. split; [reflexivity|].
  cbn [b_height]. unfold inject, timeSlotHeight, startHour.
  split.
  - replace (t - 0 * 60) with t by lia. field.
  - field.
Qed.

End PixelsAndMinutes.

(** X6. The timeline and the drop agree on where a minute is: a drop
    at the pixel where [renderScheduledTasks] draws the top of a task
    lands on the multiple of 15 nearest to the minute [t] the task
    starts at, and on [t] itself, written as [HH:MM], when [t] is on
    the 15-minute grid of the day. *)
Theorem drop_where_drawn (task : Task) (b : Block) (top : Q)
        (clientY rectTop scrollTop : Q) (today : string)
        (tasks : list Task) :
  blockOf task = Ok b ->
  b_top b = Some top ->
  (clientY - rectTop + scrollTop == top)%Q ->
  exists t,
    fst (interval task) = Int t
    /\ snappedMinutes clientY rectTop scrollTop
       = Math_round (inject_Z t / 15)%Q * 15
    /\ (t mod 15 = 0 -> 0 <= t < 24 * 60 ->
        snappedMinutes clientY rectTop scrollTop = t
        /\ handleDrop (Some task) clientY rectTop scrollTop today tasks
           = (updateTask (id task) (dropUpdates today task (clock t)) tasks,
              true)
        /\ toMinutes (hour_minute (clock t)) = Int t).
Proof.
  intros Hb Htop Hdrop.
  assert (Hst : exists s t, plannedStartTime task = Some s
                            /\ toMinutes (hour_minute s) = Int t).
  { unfold blockOf in Hb.
    destruct (plannedStartTime task) as [s|]; [|discriminate].
    cbn [split_time bind] in Hb. injection Hb as <-.
    cbn [b_top] in Htop.
    destruct (toMinutes (hour_minute s)) as [|t] eqn:E; [discriminate|].
    exists s, t. split; [reflexivity | exact E]. }
  destruct Hst as (s & t & Hs & Ht).
  destruct (blockOf_top task s t Hs Ht) as (b' & top' & Hb' & Htop' & Heq & _).
  rewrite Hb in Hb'. injection Hb' as <-.
  rewrite Htop in Htop'. injection Htop' as <-.
  exists t.
  split; [unfold interval, slot; rewrite Hs; exact Ht|].
  assert (Hsnap : snappedMinutes clientY rectTop scrollTop
                  = Math_round (inject_Z t / 15)%Q * 15).
  { rewrite snappedMinutes_offset. unfold Math_round. f_equal.
    apply Qfloor_comp. rewrite Hdrop, Heq. field. }
  split; [exact Hsnap|].
  intros Hgrid Hday.
  rewrite (snap_grid t Hgrid) in Hsnap.
  split; [exact Hsnap|]. split.
  - unfold handleDrop. rewrite Hsnap.
    assert (E1 : (t / 60 <? startHour) = false).
    { apply Z.ltb_ge. unfold startHour. apply Z.div_pos; lia. }
    assert (E2 : (t / 60 >=? endHour) = false).
    { rewrite Z.geb_leb. apply Z.leb_gt. unfold endHour.
      apply Z.div_lt_upper_bound; lia. }
    rewrite E1, E2. reflexivity.
  - pose proof (slot_clock t 0 ltac:(lia)) as H.
    unfold slot in H. now injection H as H _.
Qed.

(** A task drawn at 09:30, pixel 586 of the timeline, dropped there. *)
Lemma drop_where_drawn_witness :
  exists b top,
    blockOf (Examples.task "a" "low" None None (Some "09:30") (Some 30)
                           false) = Ok b
    /\ b_top b = Some top
    /\ ((586 # 1) - 0 + 0 == top)%Q
    /\ exists t, snappedMinutes (586 # 1) 0 0
                 = Math_round (inject_Z t / 15)%Q * 15.
Proof.
  eexists. eexists.
  split; [vm_compute; reflexivity|].
  split; [reflexivity|].
  split; [reflexivity|].
  destruct (drop_where_drawn
              (Examples.task "a" "low" None None (Some "09:30") (Some 30)
                             false)
              _ _ (586 # 1) 0 0 Examples.today []
              eq_refl eq_refl ltac:(vm_compute; reflexivity))
    as (t & _ & H & _).
  exists t. exact H.
Defined.

Section ResizeGesture.

Lemma handleResizeMove_active (task : Task) (h y : Z) (r : Resize) :
  resizingTask r = Some task -> elementHeight r = Some h ->
  handleResizeMove y r
  = mkResize (Some task) (resizeStartY r) (resizeStartHeight r)
             (Some (Z.max 15 (resizeStartHeight r + (y - resizeStartY r)))).
Proof.
  intros Ht Hh. unfold handleResizeMove. now rewrite Ht, Hh.
Qed.

Lemma moves_keep (task : Task) (ys : list Z) :
  forall r,
    resizingTask r = Some task ->
    (exists h, elementHeight r = Some h) ->
    let r' := fold_left (fun r y => handleResizeMove y r) ys r in
    resizingTask r' = Some task
    /\ resizeStartY r' = resizeStartY r
    /\ resizeStartHeight r' = resizeStartHeight r
    /\ elementHeight r'
       = match rev ys with
         | [] => elementHeight r
         | y :: _ =>
             Some (Z.max 15 (resizeStartHeight r + (y - resizeStartY r)))
         end.
Proof.
  induction ys as [|y ys IH] using rev_ind; intros r Ht Hh; cbn zeta.
  - cbn. auto.
  - rewrite fold_left_app, rev_app_distr. cbn [fold_left rev app].
    destruct (IH r Ht Hh) as (H1 & H2 & H3 & H4). cbn zeta in *.
    assert (Hex : exists h, elementHeight
                    (fold_left (fun r y => handleResizeMove y r) ys r)
                  = Some h).
    { rewrite H4. destruct (rev ys); [exact Hh | eauto]. }
    destruct Hex as [h Hh'].
    rewrite (handleResizeMove_active task h y _ H1 Hh').
    cbn [resizingTask resizeStartY resizeStartHeight elementHeight].
    rewrite H2, H3. auto.
Qed.

End ResizeGesture.

(** X7. A resize gesture commits by the last pointer position alone:
    after grabbing the handle of a task of the store at pointer height
    [y0] on an element [h0] pixels high, any moves and the release, the
    task has duration [round(h / 15) * 15] floored at 15, where [h] is
    [h0] when the pointer never moved and [max(15, h0 + y - y0)] for
    the last position [y]; the gesture is over; and the duration a
    release without move commits is the one the element shows exactly
    when that is a multiple of 15 and at least 15. *)
Theorem resize_gesture (task current : Task) (y0 h0 : Z) (ys : list Z)
        (tasks : list Task) :
  findTask (id task) tasks = Some current ->
  let h := match rev ys with
           | [] => h0
           | y :: _ => Z.max 15 (h0 + (y - y0))
           end in
  let r := fold_left (fun r y => handleResizeMove y r) ys
                     (handleResizeStart y0 task h0) in
  (exists k,
      nth_error tasks k = Some current
      /\ fst (releaseResize r tasks)
         = assign tasks k (withDuration current (resizedDuration h)))
  /\ resizingTask (snd (releaseResize r tasks)) = None
  /\ 15 <= resizedDuration h
  /\ (forall d, resizedDuration d = d <-> d mod 15 = 0 /\ 15 <= d).
Proof.
  intros Hfind h r.
  destruct (moves_keep task ys (handleResizeStart y0 task h0) eq_refl
              (ex_intro _ h0 eq_refl)) as (H1 & _ & _ & H4).
  cbn zeta in H1, H4. fold r in H1, H4.
  cbn [handleResizeStart resizeStartHeight resizeStartY elementHeight] in H4.
  assert (Hh : elementHeight r = Some h)
    by (rewrite H4; subst h; destruct (rev ys); reflexivity).
  unfold releaseResize, handleResizeEnd. rewrite H1, Hh.
  cbn [fst snd resizingTask].
  split.
  { destruct (updateTask_found _ (durationTo (resizedDuration h))
                tasks current Hfind) as (k & _ & Hk & ->).
    exists k. split; [exact Hk|]. now rewrite merge_durationTo. }
  split; [reflexivity|].
  split; [apply resizedDuration_floor|].
  intros d. rewrite resizedDuration_eq. split.
  - intros E. split; [|lia].
    destruct (Z.max_spec 15 (Math_round (inject_Z d / 15)%Q * 15))
      as [[_ Hm]|[_ Hm]]; rewrite Hm in E.
    + rewrite <- E. apply Z.mod_mul. lia.
    + now subst d.
  - intros [Hmod Hle]. rewrite (snap_grid d Hmod). lia.
Qed.

Lemma resize_gesture_witness :
  findTask "a" Examples.busyMorning
  = Some (Examples.task "a" "medium" None None (Some "09:00") (Some 60) false)
  /\ exists k,
      fst (releaseResize
             (fold_left (fun r y => handleResizeMove y r) [310; 322]
                (handleResizeStart 300
                   (Examples.task "a" "medium" None None (Some "09:00")
                                  (Some 60) false) 60))
             Examples.busyMorning)
      = assign Examples.busyMorning k
          (withDuration
             (Examples.task "a" "medium" None None (Some "09:00") (Some 60)
                            false)
             75).
Proof.
  split; [reflexivity|].
  destruct (proj1 (resize_gesture
                     (Examples.task "a" "medium" None None (Some "09:00")
                                    (Some 60) false)
                     _ 300 60 [310; 322] Examples.busyMorning eq_refl))
    as (k & _ & H).
  exists k. exact H.
Defined.

Section Labels.

Lemma formatTime_afternoon (hour minute : Z) :
  12 <= hour -> formatTime (hour + 12) minute = formatTime hour minute.
Proof.
  intros H. unfold formatTime.
  assert (E1 : (hour + 12 >=? 12) = true) by (rewrite Z.geb_leb; lia).
  assert (E2 : (hour >=? 12) = true) by (rewrite Z.geb_leb; lia).
  rewrite E1, E2.
  rewrite !Z.rem_mod_nonneg by lia.
  replace ((hour + 12) mod 12) with (hour mod 12); [reflexivity|].
  replace (hour + 12) with (hour + 1 * 12) by lia.
  now rewrite Z.mod_add by lia.
Qed.

Lemma distinct_NoDup (l : list string) : distinct l = true -> NoDup l.
Proof.
  induction l as [|x r IH]; intros H; [constructor|].
  cbn [distinct] in H. apply andb_true_iff in H. destruct H as [Hx Hr].
  constructor; [|now apply IH].
  intros Hin. apply negb_true_iff in Hx.
  assert (existsb (String.eqb x) r = true).
  { apply existsb_exists. exists x. split; [exact Hin|].
    apply String.eqb_refl. }
  congruence.
Qed.

Lemma dayLabels_NoDup : NoDup dayLabels.
Proof. apply distinct_NoDup. vm_compute. reflexivity. Qed.

Lemma NoDup_map_injective {A B : Type} (f : A -> B) (l : list A)
      (a b : A) :
  NoDup (map f l) -> In a l -> In b l -> f a = f b -> a = b.
Proof.
  induction l as [|x l IH]; intros Hnd Ha Hb E; [contradiction|].
  cbn [map] in Hnd. inversion Hnd as [|? ? Hnot Hnd']; subst.
  destruct Ha as [<-|Ha], Hb as [<-|Hb].
  - reflexivity.
  - exfalso. apply Hnot. rewrite E. now apply in_map.
  - exfalso. apply Hnot. rewrite <- E. now apply in_map.
  - now apply IH.
Qed.

End Labels.

(** X8. The 12-hour labels of the timeline: within a day two times with
    the same label are the same time, but an hour from 24 on reads as
    the afternoon hour twelve hours before, so that the end label of a
    task that runs to midnight or beyond is that of a time after
    noon. *)
Theorem time_labels :
  (forall h m h' m',
      0 <= h < 24 -> 0 <= m < 60 -> 0 <= h' < 24 -> 0 <= m' < 60 ->
      formatTime h m = formatTime h' m' -> h = h' /\ m = m')
  /\ (forall hour minute,
        12 <= hour ->
        formatTime (hour + 12) minute = formatTime hour minute)
  /\ (forall startH startM duration,
        24 * 60 <= startH * 60 + startM + duration ->
        formatEndTime startH startM duration
        = formatTime ((startH * 60 + startM + duration) / 60 - 12)
                     (Z.rem (startH * 60 + startM + duration) 60)).
Proof.
  split.
  { intros h m h' m' Hh Hm Hh' Hm' E.
    assert (Hin : forall t, 0 <= t < 1440 ->
                            In t (map Z.of_nat (seq 0 1440))).
    { intros t Ht. apply in_map_iff. exists (Z.to_nat t).
      split; [lia|]. apply in_seq. lia. }
    assert (Hq : forall a b, 0 <= a < 24 -> 0 <= b < 60 ->
                 (a * 60 + b) / 60 = a /\ Z.rem (a * 60 + b) 60 = b).
    { intros a b Ha Hb. rewrite Z.rem_mod_nonneg by lia.
      split.
      - rewrite Z.add_comm, Z.div_add by lia.
        rewrite Z.div_small by lia. lia.
      - rewrite Z.add_comm, Z.mod_add by lia. apply Z.mod_small. lia. }
    assert (Et : h * 60 + m = h' * 60 + m').
    { apply (NoDup_map_injective
               (fun t => formatTime (t / 60) (Z.rem t 60))
               (map Z.of_nat (seq 0 1440))).
      - exact dayLabels_NoDup.
      - apply Hin. lia.
      - apply Hin. lia.
      - cbn beta.
        destruct (Hq h m Hh Hm) as [-> ->].
        destruct (Hq h' m' Hh' Hm') as [-> ->]. exact E. }
    lia. }
  split; [apply formatTime_afternoon|].
  intros startH startM duration He. unfold formatEndTime.
  set (e := startH * 60 + startM + duration) in *.
  assert (24 <= e / 60) by (apply Z.div_le_lower_bound; lia).
  replace (e / 60) with (e / 60 - 12 + 12) at 1 by lia.
  apply formatTime_afternoon. lia.
Qed.

(** X9. Two tasks that [highlightActiveTasks] both marks as under way
    at the same minute overlap; so among the active tasks scheduled for
    today of a store without overlaps at most one is marked. *)
Theorem one_current_task :
  (forall now a b,
      isCurrentTask now a = true -> isCurrentTask now b = true ->
      overlaps (interval a) (interval b) = true)
  /\ (forall today tasks now i j a b,
        disjointToday today tasks ->
        i <> j ->
        nth_error tasks i = Some a -> nth_error tasks j = Some b ->
        scheduledToday today a = true -> scheduledToday today b = true ->
        isCurrentTask now a = true -> isCurrentTask now b = false).
Proof.
  assert (H : forall now a b,
             isCurrentTask now a = true -> isCurrentTask now b = true ->
             overlaps (interval a) (interval b) = true).
  { intros now a b Ha Hb. unfold isCurrentTask, interval, slot in *.
    destruct (plannedStartTime a) as [sa|]; [|discriminate].
    destruct (plannedStartTime b) as [sb|]; [|discriminate].
    destruct (truthy (Some sa)); [|discriminate].
    destruct (truthy (Some sb)); [|discriminate].
    destruct (toMinutes (hour_minute sa)) as [|ta]; [discriminate|].
    destruct (toMinutes (hour_minute sb)) as [|tb]; [discriminate|].
    unfold overlaps, gt, ge, le, lt, add in *. cbn [fst snd] in *.
    apply andb_true_iff in Ha, Hb.
    destruct Ha as [Ha1 Ha2], Hb as [Hb1 Hb2].
    apply Z.leb_le in Ha1, Hb1. apply Z.ltb_lt in Ha2, Hb2.
    apply andb_true_iff. split; apply Z.ltb_lt; lia. }
  split; [exact H|].
  intros today tasks now i j a b Hdis Hij Hi Hj Hsa Hsb Ha.
  destruct (isCurrentTask now b) eqn:Hb; [|reflexivity].
  specialize (H now a b Ha Hb).
  rewrite (Hdis i j a b Hij Hi Hj Hsa Hsb) in H. discriminate H.
Qed.

Section ModalFields.

Lemma toString_nonempty (n : Z) :
  0 <= n -> exists c r, toString n = String c r.
Proof.
  intros Hn. destruct n as [|p|p]; [| |lia].
  - now exists "0"%char, EmptyString.
  - unfold toString. cbn [Z.to_int NilZero.string_of_int].
    unfold NilZero.string_of_uint.
    pose proof (DecimalPos.Unsigned.to_uint_nonnil p) as Hnil.
    destruct (Pos.to_uint p); try congruence; cbn; eauto.
Qed.

(** [parseInt] reads back what [toString] prints. *)
Lemma parseInt_toString (n : Z) : 0 <= n -> parseInt (toString n) = Int n.
Proof.
  intros Hn.
  destruct (toString_digits n Hn) as (d & Hd & Hv).
  destruct (toString_nonempty n Hn) as (c & r & Es).
  unfold parseInt. rewrite Es in *.
  cbn [NilEmpty.uint_of_string] in Hd.
  destruct (uint_of_char_some _ _ _ Hd) as [d0 Hd0].
  pose proof Hd as Hd'. rewrite Hd0 in Hd'.
  destruct (digit_not_blank_or_sign _ _ _ Hd') as (Hb & Hp & Hm).
  cbn [trimStart]. rewrite Hb.
  assert (E : prefix_value (String c r) = Int n).
  { unfold prefix_value.
    rewrite (digit_prefix_digits (String c r) d) by exact Hd.
    unfold digits. cbn [NilEmpty.uint_of_string]. rewrite Hd, Hv.
    reflexivity. }
  assert (Hr : r = EmptyString
               \/ exists p r',
                    r = String p r'
                    /\ In p ["0"; "1"; "2"; "3"; "4"; "5"; "6"; "7"; "8";
                             "9"]%char).
  { destruct r as [|p r']; [now left|]. right. exists p, r'.
    split; [reflexivity|]. cbn [NilEmpty.uint_of_string] in Hd0.
    destruct (uint_of_char_some _ _ _ Hd0) as [d1 Hd1].
    rewrite Hd1 in Hd0. exact (digit_cases _ _ _ Hd0). }
  apply digit_cases in Hd'. cbn [In] in Hd'.
  repeat (destruct Hd' as [<-|Hd']; [|]); try contradiction;
    try exact E.
  destruct Hr as [->|(p & r' & -> & Hp')]; [exact E|].
  cbn [In] in Hp'.
  repeat (destruct Hp' as [<-|Hp']; [exact E|]). contradiction.
Qed.

Lemma num_or_zero (x : Z) : num_or (Int x) 0 = x.
Proof. now destruct x. Qed.

End ModalFields.

(** X10. Opening a task in the form and saving it with the duration
    fields as the form filled them keeps the duration, floored at 15:
    the hours and minutes the form shows add up to the task's duration
    again. *)
Theorem modal_duration_round_trip (f : UIController.Form) (t : Task) :
  UIController.taskDurationHours f
  = parseInt (fst (UIController.modalDuration (Some t))) ->
  UIController.taskDurationMinutes f
  = parseInt (snd (UIController.modalDuration (Some t))) ->
  0 <= durationOf t ->
  UIController.formDuration f = Z.max 15 (durationOf t)
  /\ (forall d, plannedDuration t = Some d -> 15 <= d ->
                UIController.formDuration f = d).
Proof.
  intros Hh Hm Hd.
  assert (E : UIController.formDuration f = Z.max 15 (durationOf t)).
  { unfold UIController.formDuration. rewrite Hh, Hm.
    unfold UIController.modalDuration. cbn [fst snd].
    rewrite !parseInt_toString, !num_or_zero.
    - rewrite Z.rem_mod_nonneg by lia.
      pose proof (Z.div_mod (durationOf t) 60 ltac:(lia)) as Hdm.
      replace (durationOf t / 60 * 60 + durationOf t mod 60)
        with (durationOf t) by lia.
      destruct (Z.ltb_spec (durationOf t) 15); lia.
    - rewrite Z.rem_mod_nonneg by lia. apply Z.mod_pos_bound. lia.
    - apply Z.div_pos; lia. }
  split; [exact E|].
  intros d Hpd Hle. rewrite E. unfold durationOf. rewrite Hpd.
  rewrite num_or_Int_nonzero by lia. lia.
Qed.

Lemma modal_duration_round_trip_witness :
  UIController.formDuration
    (UIController.mkForm "t" "" "low" "" "" ""
       (parseInt "1") (parseInt "35") "" [] "a")
  = Z.max 15 95.
Proof.
  exact (proj1 (modal_duration_round_trip
                  (UIController.mkForm "t" "" "low" "" "" ""
                     (parseInt "1") (parseInt "35") "" [] "a")
                  (Examples.task "a" "low" None None None (Some 95) false)
                  eq_refl eq_refl ltac:(vm_compute; discriminate))).
Defined.

(* ================================================================== *)
(** ** Further properties of the task store, the accounts and the
       categories *)
(* ================================================================== *)

Section StoreIds.

Lemma bump_order_ids (l : list Task) : map id (map bump_order l) = map id l.
Proof. rewrite map_map. reflexivity. Qed.

Lemma mapGet_Some (i : string) (tasks : list Task) (t : Task) :
  mapGet i tasks = Some t -> In t tasks /\ id t = i.
Proof.
  induction tasks as [|x r IH]; [discriminate|].
  cbn [mapGet]. destruct (mapGet i r) as [t'|].
  - intros H. injection H as ->. destruct (IH eq_refl). split; [now right|assumption].
  - destruct (String.eqb_spec (id x) i); [|discriminate].
    intros H. injection H as ->. split; [now left|assumption].
Qed.

Lemma mapGet_None (i : string) (tasks : list Task) :
  mapGet i tasks = None <-> ~ In i (map id tasks).
Proof.
  induction tasks as [|x r IH]; cbn [mapGet map In]; [tauto|].
  destruct (mapGet i r) as [t'|] eqn:E.
  - split; [discriminate|]. intros H. exfalso.
    destruct (mapGet_Some _ _ _ E) as [Hin Hid].
    apply H. right. rewrite <- Hid. now apply in_map.
  - destruct (String.eqb_spec (id x) i) as [Ei|Ei].
    + split; [discriminate|]. intros H. exfalso. apply H. now left.
    + split; [|reflexivity]. intros _ [H|H]; [contradiction|].
      now apply IH in H.
Qed.

Lemma mapGet_unique (tasks : list Task) (t : Task) :
  NoDup (map id tasks) -> In t tasks -> mapGet (id t) tasks = Some t.
Proof.
  induction tasks as [|x r IH]; intros Hnd Hin; [contradiction|].
  cbn [map] in Hnd. inversion Hnd as [|? ? Hx Hr]; subst.
  cbn [mapGet]. destruct Hin as [->|Hin].
  - assert (E : mapGet (id t) r = None) by now apply mapGet_None.
    rewrite E, String.eqb_refl. reflexivity.
  - now rewrite (IH Hr Hin).
Qed.

Lemma lastIndex_None (i : string) (l : list string) (from : Z) :
  ~ In i l -> lastIndex i l from = None.
Proof.
  revert from. induction l as [|x r IH]; intros from H; [reflexivity|].
  cbn [lastIndex]. rewrite IH by (intros Hin; apply H; now right).
  destruct (String.eqb_spec x i) as [E|E]; [|reflexivity].
  exfalso. apply H. now left.
Qed.

Lemma lastIndex_nth (i : string) (l : list string) (n : nat) (from : Z) :
  NoDup l -> nth_error l n = Some i ->
  lastIndex i l from = Some (from + Z.of_nat n).
Proof.
  revert n from. induction l as [|x r IH]; intros n from Hnd Hn.
  - destruct n; discriminate.
  - inversion Hnd as [|? ? Hx Hr]; subst. cbn [lastIndex].
    destruct n as [|n]; cbn [nth_error] in Hn.
    + injection Hn as ->. rewrite lastIndex_None by assumption.
      rewrite String.eqb_refl. f_equal. lia.
    + rewrite (IH n (from + 1) Hr Hn). f_equal. lia.
Qed.

Lemma lastIndex_In (i : string) (l : list string) (from : Z) :
  In i l -> exists k, lastIndex i l from = Some k.
Proof.
  revert from. induction l as [|x r IH]; intros from H; [contradiction|].
  cbn [lastIndex]. destruct (lastIndex i r (from + 1)) as [k|] eqn:E;
    [eauto|].
  destruct (String.eqb_spec x i) as [Ex|Ex]; [eauto|].
  destruct H as [H|H]; [contradiction|].
  destruct (IH (from + 1) H) as [k Hk]. congruence.
Qed.

(** The ids of [reorderTasks]: the listed ids that name a record, in
    the listed order, then the ids of the records not listed. *)
Lemma reorderTasks_ids (taskIds : list string) (tasks : list Task) :
  map id (reorderTasks taskIds tasks)
  = (filter (fun i => existsb (String.eqb i) (map id tasks)) taskIds
     ++ map id (filter (fun task =>
                          negb (existsb (String.eqb (id task)) taskIds))
                       tasks))%list.
Proof.
  unfold reorderTasks. rewrite map_app. f_equal.
  assert (H : forall l,
             incl l taskIds ->
             map id (flat_map
                       (fun i =>
                          match mapGet i tasks, lastIndex i taskIds 0 with
                          | Some task, Some index => [withOrder task index]
                          | _, _ => []
                          end) l)
             = filter (fun i => existsb (String.eqb i) (map id tasks)) l).
  { induction l as [|x r IH]; intros Hl; [reflexivity|].
    cbn [flat_map filter]. rewrite map_app, IH
      by (intros y Hy; apply Hl; now right).
    destruct (lastIndex_In x taskIds 0 (Hl x (or_introl eq_refl)))
      as [k ->].
    destruct (mapGet x tasks) as [t|] eqn:E.
    - destruct (mapGet_Some _ _ _ E) as [Hin Hid].
      assert (Ex : existsb (String.eqb x) (map id tasks) = true).
      { apply existsb_exists. exists x. split; [|apply String.eqb_refl].
        rewrite <- Hid. now apply in_map. }
      rewrite Ex. cbn. now rewrite Hid.
    - apply mapGet_None in E.
      assert (Ex : existsb (String.eqb x) (map id tasks) = false).
      { apply not_true_is_false. intros H. apply existsb_exists in H.
        destruct H as (y & Hy & Exy). apply String.eqb_eq in Exy.
        now subst. }
      rewrite Ex. reflexivity. }
  apply H. apply incl_refl.
Qed.

Lemma toggled_id (t : Task) : id (toggled t) = id t.
Proof. reflexivity. Qed.

Lemma toggleSubtask_ids (i : string) (k : number) (tasks : list Task) :
  map id (toggleSubtask i k tasks) = map id tasks.
Proof.
  unfold toggleSubtask. destruct k as [|z]; [reflexivity|].
  destruct (z <? 0); [reflexivity|].
  apply mutateTask_ids. intros t.
  now destruct (nth_error (subtasks t) (Z.to_nat z)).
Qed.

Lemma reorderTasks_NoDup (taskIds : list string) (tasks : list Task) :
  NoDup (map id tasks) -> NoDup taskIds ->
  NoDup (map id (reorderTasks taskIds tasks)).
Proof.
  intros Hnd Hids. rewrite reorderTasks_ids.
  apply NoDup_app.
  - now apply NoDup_filter.
  - now apply NoDup_map_filter.
  - intros x Hx Hy. apply filter_In in Hx. destruct Hx as [Hx _].
    apply in_map_iff in Hy. destruct Hy as (t & <- & Ht).
    apply filter_In in Ht. destruct Ht as [_ Ht].
    apply negb_true_iff in Ht.
    assert (E : existsb (String.eqb (id t)) taskIds = true).
    { apply existsb_exists. exists (id t).
      split; [assumption | apply String.eqb_refl]. }
    congruence.
Qed.

End StoreIds.

(** X11. Ids stay unique: on a store in which no two records share an
    id, every operation of the task store leaves one in which none do,
    [createTask] and [duplicateTask] as long as the id they generate is
    not one of the store, and [reorderTasks] as long as the list of ids
    it is given names none twice. *)
Theorem unique_ids_kept (tasks : list Task) :
  NoDup (map id tasks) ->
  (forall newId now data,
      findTask newId tasks = None ->
      NoDup (map id (createTask newId now data tasks)))
  /\ (forall newId now i,
        findTask newId tasks = None ->
        NoDup (map id (duplicateTask newId now i tasks)))
  /\ (forall i u, NoDup (map id (updateTask i u tasks)))
  /\ (forall i, NoDup (map id (deleteTask i tasks)))
  /\ (forall i, NoDup (map id (toggleComplete i tasks)))
  /\ (forall i k, NoDup (map id (toggleSubtask i k tasks)))
  /\ NoDup (map id (fst (clearCompleted tasks)))
  /\ (forall taskIds,
        NoDup taskIds -> NoDup (map id (reorderTasks taskIds tasks)))
  /\ (forall i, NoDup (map id (unscheduleTask i tasks))).
Proof.
  intros Hnd. repeat split.
  - intros newId now data Hnew. unfold createTask. cbn [map id].
    rewrite bump_order_ids. constructor; [|exact Hnd].
    now apply findTask_absent.
  - intros newId now i Hnew. unfold duplicateTask.
    destruct (findTask i tasks); [|exact Hnd].
    cbn [map duplicateOf id]. rewrite bump_order_ids.
    constructor; [|exact Hnd]. now apply findTask_absent.
  - intros i u. now rewrite updateTask_ids.
  - intros i. now apply NoDup_map_filter.
  - intros i. unfold toggleComplete.
    now rewrite (mutateTask_ids i toggled tasks toggled_id).
  - intros i k. now rewrite toggleSubtask_ids.
  - now apply NoDup_map_filter.
  - intros taskIds Hids. now apply reorderTasks_NoDup.
  - intros i. unfold unscheduleTask. now rewrite updateTask_ids.
Qed.

Lemma unique_ids_kept_witness :
  NoDup (map id (createTask "c" "2026-11-02T09:00:00.000Z"
                   (mkTaskData "t" "" "low" None None None 30 "" [])
                   Examples.endToEnd)).
Proof.
  refine (proj1 (unique_ids_kept Examples.endToEnd _) "c" _ _ eq_refl).
  vm_compute. repeat constructor; cbn; intuition discriminate.
Defined.

(** X12. Reordering loses nothing: given a list of ids without
    repetition, [reorderTasks] keeps the records of a store with unique
    ids, each one once; the listed ones come first, in the listed
    order, with their position as [order], the others after them,
    unchanged.  A listed id that names no record is skipped. *)
Theorem reorder_keeps_records (taskIds : list string) (tasks : list Task) :
  NoDup (map id tasks) ->
  NoDup taskIds ->
  Permutation (map id (reorderTasks taskIds tasks)) (map id tasks)
  /\ map id (reorderTasks taskIds tasks)
     = (filter (fun i => existsb (String.eqb i) (map id tasks)) taskIds
        ++ filter (fun i => negb (existsb (String.eqb i) taskIds))
                  (map id tasks))%list
  /\ (forall t n,
        In t tasks -> nth_error taskIds n = Some (id t) ->
        In (withOrder t (Z.of_nat n)) (reorderTasks taskIds tasks))
  /\ (forall t,
        In t tasks -> ~ In (id t) taskIds ->
        In t (reorderTasks taskIds tasks)).
Proof.
  intros Hnd Hids.
  assert (Eids : map id (reorderTasks taskIds tasks)
     = (filter (fun i => existsb (String.eqb i) (map id tasks)) taskIds
        ++ filter (fun i => negb (existsb (String.eqb i) taskIds))
                  (map id tasks))%list).
  { rewrite reorderTasks_ids. f_equal.
    clear. induction tasks as [|t r IH]; [reflexivity|].
    cbn [filter map].
    destruct (negb (existsb (String.eqb (id t)) taskIds));
      cbn [map]; now rewrite IH. }
  split; [|split; [exact Eids|split]].
  - apply NoDup_Permutation; [now apply reorderTasks_NoDup | exact Hnd |].
    intros x. rewrite Eids, in_app_iff, !filter_In, negb_true_iff.
    split.
    + intros [[_ H]|[H _]]; [|exact H].
      apply existsb_exists in H. destruct H as (y & Hy & E).
      apply String.eqb_eq in E. now subst.
    + intros Hx.
      destruct (existsb (String.eqb x) taskIds) eqn:E; [left|now right].
      apply existsb_exists in E. destruct E as (y & Hy & E).
      apply String.eqb_eq in E. subst y. split; [exact Hy|].
      apply existsb_exists. exists x. split; [exact Hx|].
      apply String.eqb_refl.
  - intros t n Ht Hn. unfold reorderTasks. apply in_or_app. left.
    apply in_flat_map. exists (id t).
    split; [now apply nth_error_In in Hn|].
    rewrite (mapGet_unique tasks t Hnd Ht).
    rewrite (lastIndex_nth (id t) taskIds n 0 Hids Hn).
    now left.
  - intros t Ht Hno. unfold reorderTasks. apply in_or_app. right.
    apply filter_In. split; [exact Ht|]. apply negb_true_iff.
    apply not_true_is_false. intros H. apply existsb_exists in H.
    destruct H as (y & Hy & E). apply String.eqb_eq in E. now subst.
Qed.

Lemma reorder_keeps_records_witness :
  Permutation
    (map id (reorderTasks ["2"; "zz"; "1"] Examples.endToEnd))
    (map id Examples.endToEnd).
Proof.
  refine (proj1 (reorder_keeps_records ["2"; "zz"; "1"]
                   Examples.endToEnd _ _));
    vm_compute; repeat constructor; cbn; intuition discriminate.
Defined.

Section CustomOrder.

Context {A : Type}.

Lemma sort_ext (cmp cmp' : A -> A -> Z) (l : list A) :
  (forall a b, cmp a b = cmp' a b) -> sort cmp l = sort cmp' l.
Proof.
  intros H. induction l as [|x r IH]; [reflexivity|].
  cbn [sort]. rewrite IH. generalize (sort cmp' r). intros s.
  induction s as [|y s IHs]; [reflexivity|].
  cbn [insert]. now rewrite H, IHs.
Qed.

Lemma sort_map (cmp : A -> A -> Z) (f : A -> A) (l : list A) :
  (forall a b, cmp (f a) (f b) = cmp a b) ->
  sort cmp (map f l) = map f (sort cmp l).
Proof.
  intros H. induction l as [|x r IH]; [reflexivity|].
  cbn [sort map]. rewrite IH. generalize (sort cmp r). intros s.
  induction s as [|y s IHs]; [reflexivity|].
  cbn [insert map]. rewrite H.
  destruct (cmp x y <=? 0); [reflexivity|]. cbn [map]. now rewrite IHs.
Qed.

Lemma insert_least (cmp : A -> A -> Z) (x : A) (l : list A) :
  Forall (fun y => cmp x y <= 0) l -> insert cmp x l = x :: l.
Proof.
  intros H. destruct H as [|y l Hy _]; [reflexivity|].
  cbn [insert]. apply Z.leb_le in Hy. now rewrite Hy.
Qed.

Lemma sort_sorted_same (cmp : A -> A -> Z) (l : list A) :
  StronglySorted (fun a b => cmp a b <= 0) l -> sort cmp l = l.
Proof.
  induction 1 as [|x l Hl IH Hx]; [reflexivity|].
  cbn [sort]. rewrite IH. now apply insert_least.
Qed.

End CustomOrder.

Section ListOrder.

Variable localeCompare : string -> string -> Z.
Variable dateValue : string -> number.

Lemma sortTasks_custom (currentSort : string) (l : list Task) :
  sortMode currentSort = Custom ->
  sortTasks localeCompare dateValue currentSort l
  = sort (fun a b => order a - order b) l.
Proof.
  intros E. unfold sortTasks. rewrite E. apply sort_ext.
  intros a b. cbn [comparator sign_of]. now rewrite !num_or_zero.
Qed.

Lemma sortTasks_on_top (currentSort : string) (new : Task)
      (tasks : list Task) :
  sortMode currentSort = Custom ->
  order new = 0 ->
  Forall (fun t => 0 <= order t) tasks ->
  sortTasks localeCompare dateValue currentSort
            (new :: map bump_order tasks)
  = new :: map bump_order
             (sortTasks localeCompare dateValue currentSort tasks).
Proof.
  intros E Hnew Hpos. rewrite !sortTasks_custom by exact E.
  cbn [sort]. rewrite sort_map by (intros a b; cbn [bump_order order]; lia).
  apply insert_least. apply Forall_map.
  apply (Permutation_Forall
           (sort_Permutation (fun a b => order a - order b) tasks)).
  revert Hpos. apply Forall_impl. intros t Ht.
  cbn [bump_order order]. lia.
Qed.

(** The records [reorderTasks] lists come out in increasing [order]. *)
Lemma reordered_sorted (tasks : list Task) (r pre : list string) :
  NoDup (pre ++ r) ->
  let reordered :=
    flat_map
      (fun i =>
         match mapGet i tasks, lastIndex i (pre ++ r) 0 with
         | Some task, Some index => [withOrder task index]
         | _, _ => []
         end) r in
  StronglySorted (fun a b => order a - order b <= 0) reordered
  /\ Forall (fun a => Z.of_nat (List.length pre) <= order a) reordered.
Proof.
  revert pre. induction r as [|x r IH]; intros pre Hnd.
  - split; constructor.
  - assert (Happ : ((pre ++ [x]) ++ r = pre ++ x :: r)%list)
      by (rewrite <- List.app_assoc; reflexivity).
    destruct (IH (pre ++ [x])%list) as [Hs Hf];
      [now rewrite Happ|].
    rewrite Happ in Hs, Hf. rewrite List.length_app in Hf.
    cbn [List.length] in Hf.
    cbn zeta. cbn [flat_map].
    assert (Ex : lastIndex x (pre ++ x :: r) 0
                 = Some (Z.of_nat (List.length pre))).
    { rewrite (lastIndex_nth x (pre ++ x :: r) (List.length pre) 0 Hnd).
      - reflexivity.
      - rewrite nth_error_app2 by lia. now rewrite Nat.sub_diag. }
    rewrite Ex. destruct (mapGet x tasks) as [t|]; cbn [app].
    + split.
      * constructor; [exact Hs|]. revert Hf. apply Forall_impl.
        intros a Ha. cbn [withOrder order]. lia.
      * constructor; [cbn [withOrder order]; lia|].
        revert Hf. apply Forall_impl. intros a Ha. lia.
    + split; [exact Hs|]. revert Hf. apply Forall_impl. intros a Ha. lia.
Qed.

End ListOrder.

(** X13. A new task goes to the top: in the custom order of the list
    view, on a store whose [order] fields are not negative, the task
    [createTask] adds and the copy [duplicateTask] adds are shown
    first, and the tasks that were there follow in the order they had;
    the [order] fields stay non-negative. *)
Theorem new_task_on_top
  (localeCompare : string -> string -> Z) (dateValue : string -> number)
  (currentSort : string) (tasks : list Task) :
  sortMode currentSort = Custom ->
  Forall (fun t => 0 <= order t) tasks ->
  (forall newId now data,
      exists newTask,
        createTask newId now data tasks = newTask :: map bump_order tasks
        /\ id newTask = newId
        /\ sortTasks localeCompare dateValue currentSort
                     (createTask newId now data tasks)
           = newTask
             :: map bump_order
                  (sortTasks localeCompare dateValue currentSort tasks)
        /\ Forall (fun t => 0 <= order t)
                  (createTask newId now data tasks))
  /\ (forall newId now i original,
        findTask i tasks = Some original ->
        sortTasks localeCompare dateValue currentSort
                  (duplicateTask newId now i tasks)
        = duplicateOf newId now original
          :: map bump_order
               (sortTasks localeCompare dateValue currentSort tasks)
        /\ Forall (fun t => 0 <= order t)
                  (duplicateTask newId now i tasks)).
Proof.
  intros E Hpos.
  assert (Hb : Forall (fun t => 0 <= order t) (map bump_order tasks)).
  { apply Forall_map. revert Hpos. apply Forall_impl.
    intros t Ht. cbn [bump_order order]. lia. }
  split.
  - intros newId now data. eexists. split; [reflexivity|].
    split; [reflexivity|]. split.
    + unfold createTask. now apply sortTasks_on_top.
    + unfold createTask. constructor; [cbn [order]; lia | exact Hb].
  - intros newId now i original Hfind. unfold duplicateTask.
    rewrite Hfind. split.
    + now apply sortTasks_on_top.
    + constructor; [cbn [duplicateOf order]; lia | exact Hb].
Qed.

Lemma new_task_on_top_witness :
  map id
    (sortTasks (fun _ _ => 0) (fun _ => NaN) "custom"
       (duplicateTask "3" "2026-11-02T09:00:00.000Z" "2"
          Examples.endToEnd))
  = ["3"; "1"; "2"].
Proof.
  rewrite (proj1 (proj2 (new_task_on_top (fun _ _ => 0) (fun _ => NaN)
                           "custom" Examples.endToEnd eq_refl
                           ltac:(repeat constructor; vm_compute;
                                 discriminate))
                   "3" "2026-11-02T09:00:00.000Z" "2" _ eq_refl)).
  reflexivity.
Defined.

(** X14. The dragged order is the order shown: when the list of ids
    passed to [reorderTasks] names every record of the store, and none
    twice, the custom order of the list view shows the reordered store
    as it is, and its ids are the list passed when every id of the
    list names a record. *)
Theorem dragged_order_shown
  (localeCompare : string -> string -> Z) (dateValue : string -> number)
  (currentSort : string) (taskIds : list string) (tasks : list Task) :
  sortMode currentSort = Custom ->
  NoDup taskIds ->
  (forall t, In t tasks -> In (id t) taskIds) ->
  sortTasks localeCompare dateValue currentSort
            (reorderTasks taskIds tasks)
  = reorderTasks taskIds tasks
  /\ ((forall i, In i taskIds -> In i (map id tasks)) ->
      map id (sortTasks localeCompare dateValue currentSort
                        (reorderTasks taskIds tasks))
      = taskIds).
Proof.
  intros E Hnd Hall.
  assert (Hrest : filter (fun task =>
                            negb (existsb (String.eqb (id task)) taskIds))
                         tasks = []).
  { clear - Hall. induction tasks as [|t r IH]; [reflexivity|].
    cbn [filter].
    assert (Et : existsb (String.eqb (id t)) taskIds = true).
    { apply existsb_exists. exists (id t).
      split; [apply Hall; now left | apply String.eqb_refl]. }
    rewrite Et. cbn [negb]. apply IH. intros t' Ht'. apply Hall.
    now right. }
  assert (Es : sortTasks localeCompare dateValue currentSort
                         (reorderTasks taskIds tasks)
               = reorderTasks taskIds tasks).
  { rewrite sortTasks_custom by exact E. apply sort_sorted_same.
    unfold reorderTasks. rewrite Hrest, List.app_nil_r.
    exact (proj1 (reordered_sorted tasks taskIds [] Hnd)). }
  split; [exact Es|].
  intros Hin. rewrite Es, reorderTasks_ids, Hrest. cbn [map].
  rewrite List.app_nil_r.
  clear - Hin. induction taskIds as [|i r IH]; [reflexivity|].
  cbn [filter].
  assert (Ei : existsb (String.eqb i) (map id tasks) = true).
  { apply existsb_exists. exists i.
    split; [apply Hin; now left | apply String.eqb_refl]. }
  rewrite Ei. f_equal. apply IH. intros j Hj. apply Hin. now right.
Qed.

Lemma dragged_order_shown_witness :
  map id
    (sortTasks (fun _ _ => 0) (fun _ => NaN) "custom"
       (reorderTasks ["2"; "1"] Examples.endToEnd))
  = ["2"; "1"].
Proof.
  refine (proj2 (dragged_order_shown (fun _ _ => 0) (fun _ => NaN)
                   "custom" ["2"; "1"] Examples.endToEnd eq_refl _ _) _).
  - repeat constructor; cbn; intuition discriminate.
  - intros t [<-|[<-|[]]]; cbn; tauto.
  - intros i [<-|[<-|[]]]; cbn; tauto.
Defined.

Section Toggles.

Lemma mutateTask_In (i : string) (f : Task -> Task) (l : list Task)
      (t' : Task) :
  In t' (mutateTask i f l) ->
  In t' l \/ exists t, In t l /\ id t = i /\ t' = f t.
Proof.
  induction l as [|x r IH]; [intros []|].
  rewrite mutateTask_cons. destruct (String.eqb_spec (id x) i) as [E|E].
  - intros [<-|H]; [right; exists x; split; [now left|tauto]|].
    left. now right.
  - intros [<-|H]; [left; now left|].
    destruct (IH H) as [H'|(t & Ht & Hid & Ht')]; [left; now right|].
    right. exists t. split; [now right|tauto].
Qed.

Lemma mutateTask_find (i : string) (f : Task -> Task) (l : list Task)
      (t : Task) :
  (forall x, id (f x) = id x) ->
  findTask i l = Some t -> findTask i (mutateTask i f l) = Some (f t).
Proof.
  intros Hf. induction l as [|x r IH]; [discriminate|].
  rewrite mutateTask_cons. unfold findTask in *. cbn [find].
  destruct (String.eqb (id x) i) eqn:E.
  - intros H. injection H as ->. cbn [find]. now rewrite Hf, E.
  - intros H. cbn [find]. rewrite E. now apply IH.
Qed.

Lemma mutateTask_find_other (i j : string) (f : Task -> Task)
      (l : list Task) :
  (forall x, id (f x) = id x) -> j <> i ->
  findTask j (mutateTask i f l) = findTask j l.
Proof.
  intros Hf Hij. induction l as [|x r IH]; [reflexivity|].
  rewrite mutateTask_cons. unfold findTask in *. cbn [find].
  destruct (String.eqb_spec (id x) i) as [E|E]; cbn [find].
  - rewrite Hf. destruct (String.eqb_spec (id x) j); [congruence|].
    reflexivity.
  - now rewrite IH.
Qed.

Lemma flipAt_flipAt (n : nat) (l : list Subtask) :
  flipAt n (flipAt n l) = l.
Proof.
  revert n. induction l as [|[tx c] r IH]; intros [|n]; cbn;
    try reflexivity.
  - now rewrite negb_involutive.
  - now rewrite IH.
Qed.

Lemma nth_error_flipAt (n m : nat) (l : list Subtask) :
  nth_error (flipAt n l) m
  = if Nat.eqb m n
    then option_map (fun st => mkSubtask (text st) (negb (st_completed st)))
                    (nth_error l m)
    else nth_error l m.
Proof.
  revert n m. induction l as [|st r IH]; intros [|n] [|m];
    cbn [flipAt nth_error Nat.eqb option_map];
    try reflexivity; try apply IH;
    match goal with
    | |- context [Nat.eqb ?a ?b] => now destruct (Nat.eqb a b)
    end.
Qed.

Lemma withSubtasks_same (t : Task) : withSubtasks t (subtasks t) = t.
Proof. now destruct t. Qed.

Lemma assign_fixed (l : list Task) (k : nat) (v old : Task) :
  nth_error l k = Some old -> (assign l k v = l <-> v = old).
Proof.
  intros Hk. split.
  - intros E. pose proof (nth_error_assign_same l k v old Hk) as H.
    rewrite E in H. congruence.
  - intros ->. now apply assign_same.
Qed.

Lemma map_fixed {A : Type} (f : A -> A) (l : list A) :
  map f l = l <-> Forall (fun x => f x = x) l.
Proof.
  induction l as [|x r IH]; cbn [map].
  - split; [constructor | reflexivity].
  - split.
    + intros H. injection H as Hx Hr. constructor; [exact Hx|].
      now apply IH.
    + intros H. inversion H as [|? ? Hx Hr]; subst.
      rewrite Hx. f_equal. now apply IH.
Qed.

End Toggles.

(** X15. Ticking a subtask: [toggleSubtask] flips the one subtask it is
    given and nothing else of the store, the task's own [completed]
    included; doing it twice gives the store back; with an index that
    names no subtask, a negative one or one that is not a number
    included, the store is left as it is. *)
Theorem toggle_subtask (i : string) (tasks : list Task) :
  (forall k, toggleSubtask i k (toggleSubtask i k tasks) = tasks)
  /\ (forall k,
        map completed (toggleSubtask i k tasks) = map completed tasks)
  /\ (forall k t st,
        0 <= k ->
        findTask i tasks = Some t ->
        nth_error (subtasks t) (Z.to_nat k) = Some st ->
        findTask i (toggleSubtask i (Int k) tasks)
        = Some (withSubtasks t (flipAt (Z.to_nat k) (subtasks t)))
        /\ nth_error (flipAt (Z.to_nat k) (subtasks t)) (Z.to_nat k)
           = Some (mkSubtask (text st) (negb (st_completed st)))
        /\ (forall m, m <> Z.to_nat k ->
                      nth_error (flipAt (Z.to_nat k) (subtasks t)) m
                      = nth_error (subtasks t) m)
        /\ (forall j, j <> i ->
                      findTask j (toggleSubtask i (Int k) tasks)
                      = findTask j tasks))
  /\ (forall k t,
        findTask i tasks = Some t ->
        (k < 0 \/ nth_error (subtasks t) (Z.to_nat k) = None) ->
        toggleSubtask i (Int k) tasks = tasks)
  /\ toggleSubtask i NaN tasks = tasks.
Proof.
  assert (Hid : forall n t,
             id (match nth_error (subtasks t) n with
                 | Some _ => withSubtasks t (flipAt n (subtasks t))
                 | None => t
                 end) = id t).
  { intros n t. now destruct (nth_error (subtasks t) n). }
  split; [|split; [|split; [|split]]].
  - intros [|z]; [reflexivity|]. unfold toggleSubtask.
    destruct (z <? 0); [reflexivity|].
    rewrite mutateTask_twice by apply Hid.
    apply mutateTask_same. intros t _.
    destruct (nth_error (subtasks t) (Z.to_nat z)) as [st|] eqn:E.
    + cbn [withSubtasks subtasks]. rewrite nth_error_flipAt, Nat.eqb_refl, E.
      cbn [option_map]. rewrite flipAt_flipAt.
      cbn [id title description priority categoryId dueDate preferredTime
           plannedStartTime plannedDuration color completed createdAt order].
      now destruct t.
    + now rewrite E.
  - intros [|z]; [reflexivity|]. unfold toggleSubtask.
    destruct (z <? 0); [reflexivity|].
    induction tasks as [|x r IH]; [reflexivity|].
    rewrite mutateTask_cons. destruct (String.eqb (id x) i); cbn [map].
    + f_equal. now destruct (nth_error (subtasks x) (Z.to_nat z)).
    + now rewrite IH.
  - intros k t st Hk Hfind Hst. unfold toggleSubtask.
    destruct (Z.ltb_spec k 0); [lia|].
    split; [|split; [|split]].
    + rewrite (mutateTask_find i _ tasks t (Hid (Z.to_nat k)) Hfind).
      now rewrite Hst.
    + now rewrite nth_error_flipAt, Nat.eqb_refl, Hst.
    + intros m Hm. rewrite nth_error_flipAt.
      destruct (Nat.eqb_spec m (Z.to_nat k)); [contradiction|reflexivity].
    + intros j Hj. now apply mutateTask_find_other.
  - intros k t Hfind Hk. unfold toggleSubtask.
    destruct (Z.ltb_spec k 0); [reflexivity|].
    destruct Hk as [Hk|Hk]; [lia|].
    destruct (mutateTask_found i
                (fun t0 => match nth_error (subtasks t0) (Z.to_nat k) with
                           | Some _ => withSubtasks t0
                                         (flipAt (Z.to_nat k) (subtasks t0))
                           | None => t0
                           end) tasks t Hfind) as (n & Hn & ->).
    rewrite Hk. now apply assign_same.
  - reflexivity.
Qed.

(** X16. Completing a task: [toggleComplete] flips the task's
    [completed] and gives each of its subtasks the new state, keeping
    their texts and every other record; toggling it back gives the
    store back exactly when the subtasks all had the state of the task
    before, as the states ticked one by one are not kept. *)
Theorem toggle_complete (i : string) (tasks : list Task) (t : Task) :
  findTask i tasks = Some t ->
  findTask i (toggleComplete i tasks) = Some (toggled t)
  /\ completed (toggled t) = negb (completed t)
  /\ Forall (fun st => st_completed st = negb (completed t))
            (subtasks (toggled t))
  /\ map text (subtasks (toggled t)) = map text (subtasks t)
  /\ (forall j, j <> i ->
                findTask j (toggleComplete i tasks) = findTask j tasks)
  /\ (toggleComplete i (toggleComplete i tasks) = tasks
      <-> Forall (fun st => st_completed st = completed t) (subtasks t)).
Proof.
  intros Hfind. unfold toggleComplete.
  split; [now apply mutateTask_find|].
  split; [reflexivity|].
  split; [cbn [toggled subtasks]; apply Forall_map, Forall_forall;
          reflexivity|].
  split; [cbn [toggled subtasks]; rewrite map_map; reflexivity|].
  split; [intros j Hj; now apply mutateTask_find_other|].
  rewrite mutateTask_twice by reflexivity.
  destruct (mutateTask_found i (fun t0 => toggled (toggled t0)) tasks t
              Hfind) as (k & Hk & ->).
  rewrite (assign_fixed tasks k _ t Hk).
  assert (E : toggled (toggled t) = t
              <-> map (fun st => mkSubtask (text st) (completed t))
                      (subtasks t) = subtasks t).
  { destruct t as [ti tt td tp tc tdu tpt tps tpd tco tsu tcm tcr tor].
    unfold toggled. cbn [id title description priority categoryId dueDate
      preferredTime plannedStartTime plannedDuration color subtasks
      completed createdAt order].
    rewrite map_map, negb_involutive. cbn [text].
    split.
    - intros H. now injection H.
    - intros ->. reflexivity. }
  rewrite E, map_fixed.
  split; apply Forall_impl; intros [tx c]; cbn [text st_completed].
  - intros H. now injection H.
  - intros ->. reflexivity.
Qed.

Lemma toggle_complete_witness :
  findTask "1" (toggleComplete "1" Examples.endToEnd)
  = Some (toggled (Examples.task "1" "high" None None None (Some 60)
                     false)).
Proof.
  exact (proj1 (toggle_complete "1" Examples.endToEnd _ eq_refl)).
Defined.

Section Schedule.

Variable today : string.

(** A store whose records scheduled for today all come, with id and
    interval, from records scheduled for today of a store without
    overlaps has none. *)
Lemma disjointById_sub (tasks tasks' : list Task) :
  (forall t', In t' tasks' -> scheduledToday today t' = true ->
              exists t, In t tasks /\ id t = id t'
                        /\ interval t = interval t'
                        /\ scheduledToday today t = true) ->
  disjointById today tasks -> disjointById today tasks'.
Proof.
  intros Hsub Hdis a b Ha Hb Hab Hsa Hsb.
  destruct (Hsub a Ha Hsa) as (a0 & Ha0 & Ia & Ea & Sa).
  destruct (Hsub b Hb Hsb) as (b0 & Hb0 & Ib & Eb & Sb).
  rewrite <- Ea, <- Eb. apply Hdis; auto. congruence.
Qed.

Lemma disjointToday_sub (tasks tasks' : list Task) :
  NoDup (map id tasks') ->
  (forall t', In t' tasks' -> scheduledToday today t' = true ->
              exists t, In t tasks /\ id t = id t'
                        /\ interval t = interval t'
                        /\ scheduledToday today t = true) ->
  disjointToday today tasks -> disjointToday today tasks'.
Proof.
  intros Hnd Hsub Hdis. apply disjointById_today; [exact Hnd|].
  apply (disjointById_sub tasks tasks' Hsub).
  now apply disjointToday_byId.
Qed.

Lemma scheduled_self (t : Task) (tasks : list Task) :
  In t tasks -> scheduledToday today t = true ->
  exists t0, In t0 tasks /\ id t0 = id t /\ interval t0 = interval t
             /\ scheduledToday today t0 = true.
Proof. intros Hin Hs. exists t. auto. Qed.

End Schedule.

(** X17. Deleting a task: after [deleteTask] no record of the id is
    found, every other id finds what it found before, deleting an id
    the store does not hold changes nothing, and a day without overlaps
    stays one. *)
Theorem delete_task (i : string) (tasks : list Task) :
  findTask i (deleteTask i tasks) = None
  /\ (forall j, j <> i ->
                findTask j (deleteTask i tasks) = findTask j tasks)
  /\ (findTask i tasks = None -> deleteTask i tasks = tasks)
  /\ (forall today,
        disjointToday today tasks ->
        NoDup (map id tasks) ->
        disjointToday today (deleteTask i tasks)).
Proof.
  split; [|split; [|split]].
  - apply findTask_absent. intros H. apply in_map_iff in H.
    destruct H as (t & Hid & Ht). apply filter_In in Ht.
    destruct Ht as [_ Ht]. apply negb_true_iff in Ht.
    apply String.eqb_neq in Ht. contradiction.
  - intros j Hj. unfold deleteTask, findTask.
    induction tasks as [|x r IH]; [reflexivity|].
    cbn [filter find].
    destruct (String.eqb_spec (id x) i) as [E|E]; cbn [negb find].
    + destruct (String.eqb_spec (id x) j); [congruence|exact IH].
    + now rewrite IH.
  - intros Hno. unfold deleteTask.
    apply (proj1 (findTask_absent i tasks)) in Hno.
    induction tasks as [|x r IH]; [reflexivity|].
    cbn [filter]. cbn [map In] in Hno.
    destruct (String.eqb_spec (id x) i) as [E|E]; [tauto|].
    cbn [negb]. f_equal. apply IH. tauto.
  - intros today Hdis Hnd.
    apply (disjointToday_sub today tasks).
    + now apply NoDup_map_filter.
    + intros t' Ht' Hs. apply filter_In in Ht'.
      now apply scheduled_self.
    + exact Hdis.
Qed.

(** X18. Which operations of the store keep a day free of overlaps: on
    a store with unique ids in which no two active tasks scheduled for
    today overlap, creating a task, completing an active task, ticking
    a subtask, clearing the completed tasks, taking a task off the
    timeline and reordering leave a store in which none do. *)
Theorem store_keeps_disjoint (today : string) (tasks : list Task) :
  NoDup (map id tasks) ->
  disjointToday today tasks ->
  (forall newId now data,
      findTask newId tasks = None ->
      disjointToday today (createTask newId now data tasks))
  /\ (forall i t,
        findTask i tasks = Some t -> completed t = false ->
        disjointToday today (toggleComplete i tasks))
  /\ (forall i k, disjointToday today (toggleSubtask i k tasks))
  /\ disjointToday today (fst (clearCompleted tasks))
  /\ (forall i, disjointToday today (unscheduleTask i tasks))
  /\ (forall taskIds,
        NoDup taskIds ->
        disjointToday today (reorderTasks taskIds tasks)).
Proof.
  intros Hnd Hdis. repeat split.
  - intros newId now data Hnew.
    apply (disjointToday_sub today tasks); [| |exact Hdis].
    + unfold createTask. cbn [map id]. rewrite bump_order_ids.
      constructor; [now apply findTask_absent | exact Hnd].
    + intros t' [<-|Ht'] Hs.
      * unfold scheduledToday, isScheduled in Hs.
        cbn [plannedStartTime truthy] in Hs.
        rewrite andb_false_r in Hs. discriminate.
      * apply in_map_iff in Ht'. destruct Ht' as (t & <- & Ht).
        exists t. now repeat split.
  - intros i t Hfind Hact.
    apply (disjointToday_sub today tasks); [| |exact Hdis].
    + unfold toggleComplete.
      now rewrite (mutateTask_ids i toggled tasks toggled_id).
    + intros t' Ht' Hs. apply mutateTask_In in Ht'.
      destruct Ht' as [Ht'|(t0 & Ht0 & Hid & ->)];
        [now apply scheduled_self|].
      exfalso.
      assert (Et : mapGet (id t0) tasks = Some t0)
        by now apply mapGet_unique.
      destruct (findTask_In _ _ _ Hfind) as [Hin Hidt].
      assert (Et' : mapGet (id t) tasks = Some t)
        by now apply mapGet_unique.
      assert (t0 = t) by congruence. subst t0.
      unfold scheduledToday, isActive in Hs. cbn [toggled completed] in Hs.
      rewrite Hact in Hs. discriminate.
  - intros i k.
    apply (disjointToday_sub today tasks); [| |exact Hdis].
    + now rewrite toggleSubtask_ids.
    + intros t' Ht' Hs. unfold toggleSubtask in Ht'.
      destruct k as [|z]; [now apply scheduled_self|].
      destruct (z <? 0); [now apply scheduled_self|].
      apply mutateTask_In in Ht'.
      destruct Ht' as [Ht'|(t0 & Ht0 & Hid & ->)];
        [now apply scheduled_self|].
      exists t0. revert Hs.
      destruct (nth_error (subtasks t0) (Z.to_nat z)); auto.
  - apply (disjointToday_sub today tasks); [| |exact Hdis].
    + now apply NoDup_map_filter.
    + intros t' Ht' Hs. apply filter_In in Ht'.
      now apply scheduled_self.
  - intros i.
    apply (disjointToday_sub today tasks); [| |exact Hdis].
    + unfold unscheduleTask. now rewrite updateTask_ids.
    + intros t' Ht' Hs. unfold unscheduleTask in Ht'.
      rewrite updateTask_mutateTask in Ht'. apply mutateTask_In in Ht'.
      destruct Ht' as [Ht'|(t0 & Ht0 & Hid & ->)];
        [now apply scheduled_self|].
      unfold scheduledToday, isScheduled in Hs.
      cbn [merge noStart plannedStartTime over u_plannedStartTime truthy]
        in Hs.
      rewrite andb_false_r in Hs. discriminate.
  - intros taskIds Hids.
    apply (disjointToday_sub today tasks); [| |exact Hdis].
    + now apply reorderTasks_NoDup.
    + intros t' Ht' Hs. unfold reorderTasks in Ht'.
      apply in_app_or in Ht'. destruct Ht' as [Ht'|Ht'].
      * apply in_flat_map in Ht'. destruct Ht' as (x & Hx & Ht').
        destruct (mapGet x tasks) as [t|] eqn:E; [|contradiction].
        destruct (lastIndex x taskIds 0); [|contradiction].
        destruct Ht' as [<-|[]].
        destruct (mapGet_Some _ _ _ E) as [Hin _].
        exists t. now repeat split.
      * apply filter_In in Ht'. now apply scheduled_self.
Qed.

(** Three tasks booked one after the other: with the third taken off
    the timeline the first two are still scheduled for today, and they
    do not overlap. *)
Lemma store_keeps_disjoint_witness :
  disjointToday Examples.today Examples.threeBooked
  /\ disjointToday Examples.today
       (unscheduleTask "c" Examples.threeBooked)
  /\ map (scheduledToday Examples.today)
         (unscheduleTask "c" Examples.threeBooked)
     = [true; true; false].
Proof.
  assert (Hdis : disjointToday Examples.today Examples.threeBooked).
  { intros i j a b Hij Hi Hj Ha Hb.
    destruct i as [|[|[|i]]]; destruct j as [|[|[|j]]];
      cbn in Hi, Hj; try discriminate; try congruence;
      try (destruct i; discriminate); try (destruct j; discriminate);
      injection Hi as <-; injection Hj as <-;
      vm_compute; reflexivity. }
  split; [exact Hdis|]. split; [|reflexivity].
  refine (proj1 (proj2 (proj2 (proj2 (proj2
            (store_keeps_disjoint Examples.today Examples.threeBooked
               _ Hdis))))) "c").
  vm_compute. repeat constructor; cbn; intuition discriminate.
Defined.

(** X19. A copy keeps the slot of its original: [duplicateTask] copies
    [plannedStartTime] and [plannedDuration], so the copy of an active
    task scheduled for today, with a well-formed start time and a
    positive duration, is an active task scheduled for today over the
    same interval, and the store has an overlap after it. *)
Theorem duplicate_overlaps_original
  (today newId now i s : string) (m : Z) (tasks : list Task) (t : Task) :
  findTask i tasks = Some t ->
  scheduledToday today t = true ->
  plannedStartTime t = Some s ->
  toMinutes (hour_minute s) = Int m ->
  0 < durationOf t ->
  exists rest,
    duplicateTask newId now i tasks = duplicateOf newId now t :: rest
    /\ In (bump_order t) rest
    /\ scheduledToday today (duplicateOf newId now t) = true
    /\ interval (duplicateOf newId now t) = interval (bump_order t)
    /\ overlaps (interval (duplicateOf newId now t))
                (interval (bump_order t)) = true
    /\ ~ disjointToday today (duplicateTask newId now i tasks).
Proof.
  intros Hfind Hs Hstart Hm Hd.
  destruct (findTask_In _ _ _ Hfind) as [Hin _].
  assert (Hin' : In (bump_order t) (map bump_order tasks))
    by now apply in_map.
  assert (Hc : scheduledToday today (duplicateOf newId now t) = true).
  { unfold scheduledToday, isActive, isScheduled, relevant in *.
    cbn [duplicateOf completed plannedStartTime dueDate negb andb].
    apply andb_true_iff in Hs. destruct Hs as [Hs Hr].
    apply andb_true_iff in Hs. destruct Hs as [_ Hs].
    now rewrite Hs, Hr. }
  assert (Ho : overlaps (interval (duplicateOf newId now t))
                        (interval (bump_order t)) = true).
  { unfold interval, durationOf.
    cbn [duplicateOf bump_order plannedStartTime plannedDuration].
    rewrite Hstart. unfold slot. rewrite Hm.
    unfold overlaps, lt, gt, add. cbn [fst snd].
    unfold durationOf in Hd.
    apply andb_true_iff. split; apply Z.ltb_lt; lia. }
  exists (map bump_order tasks). unfold duplicateTask. rewrite Hfind.
  repeat split; auto.
  intros Hdis. apply In_nth_error in Hin'. destruct Hin' as [k Hk].
  rewrite (Hdis 0%nat (S k) (duplicateOf newId now t) (bump_order t))
    in Ho; auto; discriminate.
Qed.

Lemma duplicate_overlaps_original_witness :
  exists rest,
    duplicateTask "c" "2026-11-02T09:00:00.000Z" "a" Examples.busyMorning
    = duplicateOf "c" "2026-11-02T09:00:00.000Z"
        (Examples.task "a" "medium" None None (Some "09:00") (Some 60)
           false) :: rest
    /\ ~ disjointToday Examples.today
           (duplicateTask "c" "2026-11-02T09:00:00.000Z" "a"
              Examples.busyMorning).
Proof.
  destruct (duplicate_overlaps_original Examples.today "c"
              "2026-11-02T09:00:00.000Z" "a" "09:00" 540
              Examples.busyMorning _ eq_refl eq_refl eq_refl eq_refl
              ltac:(vm_compute; reflexivity))
    as (rest & E & _ & _ & _ & _ & H).
  exists rest. split; [exact E | exact H].
Defined.

Section Counting.

Lemma length_filter_split {A : Type} (p : A -> bool) (l : list A) :
  Z.of_nat (List.length l)
  = Z.of_nat (List.length (filter p l))
    + Z.of_nat (List.length (filter (fun x => negb (p x)) l)).
Proof.
  induction l as [|x r IH]; [reflexivity|].
  cbn [filter]. destruct (p x); cbn [negb List.length]; lia.
Qed.

Lemma filter_same {A : Type} (p : A -> bool) (l : list A) :
  filter p (filter p l) = filter p l.
Proof.
  induction l as [|x r IH]; [reflexivity|].
  cbn [filter]. destruct (p x) eqn:E; [|exact IH].
  cbn [filter]. now rewrite E, IH.
Qed.

Lemma filter_none {A : Type} (p q : A -> bool) (l : list A) :
  (forall x, q x = true -> p x = false) -> filter p (filter q l) = [].
Proof.
  intros H. induction l as [|x r IH]; [reflexivity|].
  cbn [filter]. destruct (q x) eqn:E; [|exact IH].
  cbn [filter]. now rewrite (H x E).
Qed.

Lemma filter_and_active (p : Task -> bool) (l : list Task) :
  filter (fun t => p t && negb (completed t))
         (filter (fun t => negb (completed t)) l)
  = filter (fun t => p t && negb (completed t)) l.
Proof.
  induction l as [|x r IH]; [reflexivity|].
  cbn [filter]. destruct (completed x) eqn:E; cbn [negb].
  - now rewrite andb_false_r.
  - cbn [filter]. rewrite E. cbn [negb]. now rewrite IH.
Qed.

End Counting.

(** X20. The counters of the header and "clear completed": the total is
    the completed tasks plus the active ones; the three priority
    counters count active tasks only, each at most once, and add up to
    the active tasks exactly when every active task has one of the
    three priorities; [clearCompleted] reports the completed counter,
    leaves the priority counters as they were and a store without
    completed tasks, on which it removes nothing more. *)
Theorem stats_and_clear (tasks : list Task) :
  total (getStats tasks)
  = s_completed (getStats tasks)
    + Z.of_nat (List.length (fst (clearCompleted tasks)))
  /\ high (getStats tasks) + medium (getStats tasks) + low (getStats tasks)
     <= total (getStats tasks) - s_completed (getStats tasks)
  /\ (high (getStats tasks) + medium (getStats tasks) + low (getStats tasks)
      = total (getStats tasks) - s_completed (getStats tasks)
      <-> Forall (fun t => completed t = false ->
                           priority t = "high" \/ priority t = "medium"
                           \/ priority t = "low") tasks)
  /\ snd (clearCompleted tasks) = s_completed (getStats tasks)
  /\ getStats (fst (clearCompleted tasks))
     = mkStats (total (getStats tasks) - s_completed (getStats tasks)) 0
               (high (getStats tasks)) (medium (getStats tasks))
               (low (getStats tasks))
  /\ clearCompleted (fst (clearCompleted tasks))
     = (fst (clearCompleted tasks), 0).
Proof.
  assert (Hsplit : Z.of_nat (List.length tasks)
                   = count (fun t => completed t) tasks
                     + Z.of_nat (List.length
                                   (filter (fun t => negb (completed t))
                                           tasks)))
    by apply length_filter_split.
  assert (Hprio :
            high (getStats tasks) + medium (getStats tasks)
            + low (getStats tasks)
            <= Z.of_nat (List.length
                           (filter (fun t => negb (completed t)) tasks))
            /\ (high (getStats tasks) + medium (getStats tasks)
                + low (getStats tasks)
                = Z.of_nat (List.length
                              (filter (fun t => negb (completed t)) tasks))
                <-> Forall (fun t => completed t = false ->
                                     priority t = "high"
                                     \/ priority t = "medium"
                                     \/ priority t = "low") tasks)).
  { unfold getStats, count. cbn [high medium low]. clear Hsplit.
    induction tasks as [|x r [IHle IHeq]].
    - cbn. split; [lia|]. split; [constructor | reflexivity].
    - cbn [filter].
      destruct (completed x) eqn:Ec; cbn [negb].
      + rewrite !andb_false_r. split; [exact IHle|].
        rewrite IHeq. split.
        * intros H. constructor; [congruence | exact H].
        * intros H. now inversion H.
      + rewrite !andb_true_r.
        destruct (String.eqb_spec (priority x) "high") as [Eh|Eh];
          destruct (String.eqb_spec (priority x) "medium") as [Em|Em];
          destruct (String.eqb_spec (priority x) "low") as [El|El];
          try congruence; cbn [List.length]; (split; [lia|]);
          try (split;
               [ intros H; constructor; [tauto | apply IHeq; lia]
               | intros H; inversion H as [|? ? _ Hr]; subst;
                 apply IHeq in Hr; lia ]).
        split; [intros H; exfalso; lia|].
        intros H. inversion H as [|? ? Hx _]; subst.
        destruct (Hx Ec) as [?|[?|?]]; contradiction. }
  destruct Hprio as [Hle Heq].
  assert (Hstats : getStats (filter (fun t => negb (completed t)) tasks)
                   = mkStats (Z.of_nat (List.length tasks)
                              - count (fun t => completed t) tasks) 0
                             (high (getStats tasks))
                             (medium (getStats tasks))
                             (low (getStats tasks))).
  { unfold getStats, count. cbn [total s_completed high medium low].
    rewrite !filter_and_active.
    rewrite (filter_none (fun t => completed t)
               (fun t => negb (completed t)))
      by (intros x Hx; now apply negb_true_iff in Hx).
    f_equal. unfold count in Hsplit. lia. }
  remember (high (getStats tasks)) as h eqn:Eh.
  remember (medium (getStats tasks)) as m eqn:Em.
  remember (low (getStats tasks)) as lo eqn:Elo.
  change (total (getStats tasks)) with (Z.of_nat (List.length tasks)).
  change (s_completed (getStats tasks))
    with (count (fun t => completed t) tasks).
  unfold clearCompleted. cbn [fst snd].
  split; [exact Hsplit|].
  split; [lia|].
  split; [rewrite <- Heq; lia|].
  split; [lia|].
  split; [exact Hstats|].
  rewrite filter_same. f_equal. lia.
Qed.

Section Hash.

Import StorageManager.

Lemma toInt32_shift (z : Z) : exists k, toInt32 z = z + k * 2 ^ 32.
Proof.
  unfold toInt32. cbn zeta.
  pose proof (Z.div_mod z (2 ^ 32) ltac:(lia)) as H.
  destruct (z mod 2 ^ 32 <? 2 ^ 31).
  - exists (- (z / 2 ^ 32)). lia.
  - exists (- (z / 2 ^ 32) - 1). lia.
Qed.

Lemma toInt32_cong (a b k : Z) : a = b + k * 2 ^ 32 -> toInt32 a = toInt32 b.
Proof.
  intros ->. unfold toInt32. now rewrite Z_mod_plus_full.
Qed.

Lemma toInt32_range (z : Z) : - 2 ^ 31 <= toInt32 z < 2 ^ 31.
Proof.
  unfold toInt32. cbn zeta.
  pose proof (Z.mod_pos_bound z (2 ^ 32) ltac:(lia)) as H.
  destruct (Z.ltb_spec (z mod 2 ^ 32) (2 ^ 31)); lia.
Qed.

Lemma hashStep_31 (h : Z) (c : ascii) :
  hashStep h c = toInt32 (31 * h + charCode c).
Proof.
  unfold hashStep.
  destruct (toInt32_shift h) as [k1 E1].
  destruct (toInt32_shift (toInt32 h * 2 ^ 5)) as [k2 E2].
  apply (toInt32_cong _ _ (32 * k1 + k2)). rewrite E2, E1. lia.
Qed.

Lemma hashStep_two (h : Z) (c d : ascii) :
  hashStep (hashStep h c) d
  = toInt32 (961 * h + 31 * charCode c + charCode d).
Proof.
  rewrite (hashStep_31 _ d), (hashStep_31 h c).
  destruct (toInt32_shift (31 * h + charCode c)) as [k E].
  apply (toInt32_cong _ _ (31 * k)). rewrite E. lia.
Qed.

Lemma hashFrom_app (h : Z) (p q : string) :
  hashFrom h (p ++ q) = hashFrom (hashFrom h p) q.
Proof.
  revert h. induction p as [|c p IH]; intros h; [reflexivity|].
  cbn [append hashFrom]. apply IH.
Qed.

Lemma hashFrom_range (h : Z) (p : string) :
  - 2 ^ 31 <= h < 2 ^ 31 -> - 2 ^ 31 <= hashFrom h p < 2 ^ 31.
Proof.
  revert h. induction p as [|c p IH]; intros h Hh; [exact Hh|].
  cbn [hashFrom]. apply IH. unfold hashStep. apply toInt32_range.
Qed.

End Hash.

(** X21. The password hash: the value [hashPassword] prints is a signed
    32-bit integer, and two passwords that differ in two neighbouring
    characters [c1 c2] and [d1 d2] with
    [31 * c1 + c2 = 31 * d1 + d2], as "Aa" and "BB", have the same
    hash, whatever stands before and after them. *)
Theorem hash_collisions :
  (forall password,
      - 2 ^ 31 <= StorageManager.hashFrom 0 password < 2 ^ 31)
  /\ (forall c1 c2 d1 d2 before after,
        31 * StorageManager.charCode c1 + StorageManager.charCode c2
        = 31 * StorageManager.charCode d1 + StorageManager.charCode d2 ->
        StorageManager.hashPassword
          (before ++ String c1 (String c2 after))
        = StorageManager.hashPassword
            (before ++ String d1 (String d2 after)))
  /\ (forall before after,
        StorageManager.hashPassword (before ++ "Aa" ++ after)
        = StorageManager.hashPassword (before ++ "BB" ++ after)).
Proof.
  assert (H : forall c1 c2 d1 d2 before after,
        31 * StorageManager.charCode c1 + StorageManager.charCode c2
        = 31 * StorageManager.charCode d1 + StorageManager.charCode d2 ->
        StorageManager.hashPassword
          (before ++ String c1 (String c2 after))
        = StorageManager.hashPassword
            (before ++ String d1 (String d2 after))).
  { intros c1 c2 d1 d2 before after E. unfold StorageManager.hashPassword.
    rewrite !hashFrom_app. cbn [StorageManager.hashFrom].
    rewrite !hashStep_two. do 3 f_equal. lia. }
  split; [|split].
  - intros password. apply hashFrom_range. lia.
  - exact H.
  - intros before after. apply H. reflexivity.
Qed.

Section Login.

Import AuthManager.

Variable toLowerCase : string -> string.
Variable trim : string -> string.

Lemma ownSlot_app (key : string) (l : list (string * Account))
      (k : string) (a : Account) :
  ownSlot key (l ++ [(k, a)])
  = match ownSlot key l with
    | Some x => Some x
    | None => if String.eqb k key then Some a else None
    end.
Proof.
  induction l as [|[k' a'] r IH]; [reflexivity|].
  cbn [app ownSlot]. destruct (String.eqb k' key); [reflexivity|exact IH].
Qed.

Lemma slot_Missing (key : string) (l : list (string * Account)) :
  slot key l = Missing -> ownSlot key l = None.
Proof.
  unfold slot. destruct (ownSlot key l); [discriminate|reflexivity].
Qed.

(** What a successful [createAccount] has checked and stored. *)
Lemma createAccount_Success (now name password : string) (st st' : Auth) :
  createAccount toLowerCase trim now name password st = (st', Success) ->
  name <> "" /\ password <> ""
  /\ (3 <= String.length name)%nat /\ (4 <= String.length password)%nat
  /\ slot (normalize toLowerCase trim name) (accounts st) = Missing
  /\ st' = mkAuth (accounts st
                   ++ [(normalize toLowerCase trim name,
                        mkAccount (trim name)
                                  (StorageManager.hashPassword password)
                                  now)])%list
                  (Some (trim name)).
Proof.
  unfold createAccount.
  destruct (String.eqb_spec name ""); [discriminate|].
  destruct (String.eqb_spec password ""); [discriminate|]. cbn [orb].
  destruct (Nat.ltb_spec (String.length name) 3); [discriminate|].
  destruct (Nat.ltb_spec (String.length password) 4); [discriminate|].
  destruct (slot (normalize toLowerCase trim name) (accounts st)) eqn:E;
    try discriminate.
  intros Hres. injection Hres as <-. repeat split; auto.
Qed.

End Login.

(** X22. An account can be logged into, whatever [toLowerCase] and
    [trim] of the host do to a name: after a successful [createAccount]
    the user is logged in under the trimmed name; after [logout],
    [login] with a name that normalises to the same key and a password
    of the same hash succeeds and restores that state, and with a
    password of another hash it fails and leaves the user logged out;
    the accounts under other keys are as before. *)
Theorem create_then_login
  (toLowerCase trim : string -> string) (now name password : string)
  (st st' : AuthManager.Auth) :
  AuthManager.createAccount toLowerCase trim now name password st
  = (st', AuthManager.Success) ->
  AuthManager.currentUser st' = Some (trim name)
  /\ AuthManager.isLoggedIn (AuthManager.logout st') = false
  /\ (forall name' password',
        name' <> "" -> password' <> "" ->
        AuthManager.normalize toLowerCase trim name'
        = AuthManager.normalize toLowerCase trim name ->
        AuthManager.login toLowerCase trim name' password'
                          (AuthManager.logout st')
        = if String.eqb (StorageManager.hashPassword password')
                        (StorageManager.hashPassword password)
          then (st', AuthManager.Success)
          else (AuthManager.logout st',
                AuthManager.Failure "Incorrect password"))
  /\ AuthManager.login toLowerCase trim name password (AuthManager.logout st')
     = (st', AuthManager.Success)
  /\ (forall key,
        key <> AuthManager.normalize toLowerCase trim name ->
        AuthManager.slot key (AuthManager.accounts st')
        = AuthManager.slot key (AuthManager.accounts st)).
Proof.
  intros H.
  destruct (createAccount_Success toLowerCase trim now name password st st' H)
    as (Hn & Hp & _ & _ & Hslot & ->).
  pose proof (slot_Missing _ _ Hslot) as Hown.
  assert (Hlogin : forall name' password',
        name' <> "" -> password' <> "" ->
        AuthManager.normalize toLowerCase trim name'
        = AuthManager.normalize toLowerCase trim name ->
        AuthManager.login toLowerCase trim name' password'
          (AuthManager.logout
             (AuthManager.mkAuth
                (AuthManager.accounts st
                 ++ [(AuthManager.normalize toLowerCase trim name,
                      AuthManager.mkAccount (trim name)
                        (StorageManager.hashPassword password) now)])%list
                (Some (trim name))))
        = if String.eqb (StorageManager.hashPassword password')
                        (StorageManager.hashPassword password)
          then (AuthManager.mkAuth
                  (AuthManager.accounts st
                   ++ [(AuthManager.normalize toLowerCase trim name,
                        AuthManager.mkAccount (trim name)
                          (StorageManager.hashPassword password) now)])%list
                  (Some (trim name)),
                AuthManager.Success)
          else (AuthManager.logout
                  (AuthManager.mkAuth
                     (AuthManager.accounts st
                      ++ [(AuthManager.normalize toLowerCase trim name,
                           AuthManager.mkAccount (trim name)
                             (StorageManager.hashPassword password)
                             now)])%list
                     (Some (trim name))),
                AuthManager.Failure "Incorrect password")).
  { intros name' password' Hn' Hp' Hnorm. unfold AuthManager.login.
    destruct (String.eqb_spec name' ""); [contradiction|].
    destruct (String.eqb_spec password' ""); [contradiction|].
    cbn [orb]. rewrite Hnorm.
    unfold AuthManager.logout, AuthManager.slot.
    cbn [AuthManager.accounts]. rewrite ownSlot_app, Hown.
    rewrite String.eqb_refl. cbn [AuthManager.passwordHash].
    rewrite (String.eqb_sym (StorageManager.hashPassword password)).
    now destruct (String.eqb (StorageManager.hashPassword password')
                             (StorageManager.hashPassword password)). }
  split; [reflexivity|]. split; [reflexivity|].
  split; [exact Hlogin|]. split.
  - rewrite (Hlogin name password Hn Hp eq_refl).
    now rewrite String.eqb_refl.
  - intros key Hkey. unfold AuthManager.slot.
    cbn [AuthManager.accounts]. rewrite ownSlot_app.
    destruct (AuthManager.ownSlot key (AuthManager.accounts st));
      [reflexivity|].
    destruct (String.eqb_spec (AuthManager.normalize toLowerCase trim name) key);
      [congruence|reflexivity].
Qed.

(** An account made under the name [bob] followed by a no-break space
    is logged into as [bob]. *)
Lemma create_then_login_witness :
  AuthManager.login (fun s => s) trim "bob" "pass"
    (AuthManager.logout
       (fst (AuthManager.createAccount (fun s => s) trim
               "2026-11-02T09:00:00.000Z"
               ("bob" ++ String "160"%char "") "pass"
               (AuthManager.mkAuth [] None))))
  = (AuthManager.mkAuth
       [("bob",
         AuthManager.mkAccount "bob" (StorageManager.hashPassword "pass")
                               "2026-11-02T09:00:00.000Z")]
       (Some "bob"),
     AuthManager.Success).
Proof.
  exact (proj1 (proj2 (proj2
           (create_then_login (fun s => s) trim "2026-11-02T09:00:00.000Z"
              ("bob" ++ String "160"%char "") "pass"
              (AuthManager.mkAuth [] None) _ eq_refl)))
           "bob" "pass" ltac:(discriminate) ltac:(discriminate) eq_refl).
Defined.

(** X23. Deleting a category: after [deleteCategory] the category is
    not found and no task refers to it; the other categories are found
    as before, and the tasks are the same records in the same order,
    those of the category with [categoryId] null and nothing else
    changed. *)
Theorem delete_category
  (categoryId : string) (categories : list CategoryManager.Category)
  (tasks : list Task) :
  let categories' :=
    fst (CategoryManager.deleteCategory categoryId categories tasks) in
  let tasks' :=
    snd (CategoryManager.deleteCategory categoryId categories tasks) in
  CategoryManager.getCategoryById categoryId categories' = None
  /\ (forall j, j <> categoryId ->
                CategoryManager.getCategoryById j categories'
                = CategoryManager.getCategoryById j categories)
  /\ Forall (fun t => TaskManager.categoryId t <> Some categoryId) tasks'
  /\ Forall2 (fun t t' =>
                if match TaskManager.categoryId t with
                   | Some c => String.eqb c categoryId
                   | None => false
                   end
                then t' = CategoryManager.withoutCategory t
                else t' = t)
             tasks tasks'
  /\ map id tasks' = map id tasks
  /\ map interval tasks' = map interval tasks
  /\ map completed tasks' = map completed tasks.
Proof.
  cbn zeta. unfold CategoryManager.deleteCategory. cbn [fst snd].
  split; [|split; [|split; [|split; [|split; [|split]]]]].
  - unfold CategoryManager.getCategoryById.
    induction categories as [|c r IH]; [reflexivity|].
    cbn [filter].
    destruct (String.eqb (CategoryManager.c_id c) categoryId) eqn:E;
      cbn [negb]; [exact IH|].
    cbn [find]. now rewrite E.
  - intros j Hj. unfold CategoryManager.getCategoryById.
    induction categories as [|c r IH]; [reflexivity|].
    cbn [filter find].
    destruct (String.eqb_spec (CategoryManager.c_id c) categoryId)
      as [E|E]; cbn [negb].
    + destruct (String.eqb_spec (CategoryManager.c_id c) j);
        [congruence|exact IH].
    + cbn [find]. now rewrite IH.
  - apply Forall_map, Forall_forall. intros t _.
    destruct (TaskManager.categoryId t) as [c|] eqn:Ec.
    + destruct (String.eqb_spec c categoryId) as [E|E].
      * cbn [CategoryManager.withoutCategory TaskManager.categoryId].
        discriminate.
      * rewrite Ec. congruence.
    + rewrite Ec. discriminate.
  - induction tasks as [|t r IH]; [constructor|].
    cbn [map]. constructor; [|exact IH].
    destruct (TaskManager.categoryId t) as [c|]; [|reflexivity].
    now destruct (String.eqb c categoryId).
  - rewrite map_map. apply map_ext. intros t.
    destruct (TaskManager.categoryId t) as [c|]; [|reflexivity].
    now destruct (String.eqb c categoryId).
  - rewrite map_map. apply map_ext. intros t.
    destruct (TaskManager.categoryId t) as [c|]; [|reflexivity].
    now destruct (String.eqb c categoryId).
  - rewrite map_map. apply map_ext. intros t.
    destruct (TaskManager.categoryId t) as [c|]; [|reflexivity].
    now destruct (String.eqb c categoryId).
Qed.

(** X24. The list sorted by priority: when every task has one of the
    three priorities, the view [sortTasks] gives under the priority
    order holds the same tasks, high before medium before low, and the
    tasks of one priority in the order of the store. *)
Theorem priority_view
  (localeCompare : string -> string -> Z) (dateValue : string -> number)
  (currentSort : string) (tasks : list Task) :
  sortMode currentSort = ByPriority ->
  Forall (fun t => listPriority (priority t) <> NaN) tasks ->
  Permutation tasks (sortTasks localeCompare dateValue currentSort tasks)
  /\ StronglySorted
       (fun a b => le (listPriority (priority a))
                      (listPriority (priority b)) = true)
       (sortTasks localeCompare dateValue currentSort tasks)
  /\ (forall p,
        filter (fun t => String.eqb (priority t) p)
               (sortTasks localeCompare dateValue currentSort tasks)
        = filter (fun t => String.eqb (priority t) p) tasks).
Proof.
  intros E Hvalid.
  assert (Es : sortTasks localeCompare dateValue currentSort tasks
               = sort (fun a b => sign_of (listPriority (priority a))
                                  - sign_of (listPriority (priority b)))
                      tasks).
  { unfold sortTasks. rewrite E. apply sort_ext_in. intros a b Ha Hb.
    rewrite Forall_forall in Hvalid.
    pose proof (Hvalid a Ha) as Va. pose proof (Hvalid b Hb) as Vb.
    cbn [comparator].
    destruct (listPriority (priority a)); [contradiction|].
    destruct (listPriority (priority b)); [contradiction|].
    reflexivity. }
  rewrite Es. split; [apply sort_Permutation|]. split.
  - apply (StronglySorted_weaken
             (fun a b => sign_of (listPriority (priority a))
                         <= sign_of (listPriority (priority b)))
             _ (fun t => listPriority (priority t) <> NaN)).
    + intros a b Va Vb.
      destruct (listPriority (priority a)); [contradiction|].
      destruct (listPriority (priority b)); [contradiction|].
      cbn [sign_of le]. apply Z.leb_le.
    + apply (Permutation_Forall (sort_Permutation _ tasks)). exact Hvalid.
    + apply sort_sorted; intros; lia.
  - intros p. apply sort_stable. intros x y Hx Hy.
    apply String.eqb_eq in Hx, Hy. rewrite Hx, Hy. lia.
Qed.

Lemma priority_view_witness :
  Permutation Examples.endToEnd
    (sortTasks (fun _ _ => 0) (fun _ => NaN) "priority" Examples.endToEnd).
Proof.
  refine (proj1 (priority_view (fun _ _ => 0) (fun _ => NaN) "priority"
                   Examples.endToEnd eq_refl _)).
  repeat constructor; vm_compute; discriminate.
Defined.

(** X25. The filtered list: [getFilteredTasks] shows exactly the tasks
    of the store that pass the search, the category and the status
    test, each as often as the store holds it; with unique ids no task
    is shown twice; for any search and category the active and the
    completed view together are as long as the view of all; and with
    no filter at all every task is shown. *)
Theorem filtered_views
  (toLowerCase : string -> string)
  (localeCompare : string -> string -> Z) (dateValue : string -> number)
  (currentSort today searchQuery : string)
  (categoryFilter : option string) (tasks : list Task) :
  let view := fun filter =>
    getFilteredTasks toLowerCase localeCompare dateValue currentSort today
                     filter searchQuery categoryFilter tasks in
  (forall filter,
      Permutation
        (view filter)
        (List.filter
           (fun t => searchFilter toLowerCase searchQuery t
                     && categoryTest categoryFilter t
                     && statusFilter filter today t) tasks))
  /\ (forall filter t,
        In t (view filter) ->
        In t tasks /\ statusFilter filter today t = true)
  /\ (forall filter, NoDup (map id tasks) -> NoDup (map id (view filter)))
  /\ (List.length (view "active") + List.length (view "completed")
      = List.length (view "all"))%nat
  /\ (forall t, In t (view "overdue") -> completed t = false)
  /\ (searchQuery = "" -> categoryFilter = None ->
      Permutation (view "all") tasks).
Proof.
  cbn zeta.
  assert (Hperm : forall f,
      Permutation
        (getFilteredTasks toLowerCase localeCompare dateValue currentSort
                          today f searchQuery categoryFilter tasks)
        (List.filter
           (fun t => searchFilter toLowerCase searchQuery t
                     && categoryTest categoryFilter t
                     && statusFilter f today t) tasks)).
  { intros f. unfold getFilteredTasks, sortTasks.
    rewrite <- sort_Permutation.
    induction tasks as [|x r IH]; [constructor|].
    cbn [List.filter].
    destruct (searchFilter toLowerCase searchQuery x); cbn [andb];
      [|exact IH].
    cbn [List.filter].
    destruct (categoryTest categoryFilter x); cbn [andb]; [|exact IH].
    cbn [List.filter].
    destruct (statusFilter f today x); [|exact IH].
    now constructor. }
  split; [exact Hperm|].
  split; [|split; [|split; [|split]]].
  - intros f t Ht. apply (Permutation_in _ (Hperm f)) in Ht.
    apply filter_In in Ht. destruct Ht as [Hin Ht].
    apply andb_true_iff in Ht. tauto.
  - intros f Hnd.
    apply (Permutation_NoDup
             (Permutation_map id (Permutation_sym (Hperm f)))).
    now apply NoDup_map_filter.
  - rewrite !(Permutation_length (Hperm _)).
    assert (Ha : forall t, statusFilter "active" today t
                           = negb (completed t)) by reflexivity.
    assert (Hc : forall t, statusFilter "completed" today t = completed t)
      by reflexivity.
    assert (Hall : forall t, statusFilter "all" today t = true)
      by reflexivity.
    clear Hperm. induction tasks as [|x r IH]; [reflexivity|].
    cbn [List.filter]. rewrite (Ha x), (Hc x), (Hall x).
    destruct (searchFilter toLowerCase searchQuery x),
             (categoryTest categoryFilter x), (completed x);
      cbn [andb negb List.length]; lia.
  - intros t Ht. apply (Permutation_in _ (Hperm _)) in Ht.
    apply filter_In in Ht. destruct Ht as [_ Ht].
    apply andb_true_iff in Ht. destruct Ht as [_ Ht].
    unfold statusFilter in Ht. cbn [String.eqb Ascii.eqb Bool.eqb] in Ht.
    destruct (dueDate t); [|discriminate].
    apply andb_true_iff in Ht. destruct Ht as [_ Ht].
    now apply negb_true_iff in Ht.
  - intros -> ->. rewrite (Hperm "all"). clear Hperm.
    induction tasks as [|x r IH]; [constructor|].
    cbn [List.filter].
    change (searchFilter toLowerCase "" x) with true.
    change (categoryTest None x) with true.
    change (statusFilter "all" today x) with true.
    cbn [andb]. now constructor.
Qed.
